(** * Rename planning of gopls: a shallow embedding of
    [gopls/internal/lsp/source/rename.go] and the properties of its
    rename pipeline (single-symbol rename, package rename, import fix-ups,
    doc-comment rewriting, de-duplication). *)

From stdpp Require Import gmap strings list pretty sorting.
From Stdlib Require Import ZArith Lia Permutation Ascii.

Local Open Scope Z_scope.

(** ** Errors and fallible results *)

(** One constructor per error built in [rename.go]; the message of the
    source is given next to each.  Errors of collaborators are propagated
    verbatim and carried as [ErrCollaborator]. *)
Inductive error : Type :=
| ErrCollaborator (msg : string)
| ErrNoFileRename
    (* can't rename package: LSP client does not support file renaming *)
| ErrNoPackagesFound (uri : string)
    (* no packages found for file %q *)
| ErrRenameMain
    (* can't rename package [main] *)
| ErrRenameXTest
    (* can't rename x_test packages *)
| ErrPrepareMissingModule (pkgPath : string)
    (* can't rename package: missing module information for package %q *)
| ErrPreparePathIsModule (pkgPath modulePath : string)
    (* can't rename package: package path %q is the same as module path %q *)
| ErrBuildingPackage (cause : error)
    (* error building package to rename: %v *)
| ErrNotValidIdentifier (newName : string)
    (* %q is not a valid identifier *)
| ErrMissingModule (pkgPath : string)
    (* cannot rename package: missing module information for package %q *)
| ErrRenameToTest
    (* cannot rename to _test package *)
| ErrModulePathIsPackagePath (modulePath : string)
    (* cannot rename package: module path %q is the same as the package
       path, so renaming the package directory would have no effect *)
| ErrEmbeddedField
    (* can't rename embedded fields: rename the type directly or name the field *)
| ErrBlank
    (* can't rename [_] *)
| ErrSameName (newName : string)
    (* old and new names are the same: %s *)
| ErrInvalidIdentifier (newName : string)
    (* invalid identifier to rename: %q *)
| ErrConflicts (msg : string)
    (* fmt.Errorf(r.errors) *)
| ErrNoEnclosingPath (name : string)
    (* no path enclosing interval for %s *)
| ErrUpdatePkgName (name : string)
    (* failed to update PkgName for %s *)
| ErrPanic (what : string).
    (* a run-time panic: index out of range, failed type assertion,
       nil dereference.  It stands for a call that does not return: the
       panic unwinds through every caller in this file, as an error does. *)

(** The classes of section 7 of the design, as far as [rename.go] builds
    the errors itself. *)
Inductive errorClass : Type :=
| InvalidTarget | InvalidName | NotFound | Conflict | CollaboratorFailure.

Definition classify (e : error) : errorClass :=
  match e with
  | ErrEmbeddedField | ErrBlank | ErrRenameMain | ErrRenameXTest
  | ErrPrepareMissingModule _ | ErrPreparePathIsModule _ _
  | ErrMissingModule _ | ErrModulePathIsPackagePath _ => InvalidTarget
  | ErrNotValidIdentifier _ | ErrInvalidIdentifier _ | ErrSameName _
  | ErrRenameToTest => InvalidName
  | ErrNoPackagesFound _ => NotFound
  | ErrConflicts _ => Conflict
  | _ => CollaboratorFailure
  end.

(** A Go result pair [(v, err)] in which [v] is the zero value whenever
    [err] is not nil. *)
Inductive result (A : Type) : Type :=
| Ok (a : A)
| Err (e : error).
Arguments Ok {A} a.
Arguments Err {A} e.

#[global] Instance result_ret : MRet result := fun A a => Ok a.
#[global] Instance result_bind : MBind result := fun A B f m =>
  match m with
  | Ok a => f a
  | Err e => Err e
  end.

Definition isOk {A} (m : result A) : bool :=
  match m with Ok _ => true | Err _ => false end.

(** ** Strings *)

(** [stripPrefix prefix s] is [Some t] exactly when [s = prefix ++ t]. *)
Fixpoint stripPrefix (prefix s : string) : option string :=
  match prefix, s with
  | EmptyString, _ => Some s
  | String a p, String b t => if decide (a = b) then stripPrefix p t else None
  | String _ _, EmptyString => None
  end.

(** [strings.HasPrefix]. *)
Definition strings_HasPrefix (s prefix : string) : bool :=
  bool_decide (is_Some (stripPrefix prefix s)).

(** [strings.TrimPrefix]. *)
Definition strings_TrimPrefix (s prefix : string) : string :=
  default s (stripPrefix prefix s).

(** [strings.HasSuffix]. *)
Definition strings_HasSuffix (s suffix : string) : bool :=
  strings_HasPrefix (String.rev s) (String.rev suffix).

(** [strings.Split(s, sep)] for a separator of one byte. *)
Fixpoint strings_Split_go (sep : ascii) (cur : string) (s : string) : list string :=
  match s with
  | EmptyString => [String.rev cur]
  | String a t =>
      if decide (a = sep) then String.rev cur :: strings_Split_go sep EmptyString t
      else strings_Split_go sep (String a cur) t
  end.
Definition strings_Split (s : string) (sep : ascii) : list string :=
  strings_Split_go sep EmptyString s.

(** [len(s)] as a Go [int]. *)
Definition len (s : string) : Z := Z.of_nat (String.length s).

(** ** Positions, spans and edits *)

(** [span.URI] is a string; [token.Pos] is an integer. *)
Abbreviation URI := string (only parsing).
Abbreviation Pos := Z (only parsing).

(** [span.Point] and [span.Span]; spans are compared structurally when
    they are used as map keys. *)
Record Point : Type := { Point_Line : Z; Point_Column : Z; Point_Offset : Z }.
Record Span : Type := { Span_URI : string; Span_Start : Point; Span_End : Point }.

#[global] Instance Point_eq_dec : EqDecision Point.
Proof. solve_decision. Defined.
#[global] Instance Span_eq_dec : EqDecision Span.
Proof. solve_decision. Defined.
#[global] Instance Point_countable : Countable Point.
Proof.
  refine (inj_countable' (fun p => (Point_Line p, Point_Column p, Point_Offset p))
            (fun t => {| Point_Line := t.1.1; Point_Column := t.1.2; Point_Offset := t.2 |}) _).
  by intros [].
Defined.
#[global] Instance Span_countable : Countable Span.
Proof.
  refine (inj_countable' (fun p => (Span_URI p, Span_Start p, Span_End p))
            (fun t => {| Span_URI := t.1.1; Span_Start := t.1.2; Span_End := t.2 |}) _).
  by intros [].
Defined.

(** [protocol.Position], [protocol.Range], [protocol.TextEdit]. *)
Record Position : Type := { Position_Line : Z; Position_Character : Z }.
Record Range : Type := { Range_Start : Position; Range_End : Position }.
Record TextEdit : Type := {
  TextEdit_Range : Range;
  TextEdit_NewText : string;
  TextEdit_AnnotationID : string
}.

#[global] Instance Position_eq_dec : EqDecision Position.
Proof. solve_decision. Defined.
#[global] Instance Range_eq_dec : EqDecision Range.
Proof. solve_decision. Defined.
#[global] Instance TextEdit_eq_dec : EqDecision TextEdit.
Proof. solve_decision. Defined.

(** [diff.Edit]: replace the bytes [Start, End) by [New]. *)
Record Edit : Type := { Edit_Start : Z; Edit_End : Z; Edit_New : string }.

#[global] Instance Edit_eq_dec : EqDecision Edit.
Proof. solve_decision. Defined.

(** [m[uri] = append(m[uri], e)] on a map of slices. *)
Definition appendAt {A} (m : gmap string (list A)) (uri : URI) (es : list A)
  : gmap string (list A) :=
  <[uri := default [] (m !! uri) ++ es]> m.

(** [m[uri]] on a map of slices: the nil slice when the key is absent. *)
Definition editsAt {A} (m : gmap string (list A)) (uri : URI) : list A :=
  default [] (m !! uri).

(** [for uri, es := range changes { m[uri] = append(m[uri], es...) }]:
    the keys of [changes] are distinct, so the order of the iteration does
    not matter. *)
Definition appendAll {A} (m changes : gmap string (list A)) : gmap string (list A) :=
  merge (fun old new =>
           match new with
           | Some es => Some (default [] old ++ es)
           | None => old
           end) m changes.

(** ** Syntax trees *)

(** [ast.Ident]. *)
Record Ident : Type := { Ident_NamePos : Z; Ident_Name : string }.
Definition Ident_Pos (id : Ident) : Pos := Ident_NamePos id.
Definition Ident_End (id : Ident) : Pos := Ident_NamePos id + len (Ident_Name id).

(** [ast.Comment] and [ast.CommentGroup]; a group holds at least one
    comment, so [Pos] and [End] are total. *)
Record Comment : Type := { Comment_Slash : Z; Comment_Text : string }.
Definition Comment_Pos (c : Comment) : Pos := Comment_Slash c.
Definition Comment_End (c : Comment) : Pos := Comment_Slash c + len (Comment_Text c).

Record CommentGroup : Type := { CommentGroup_first : Comment; CommentGroup_rest : list Comment }.
Definition CommentGroup_List (g : CommentGroup) : list Comment :=
  CommentGroup_first g :: CommentGroup_rest g.
Definition CommentGroup_Pos (g : CommentGroup) : Pos := Comment_Pos (CommentGroup_first g).
Definition CommentGroup_End (g : CommentGroup) : Pos :=
  Comment_End (List.last (CommentGroup_rest g) (CommentGroup_first g)).

(** [ast.ImportSpec] with its path literal ([ast.BasicLit]).  [ImportSpec_id]
    stands for the identity of the node, by which [types.Info.Implicits] is
    keyed. *)
Record ImportSpec : Type := {
  ImportSpec_id : nat;
  ImportSpec_Name : option Ident;
  ImportSpec_PathPos : Z;
  ImportSpec_PathValue : string
}.
Definition ImportSpec_Path_Pos (s : ImportSpec) : Pos := ImportSpec_PathPos s.
Definition ImportSpec_Path_End (s : ImportSpec) : Pos :=
  ImportSpec_PathPos s + len (ImportSpec_PathValue s).
(** [func (s *ImportSpec) Pos()]: the name's position if there is a name,
    the path's otherwise. *)
Definition ImportSpec_Pos (s : ImportSpec) : Pos :=
  match ImportSpec_Name s with
  | Some id => Ident_Pos id
  | None => ImportSpec_Path_Pos s
  end.

(** [ast.File]; [File_id] stands for the identity of the node, by which
    [types.Info.Scopes] is keyed. *)
Record File : Type := {
  File_id : nat;
  File_Name : option Ident;
  File_Imports : list ImportSpec;
  File_Comments : list CommentGroup
}.

(** The assignment token of an [ast.AssignStmt]. *)
Inductive Token : Type := DEFINE | ASSIGN.

(** The syntax nodes that [rename.go] tells apart, and an [ast.Node] with
    its extent. *)
Inductive NodeKind : Type :=
| FuncDecl (Doc : option CommentGroup)
| FieldNode (Doc : option CommentGroup)
| GenDecl (Doc : option CommentGroup)
| TypeSpec (Doc : option CommentGroup)
| ValueSpec (Doc : option CommentGroup)
| IdentNode
| AssignStmt (Tok : Token)
| ImportSpecNode (spec : ImportSpec)
| FileNode (file : File)
| OtherNode.

Record Node : Type := { Node_Pos : Z; Node_End : Z; Node_kind : NodeKind }.

(** An [*ast.Ident] used as an [ast.Node]. *)
Definition Node_of_Ident (id : Ident) : Node :=
  {| Node_Pos := Ident_Pos id; Node_End := Ident_End id; Node_kind := IdentNode |}.

(** ** Objects, packages and references *)

(** The receiver of a method: its type, as far as the code looks at it. *)
Record Receiver : Type := {
  Receiver_IsInterface : bool;  (* IsInterface(recv.Type().Underlying()) *)
  Receiver_TypeString : string  (* recv.Type().String() *)
}.

(** The dynamic type of a [types.Object]. *)
Inductive ObjectKind : Type :=
| VarObj (Embedded : bool)
| FuncObj (Recv : option Receiver)
| PkgNameObj (ImportedName : string)   (* Imported().Name() *)
| OtherObj.

(** A [types.Object]: [Object_id] is its identity in the snapshot,
    [Object_Pkg] the identity of its [*types.Package]. *)
Record Object : Type := {
  Object_id : nat;
  Object_Name : string;
  Object_Kind : ObjectKind;
  Object_Pkg : nat;
  Object_Pos : Z
}.

Inductive ParseMode : Type := ParseHeader | ParseExported | ParseFull.
#[global] Instance ParseMode_eq_dec : EqDecision ParseMode.
Proof. solve_decision. Defined.

(** [source.ParsedGoFile]; [Tok] and [Mapper] are handles. *)
Record ParsedGoFile : Type := {
  ParsedGoFile_URI : string;
  ParsedGoFile_File : File;
  ParsedGoFile_Tok : nat;
  ParsedGoFile_Mapper : nat
}.

(** [source.MappedRange], as built by [NewMappedRange(tok, mapper, start, end)]. *)
Record MappedRange : Type := {
  MappedRange_Tok : nat;
  MappedRange_Mapper : nat;
  MappedRange_Start : Z;
  MappedRange_End : Z
}.
Definition NewMappedRange (tok mapper : nat) (start end_ : Pos) : MappedRange :=
  {| MappedRange_Tok := tok; MappedRange_Mapper := mapper;
     MappedRange_Start := start; MappedRange_End := end_ |}.

(** A [source.Package], by what the code reads of it.  A scope is the set
    of the names it binds: [Lookup(name) != nil] is membership. *)
Record Package : Type := {
  Package_ID : string;
  Package_Name : string;
  Package_ParseMode : ParseMode;
  Package_CompiledGoFiles : list ParsedGoFile;
  Package_Types : nat;                        (* GetTypes(): the *types.Package *)
  Package_Scope : gset string;                (* GetTypes().Scope() *)
  Package_Implicits : gmap nat Object;        (* GetTypesInfo().Implicits *)
  Package_Scopes : gmap nat (gset string)     (* GetTypesInfo().Scopes *)
}.

(** [source.Metadata] with its [ModuleInfo]. *)
Record ModuleInfo : Type := { ModuleInfo_Path : string }.
Record Metadata : Type := {
  Metadata_PackageID : string;
  Metadata_PackageName : string;
  Metadata_PackagePath : string;
  Metadata_ModuleInfo : option ModuleInfo
}.

(** [source.ReferenceInfo]; it embeds a [MappedRange]. *)
Record ReferenceInfo : Type := {
  ReferenceInfo_MappedRange : MappedRange;
  ReferenceInfo_ident : option Ident;
  ReferenceInfo_obj : Object;
  ReferenceInfo_pkg : Package;
  ReferenceInfo_isDeclaration : bool
}.

(** [source.qualifiedObject]; [renameImports] builds one from [obj] and
    [pkg] alone. *)
Record qualifiedObject : Type := {
  qualifiedObject_obj : Object;
  qualifiedObject_pkg : Package;
  qualifiedObject_sourcePkg : option Package;   (* nil when left unset *)
  qualifiedObject_node : option Node            (* nil when left unset *)
}.

(** [source.FileHandle]. *)
Record FileHandle : Type := {
  FileHandle_URI : string;
  FileHandle_Read : result string
}.

(** [protocol.ResourceOperationKind]. *)
Inductive ResourceOperationKind : Type := CreateOp | RenameOp | DeleteOp.
#[global] Instance ResourceOperationKind_eq_dec : EqDecision ResourceOperationKind.
Proof. solve_decision. Defined.

(** ** The renamer *)

(** [type renamer struct]: the working state of one rename.  [ctx] and
    [fset] are left to the snapshot.  Objects, packages and types are keyed
    by their identities. *)
Record renamer : Type := {
  renamer_refs : list ReferenceInfo;
  renamer_objsToUpdate : gmap nat bool;
  renamer_hadConflicts : bool;
  renamer_errors : string;
  renamer_from : string;
  renamer_to : string;
  renamer_satisfyConstraints : gmap (nat * nat) bool;
  renamer_packages : gmap nat Package;
  renamer_msets : gmap nat (list string);
  renamer_changeMethods : bool
}.

Definition set_changeMethods (r : renamer) (b : bool) : renamer :=
  {| renamer_refs := renamer_refs r;
     renamer_objsToUpdate := renamer_objsToUpdate r;
     renamer_hadConflicts := renamer_hadConflicts r;
     renamer_errors := renamer_errors r;
     renamer_from := renamer_from r;
     renamer_to := renamer_to r;
     renamer_satisfyConstraints := renamer_satisfyConstraints r;
     renamer_packages := renamer_packages r;
     renamer_msets := renamer_msets r;
     renamer_changeMethods := b |}.

Definition set_packages (r : renamer) (p : gmap nat Package) : renamer :=
  {| renamer_refs := renamer_refs r;
     renamer_objsToUpdate := renamer_objsToUpdate r;
     renamer_hadConflicts := renamer_hadConflicts r;
     renamer_errors := renamer_errors r;
     renamer_from := renamer_from r;
     renamer_to := renamer_to r;
     renamer_satisfyConstraints := renamer_satisfyConstraints r;
     renamer_packages := p;
     renamer_msets := renamer_msets r;
     renamer_changeMethods := renamer_changeMethods r |}.

(** ** Collaborators *)

(** Functions of the Go standard library and pure helpers of the package
    that [rename.go] calls and that are defined elsewhere. *)
Class Library : Type := {
  (* package source, util.go *)
  isValidIdentifier : string -> bool;
  isDirective : string -> bool;
  (* package protocol *)
  CompareRange : Range -> Range -> Z;
  (* package span *)
  span_URIFromPath : string -> string;
  (* path.Join(a, b), path.Dir *)
  path_Join : string -> string -> string;
  path_Dir : string -> string;
  (* strconv.Quote; strconv.Unquote, whose error the caller drops, so that
     the empty string stands for a literal that does not unquote *)
  strconv_Quote : string -> string;
  strconv_Unquote : string -> string
}.

(** The snapshot, its file set, and the helpers of the package that are
    evaluated against it.  The context argument of the source is dropped. *)
Record Snapshot : Type := {
  (* methods of source.Snapshot *)
  ParseGo : FileHandle -> result ParsedGoFile;     (* in mode ParseFull *)
  SupportedResourceOperations : list ResourceOperationKind;
                                       (* View().Options().SupportedResourceOperations *)
  MetadataForFile : string -> result (list Metadata);
  WorkspacePackageByID : string -> result Package;
  AllValidMetadata : result (list Metadata);
  GetReverseDependencies : string -> result (list Package);
  GetFile : string -> result FileHandle;
  (* the file set: fset.File(pos) is a handle of a token.File *)
  FileSet_File : Z -> nat;
  tokFile_Name : nat -> string;
  tokFile_Line : nat -> Z -> Z;
  tokFile_LineStart : nat -> Z -> Z;
  (* safetoken.Offset: its int result; the callers drop its error *)
  safetoken_Offset : nat -> Z -> Z;
  (* span.NewRange(tokFile, start, end).Span() *)
  Range_Span : nat -> Z -> Z -> result Span;
  (* methods of MappedRange *)
  MappedRange_Range : MappedRange -> result Range;
  MappedRange_Span : MappedRange -> result Span;
  (* helpers of package source *)
  isInPackageName : FileHandle -> ParsedGoFile -> Position -> result bool;
  qualifiedObjsAtProtocolPos : string -> Position -> result (list qualifiedObject);
  references : list qualifiedObject -> bool -> bool -> bool -> result (list ReferenceInfo);
  implementations : FileHandle -> Position -> result (list qualifiedObject);
  posToMappedRange : Package -> Z -> Z -> result MappedRange;
  (* pathEnclosingInterval: the token.File and the path of nodes *)
  pathEnclosingInterval : Package -> Z -> Z -> nat * list Node;
  (* ToProtocolEdits(protocol.NewColumnMapper(uri, data), edits) *)
  ToProtocolEdits : string -> string -> list Edit -> result (list TextEdit);
  (* (r *renamer).check(obj), of rename_check.go: it updates the renamer *)
  check : renamer -> Object -> renamer
}.

(** ** The regular expression of doc comments *)

(** The bytes that [\b] of Go's regexp treats as word characters:
    [0-9A-Za-z_]. *)
Definition isWordByte (c : ascii) : bool :=
  let n := N_of_ascii c in
  ((48 <=? n) && (n <=? 57) || (65 <=? n) && (n <=? 90)
   || (97 <=? n) && (n <=? 122) || (n =? 95))%N.

(** A text made of word characters only, as an ASCII identifier is. *)
Fixpoint allWordBytes (s : string) : bool :=
  match s with
  | EmptyString => true
  | String a t => isWordByte a && allWordBytes t
  end.

(** [\b]: an ASCII word boundary lies between two neighbouring bytes when
    exactly one of them is a word character; the start and the end of the
    text count as non-word. *)
Definition isWordOpt (c : option ascii) : bool :=
  match c with Some a => isWordByte a | None => false end.
Definition wordBoundary (before after : option ascii) : bool :=
  xorb (isWordOpt before) (isWordOpt after).

Definition headByte (s : string) : option ascii :=
  match s with String a _ => Some a | EmptyString => None end.

Fixpoint lastByte (dflt : option ascii) (s : string) : option ascii :=
  match s with
  | EmptyString => dflt
  | String a t => lastByte (Some a) t
  end.

(** Does [\b from \b] match at the head of [rest], the byte before being
    [prev]? *)
Definition matchHere (from : string) (prev : option ascii) (rest : string) : bool :=
  match stripPrefix from rest with
  | Some after =>
      wordBoundary prev (headByte rest) && wordBoundary (lastByte prev from) (headByte after)
  | None => false
  end.

(** [regexp.MustCompile(`\b` + from + `\b`).FindAllIndex(line, -1)] for a
    non-empty [from] without regexp metacharacters (the name of a Go
    object): the leftmost matches, none overlapping an earlier one, as
    pairs of byte offsets into the line.  [pos] is the offset of [rest],
    [prev] the byte before it and [skip] the number of bytes of [rest] that
    the previous match still covers. *)
Fixpoint findAllIndex_go (from : string) (prev : option ascii) (pos : Z) (skip : nat)
    (rest : string) : list (Z * Z) :=
  match rest with
  | EmptyString => []
  | String a t =>
      match skip with
      | S k => findAllIndex_go from (Some a) (pos + 1) k t
      | O =>
          if matchHere from prev rest
          then (pos, pos + len from)
                 :: findAllIndex_go from (Some a) (pos + 1) (Nat.pred (String.length from)) t
          else findAllIndex_go from (Some a) (pos + 1) O t
      end
  end.

Definition docRegexp_FindAllIndex (from line : string) : list (Z * Z) :=
  findAllIndex_go from None 0 O line.

(** ** The set of import renamings already processed *)

(** [seenPackageKey]: the struct [{uri span.URI; importPath string}]. *)
Abbreviation seenPackageKey := (string * string)%type (only parsing).

(** [seenPackageRename] is [map[seenPackageKey]bool]; reading a key that is
    absent yields the zero value [false]. *)
Abbreviation seenPackageRename := (gmap seenPackageKey bool) (only parsing).

(** [s[key]] on a Go map of booleans. *)
Definition seenPackageRename_get (s : seenPackageRename) (key : seenPackageKey) : bool :=
  default false (s !! key).

(** [func (s seenPackageRename) add(uri, importPath) bool] reports whether
    uri and importPath have been seen, and records them as seen if not.
    The map is updated in place, so the new map is returned next to the
    boolean. *)
Definition seenPackageRename_add (s : seenPackageRename) (uri : URI) (importPath : string)
  : bool * seenPackageRename :=
  let key : seenPackageKey := (uri, importPath) in
  let seen := seenPackageRename_get s key in
  (seen, if negb seen then <[key := true]> s else s).

(** ** Single-symbol rename *)

Section Rename.
Context `{Library}.

(** [checkRenamable] verifies if an obj may be renamed. *)
Definition checkRenamable (obj : Object) : result unit :=
  match Object_Kind obj with
  | VarObj true => Err ErrEmbeddedField
  | _ => if decide (Object_Name obj = "_") then Err ErrBlank else Ok tt
  end.

(** [(r *renamer).updatePkgName]: the edit that renames a [PkgName] in its
    import spec by rewriting only the part of the spec before the path.
    [imported] is [pkgName.Imported().Name()]. *)
Definition updatePkgName (s : Snapshot) (r : renamer) (pkgName : Object) (imported : string)
  : result Edit :=
  match renamer_packages r !! Object_Pkg pkgName with
  | None => Err (ErrPanic "nil Package")
  | Some pkg =>
      let '(tokFile, path) :=
        pathEnclosingInterval s pkg (Object_Pos pkgName) (Object_Pos pkgName) in
      match path with
      | _ :: node :: _ =>
          match Node_kind node with
          | ImportSpecNode spec =>
              let newText :=
                if decide (imported ≠ renamer_to r) then renamer_to r +:+ " " else "" in
              spn ← Range_Span s tokFile (ImportSpec_Pos spec) (ImportSpec_Path_Pos spec);
              Ok {| Edit_Start := Point_Offset (Span_Start spn);
                    Edit_End := Point_Offset (Span_End spn);
                    Edit_New := newText |}
          | _ => Err (ErrUpdatePkgName (Object_Name pkgName))
          end
      | _ => Err (ErrNoEnclosingPath (Object_Name pkgName))
      end
  end.

(** The inner loop of [docComment] over the comments of the file, for a
    short variable declaration. *)
Fixpoint docComment_nearest (s : Snapshot) (tokFile : nat) (id : Ident) (identLine : Z)
    (comments : list CommentGroup) : option CommentGroup :=
  match comments with
  | [] => None
  | comment :: rest =>
      if decide (CommentGroup_Pos comment > Ident_Pos id)
      then docComment_nearest s tokFile id identLine rest
      else if decide (tokFile_Line s tokFile (CommentGroup_End comment) + 1 = identLine)
           then Some comment
           else docComment_nearest s tokFile id identLine rest
  end.

(** The loop of [docComment] over the enclosing nodes; [all] is the whole
    path, whose last node is asserted to be the file. *)
Fixpoint docComment_nodes (s : Snapshot) (tokFile : nat) (id : Ident) (all nodes : list Node)
  : result (option CommentGroup) :=
  match nodes with
  | [] => Ok None
  | node :: rest =>
      match Node_kind node with
      | FuncDecl doc | FieldNode doc | GenDecl doc => Ok doc
      | TypeSpec doc | ValueSpec doc =>
          match doc with
          | Some d => Ok (Some d)
          | None => docComment_nodes s tokFile id all rest
          end
      | IdentNode => docComment_nodes s tokFile id all rest
      | AssignStmt tok =>
          match tok with
          | DEFINE =>
              let identLine := tokFile_Line s tokFile (Ident_Pos id) in
              match Node_kind <$> last all with
              | Some (FileNode file) =>
                  match docComment_nearest s tokFile id identLine (File_Comments file) with
                  | Some comment => Ok (Some comment)
                  | None => docComment_nodes s tokFile id all rest
                  end
              | _ => Err (ErrPanic "interface conversion: not *ast.File")
              end
          | _ => Ok None
          end
      | _ => Ok None
      end
  end.

(** [(r *renamer).docComment] returns the doc for an identifier. *)
Definition docComment (s : Snapshot) (r : renamer) (pkg : Package) (id : Ident)
  : result (option CommentGroup) :=
  let '(tokFile, nodes) := pathEnclosingInterval s pkg (Ident_Pos id) (Ident_End id) in
  docComment_nodes s tokFile id nodes nodes.

(** The edits of [update] for one line of a comment. *)
Definition docEdits_line (s : Snapshot) (r : renamer) (tokFile : nat) (lineStart : Z)
    (line : string) : list Edit :=
  (fun locs : Z * Z =>
     {| Edit_Start := safetoken_Offset s tokFile (lineStart + locs.1);
        Edit_End := safetoken_Offset s tokFile (lineStart + locs.2);
        Edit_New := renamer_to r |}) <$> docRegexp_FindAllIndex (renamer_from r) line.

(** The body of the loop of [update] over [doc.List]: the file of the
    comment and the edits in it, line by line. *)
Definition docEdits_comment (s : Snapshot) (r : renamer) (comment : Comment)
  : string * list Edit :=
  let tokFile := FileSet_File s (Comment_Pos comment) in
  let commentLine := tokFile_Line s tokFile (Comment_Pos comment) in
  let uri := span_URIFromPath (tokFile_Name s tokFile) in
  if isDirective (Comment_Text comment) then (uri, [])
  else
    let lines := strings_Split (Comment_Text comment) "010"%char in
    (uri,
     mjoin (imap (fun i line =>
                    let lineStart :=
                      if decide (0 < i)%nat
                      then tokFile_LineStart s tokFile (commentLine + Z.of_nat i)
                      else Comment_Pos comment in
                    docEdits_line s r tokFile lineStart line) lines)).

(** [result[uri] = append(result[uri], e)] for each edit in turn. *)
Definition appendEach {A} (m : gmap string (list A)) (uri : URI) (es : list A)
  : gmap string (list A) :=
  foldl (fun m e => appendAt m uri [e]) m es.

Definition docEdits (s : Snapshot) (r : renamer) (doc : CommentGroup)
    (result : gmap string (list Edit)) : gmap string (list Edit) :=
  foldl (fun m comment =>
           let '(uri, es) := docEdits_comment s r comment in appendEach m uri es)
        result (CommentGroup_List doc).

(** The edit that replaces the identifier of a reference by [r.to]. *)
Definition identEdit (r : renamer) (refSpan : Span) : Edit :=
  {| Edit_Start := Point_Offset (Span_Start refSpan);
     Edit_End := Point_Offset (Span_End refSpan);
     Edit_New := renamer_to r |}.

(** The body of the loop of [update] over [r.refs]; the state is the map
    [result] and the map [seen] of the spans met so far. *)
Definition update_ref (s : Snapshot) (r : renamer)
    (st : gmap string (list Edit) * gmap Span bool) (ref : ReferenceInfo)
  : result (gmap string (list Edit) * gmap Span bool) :=
  let '(result, seen) := st in
  refSpan ← MappedRange_Span s (ReferenceInfo_MappedRange ref);
  if default false (seen !! refSpan) then Ok (result, seen)
  else
    let seen := <[refSpan := true]> seen in
    match Object_Kind (ReferenceInfo_obj ref), ReferenceInfo_isDeclaration ref with
    | PkgNameObj imported, true =>
        (* Renaming a types.PkgName may add or remove an identifier. *)
        edit ← updatePkgName s r (ReferenceInfo_obj ref) imported;
        Ok (appendAt result (Span_URI refSpan) [edit], seen)
    | _, _ =>
        (* Replace the identifier with r.to. *)
        let result := appendAt result (Span_URI refSpan) [identEdit r refSpan] in
        match ReferenceInfo_isDeclaration ref, ReferenceInfo_ident ref with
        | true, Some ident =>
            doc ← docComment s r (ReferenceInfo_pkg ref) ident;
            match doc with
            | None => Ok (result, seen)
            | Some doc => Ok (docEdits s r doc result, seen)
            end
        | _, _ => Ok (result, seen)   (* uses do not have doc comments to update *)
        end
    end.

Fixpoint update_refs (s : Snapshot) (r : renamer)
    (st : gmap string (list Edit) * gmap Span bool) (refs : list ReferenceInfo)
  : result (gmap string (list Edit) * gmap Span bool) :=
  match refs with
  | [] => Ok st
  | ref :: rest => st' ← update_ref s r st ref; update_refs s r st' rest
  end.

(** [(r *renamer).update]: rename all references to the identifier.  The
    regular expression of [r.from] always compiles (see
    [docRegexp_FindAllIndex]). *)
Definition update (s : Snapshot) (r : renamer) : result (gmap string (list Edit)) :=
  st ← update_refs s r (∅, ∅) (renamer_refs r);
  Ok st.1.

(** The loop of [renameObj] that checks the references: it stops at the
    first reference after which the renamer has conflicts.  Next to the
    renamer, the references that were handed to [check] are returned, in
    order. *)
Fixpoint checkRefs (s : Snapshot) (r : renamer) (refs : list ReferenceInfo)
  : renamer * list ReferenceInfo :=
  match refs with
  | [] => (r, [])
  | ref :: rest =>
      let r := check s r (ReferenceInfo_obj ref) in
      if renamer_hadConflicts r then (r, [ref])   (* one error is enough *)
      else let '(r', checked) := checkRefs s r rest in (r', ref :: checked)
  end.

(** Is some reference a method whose receiver is an interface? *)
Definition refersToInterfaceMethod (refs : list ReferenceInfo) : bool :=
  existsb (fun ref =>
             match Object_Kind (ReferenceInfo_obj ref) with
             | FuncObj (Some recv) => Receiver_IsInterface recv
             | _ => false
             end) refs.

(** The last loop of [renameObj], which turns the edits of each file into
    protocol edits.  Go ranges over the map in no fixed order; the order
    decides only which error is reported when several files fail. *)
Fixpoint toProtocolEdits (s : Snapshot) (changes : list (string * list Edit))
    (res : gmap string (list TextEdit)) : result (gmap string (list TextEdit)) :=
  match changes with
  | [] => Ok res
  | (uri, edits) :: rest =>
      fh ← GetFile s uri;
      data ← FileHandle_Read fh;
      protocolEdits ← ToProtocolEdits s uri data edits;
      toProtocolEdits s rest (<[uri := protocolEdits]> res)
  end.

(** The renamer that [renameObj] builds for the references [refs]. *)
Definition newRenamer (obj : Object) (newName : string) (refs : list ReferenceInfo)
    (renameImpls : bool) : renamer :=
  let r := {| renamer_refs := refs;
              renamer_objsToUpdate := ∅;
              renamer_hadConflicts := false;
              renamer_errors := "";
              renamer_from := Object_Name obj;
              renamer_to := newName;
              renamer_satisfyConstraints := ∅;
              renamer_packages := ∅;
              renamer_msets := ∅;
              renamer_changeMethods := false |} in
  (* A renaming initiated at an interface method indicates the intention
     to rename abstract and concrete methods as needed. *)
  let r := if renameImpls then set_changeMethods r true
           else if refersToInterfaceMethod refs then set_changeMethods r true else r in
  set_packages r
    (foldl (fun m from =>
              <[Package_Types (ReferenceInfo_pkg from) := ReferenceInfo_pkg from]> m)
           (renamer_packages r) refs).

(** [renameObj] returns the text edits that rename an identifier, or an
    error; with an error the map is nil. *)
Definition renameObj (s : Snapshot) (newName : string) (qos : list qualifiedObject)
    (renameImpls : bool) : result (gmap string (list TextEdit)) :=
  match qos with
  | [] => Err (ErrPanic "index out of range")
  | qo :: _ =>
      let obj := qualifiedObject_obj qo in
      _ ← checkRenamable obj;
      if decide (Object_Name obj = newName) then Err (ErrSameName newName)
      else if negb (isValidIdentifier newName) then Err (ErrInvalidIdentifier newName)
      else
        refs ← references s qos true false true;
        let r := newRenamer obj newName refs renameImpls in
        (* Check that the renaming of the identifier is ok. *)
        let r := (checkRefs s r refs).1 in
        if renamer_hadConflicts r then Err (ErrConflicts (renamer_errors r))
        else
          changes ← update s r;
          toProtocolEdits s (map_to_list changes) ∅
  end.

(** [isInterfaceSignature]; on a function without receiver the source
    dereferences the nil receiver. *)
Definition isInterfaceSignature (obj : Object) : result bool :=
  match Object_Kind obj with
  | FuncObj (Some recv) => Ok (Receiver_IsInterface recv)
  | FuncObj None => Err (ErrPanic "nil pointer dereference")
  | _ => Ok false
  end.

(** ** Package rename *)

(** The state that the package rename threads through its loops: the seen
    set and the edits, both Go maps updated in place. *)
Abbreviation RenameState := (gmap seenPackageKey bool * gmap string (list TextEdit))%type
  (only parsing).

Definition newTextEdit (rng : Range) (newText : string) : TextEdit :=
  {| TextEdit_Range := rng; TextEdit_NewText := newText; TextEdit_AnnotationID := "" |}.

(** The loop of [renamePackageClause] over the files of the package. *)
Fixpoint renamePackageClause_files (s : Snapshot) (m : Metadata) (newName : string)
    (files : list ParsedGoFile) (st : RenameState) : result RenameState :=
  match files with
  | [] => Ok st
  | f :: rest =>
      let '(seen, edits) := st in
      let '(wasSeen, seen) :=
        seenPackageRename_add seen (ParsedGoFile_URI f) (Metadata_PackagePath m) in
      if wasSeen then renamePackageClause_files s m newName rest (seen, edits)
      else
        match File_Name (ParsedGoFile_File f) with
        | None => renamePackageClause_files s m newName rest (seen, edits)
        | Some name =>
            rng ← MappedRange_Range s
                    (NewMappedRange (ParsedGoFile_Tok f) (ParsedGoFile_Mapper f)
                       (Ident_Pos name) (Ident_End name));
            renamePackageClause_files s m newName rest
              (seen, appendAt edits (ParsedGoFile_URI f) [newTextEdit rng newName])
        end
  end.

(** [renamePackageClause] computes edits renaming the package clause of
    files in the package described by the given metadata, to newName. *)
Definition renamePackageClause (s : Snapshot) (m : Metadata) (newName : string)
    (st : RenameState) : result RenameState :=
  pkg ← WorkspacePackageByID s (Metadata_PackageID m);
  renamePackageClause_files s m newName (Package_CompiledGoFiles pkg) st.

(** The probing loop of [renameImports]:
    [for fileScope.Lookup(localName) != nil || pkgScope.Lookup(localName) != nil
       { try++; localName = fmt.Sprintf("%s%d", newName, try) }].
    The scopes are finite, so the loop ends; [fuel] bounds its iterations
    (see [freshLocalName_free]). *)
Fixpoint freshLocalName_go (fuel : nat) (fileScope pkgScope : gset string)
    (newName localName : string) (try : nat) : string :=
  if bool_decide (localName ∈ fileScope) || bool_decide (localName ∈ pkgScope)
  then match fuel with
       | O => localName
       | S fuel =>
           freshLocalName_go fuel fileScope pkgScope newName
             (newName +:+ pretty (S try)) (S try)
       end
  else localName.

Definition freshLocalName (fileScope pkgScope : gset string) (newName : string) : string :=
  freshLocalName_go (size (fileScope ∪ pkgScope)) fileScope pkgScope newName newName 0.

(** [sort.Slice(v, less)], as the insertion sort that Go runs on short
    slices: each element in turn moves left past the elements it is less
    than.  The sorted prefix is kept in reverse. *)
Fixpoint sortSlice_insert {A} (less : A -> A -> bool) (x : A) (revPrefix : list A) : list A :=
  match revPrefix with
  | [] => [x]
  | y :: l => if less x y then y :: sortSlice_insert less x l else x :: y :: l
  end.

Definition sortSlice {A} (less : A -> A -> bool) (v : list A) : list A :=
  rev (foldl (fun acc x => sortSlice_insert less x acc) [] v).

Definition lessRange (a b : TextEdit) : bool :=
  bool_decide (CompareRange (TextEdit_Range a) (TextEdit_Range b) < 0).

(** The body of the loop of [renameImports] over the imports of a file. *)
Definition renameImport (s : Snapshot) (m : Metadata) (newPath newName : string)
    (dep : Package) (f : ParsedGoFile) (edits : gmap string (list TextEdit))
    (imp : ImportSpec) : result (gmap string (list TextEdit)) :=
  if decide (strconv_Unquote (ImportSpec_PathValue imp) ≠ Metadata_PackagePath m)
  then Ok edits   (* not the import we're looking for *)
  else
    (* Create text edit for the import path (string literal). *)
    rng ← MappedRange_Range s
            (NewMappedRange (ParsedGoFile_Tok f) (ParsedGoFile_Mapper f)
               (ImportSpec_Path_Pos imp) (ImportSpec_Path_End imp));
    let edits := appendAt edits (ParsedGoFile_URI f) [newTextEdit rng (strconv_Quote newPath)] in
    (* If the package name of an import has not changed or if its import
       path already has a local package name, then we don't need to update
       the local package name. *)
    if bool_decide (newName = Metadata_PackageName m) || bool_decide (is_Some (ImportSpec_Name imp))
    then Ok edits
    else
      (* Rename the types.PkgName locally within this file. *)
      match Package_Implicits dep !! ImportSpec_id imp with
      | Some pkgname =>
          match Object_Kind pkgname with
          | PkgNameObj _ =>
              let qos := [{| qualifiedObject_obj := pkgname;
                             qualifiedObject_pkg := dep;
                             qualifiedObject_sourcePkg := None;
                             qualifiedObject_node := None |}] in
              let pkgScope := Package_Scope dep in
              match Package_Scopes dep !! File_id (ParsedGoFile_File f) with
              | Some fileScope =>
                  (* Keep trying with fresh names until one succeeds. *)
                  let localName := freshLocalName fileScope pkgScope newName in
                  changes ← renameObj s localName qos false;
                  (* If the chosen local package name matches the package's
                     new name, delete the change that would have inserted
                     an explicit local name, which is always the lexically
                     first change. *)
                  changes ←
                    (if decide (localName = newName)
                     then match sortSlice lessRange (editsAt changes (ParsedGoFile_URI f)) with
                          | _ :: v1 => Ok (<[ParsedGoFile_URI f := v1]> changes)
                          | [] => Err (ErrPanic "slice bounds out of range")
                          end
                     else Ok changes);
                  Ok (appendAll edits changes)
              | None => Err (ErrPanic "nil pointer dereference")
              end
          | _ => Err (ErrPanic "interface conversion: not *types.PkgName")
          end
      | None => Err (ErrPanic "interface conversion: not *types.PkgName")
      end.

Fixpoint renameImports_imports (s : Snapshot) (m : Metadata) (newPath newName : string)
    (dep : Package) (f : ParsedGoFile) (imports : list ImportSpec)
    (edits : gmap string (list TextEdit)) : result (gmap string (list TextEdit)) :=
  match imports with
  | [] => Ok edits
  | imp :: rest =>
      edits ← renameImport s m newPath newName dep f edits imp;
      renameImports_imports s m newPath newName dep f rest edits
  end.

(** The loop of [renameImports] over the files of a reverse dependency. *)
Fixpoint renameImports_files (s : Snapshot) (m : Metadata) (newPath newName : string)
    (dep : Package) (files : list ParsedGoFile) (st : RenameState) : result RenameState :=
  match files with
  | [] => Ok st
  | f :: rest =>
      let '(seen, edits) := st in
      let '(wasSeen, seen) :=
        seenPackageRename_add seen (ParsedGoFile_URI f) (Metadata_PackagePath m) in
      if wasSeen then renameImports_files s m newPath newName dep rest (seen, edits)
      else
        edits ← renameImports_imports s m newPath newName dep f
                  (File_Imports (ParsedGoFile_File f)) edits;
        renameImports_files s m newPath newName dep rest (seen, edits)
  end.

(** The loop of [renameImports] over the reverse dependencies. *)
Fixpoint renameImports_deps (s : Snapshot) (m : Metadata) (newPath newName : string)
    (rdeps : list Package) (st : RenameState) : result RenameState :=
  match rdeps with
  | [] => Ok st
  | dep :: rest =>
      (* Subtle: don't perform renaming in this package if it is not fully
         parsed. *)
      if decide (Package_ParseMode dep ≠ ParseFull)
      then renameImports_deps s m newPath newName rest st
      else
        st ← renameImports_files s m newPath newName dep (Package_CompiledGoFiles dep) st;
        renameImports_deps s m newPath newName rest st
  end.

(** [renameImports] computes the set of edits to imports resulting from
    renaming the package described by the given metadata, to a package with
    import path newPath and name newName. *)
Definition renameImports (s : Snapshot) (m : Metadata) (newPath newName : string)
    (st : RenameState) : result RenameState :=
  rdeps ← GetReverseDependencies s (Metadata_PackageID m);
  renameImports_deps s m newPath newName rdeps st.

(** The body of the loop of [renamePackage] over all metadata. *)
Definition renamePackage_step (s : Snapshot) (modulePath oldPath newName : string)
    (st : RenameState) (m : Metadata) : result RenameState :=
  let newPathPrefix := path_Join (path_Dir oldPath) newName in
  (* Special case: x_test packages for the renamed package will not have
     the package path as a dir prefix, but still need their package clauses
     renamed. *)
  if decide (Metadata_PackagePath m = oldPath +:+ "_test")
  then renamePackageClause s m (newName +:+ "_test") st
  else if negb (strings_HasPrefix (Metadata_PackagePath m +:+ "/") (oldPath +:+ "/"))
  then Ok st   (* not affected by the package renaming *)
  else
    match Metadata_ModuleInfo m with
    | None => Err (ErrMissingModule (Metadata_PackagePath m))
    | Some mi =>
        if decide (modulePath ≠ ModuleInfo_Path mi)
        then Ok st   (* nested package and renaming package have different module paths *)
        else
          (* Renaming a package consists of changing its import path and
             package name. *)
          let suffix := strings_TrimPrefix (Metadata_PackagePath m) oldPath in
          let newPath := newPathPrefix +:+ suffix in
          if decide (Metadata_PackagePath m = oldPath)
          then
            st ← renamePackageClause s m newName st;
            renameImports s m newPath newName st
          else renameImports s m newPath (Metadata_PackageName m) st
    end.

Fixpoint renamePackage_loop (s : Snapshot) (modulePath oldPath newName : string)
    (allMetadata : list Metadata) (st : RenameState) : result RenameState :=
  match allMetadata with
  | [] => Ok st
  | m :: rest =>
      st ← renamePackage_step s modulePath oldPath newName st m;
      renamePackage_loop s modulePath oldPath newName rest st
  end.

(** [renamePackage] computes all workspace edits required to rename the
    package described by the given metadata, to newName, by renaming its
    package directory. *)
Definition renamePackage (s : Snapshot) (modulePath oldPath newName : string)
    (allMetadata : list Metadata) : result (gmap string (list TextEdit)) :=
  if decide (modulePath = oldPath) then Err (ErrModulePathIsPackagePath modulePath)
  else
    st ← renamePackage_loop s modulePath oldPath newName allMetadata (∅, ∅);
    Ok st.2.

(** ** The entry points *)

(** [protocol.ChangeAnnotation] and [OptionalEdits]. *)
Record ChangeAnnotation : Type := {
  ChangeAnnotation_Label : string;
  ChangeAnnotation_NeedsConfirmation : bool;
  ChangeAnnotation_Description : string
}.

Record OptionalEdits : Type := {
  OptionalEdits_Edits : gmap string (list TextEdit);
  OptionalEdits_Annotations : gmap string ChangeAnnotation
}.

(** The four results of [Rename]: the edits (possibly nil), the optional
    edits (possibly nil), whether a package is renamed, and the error
    (possibly nil). *)
Record RenameResult : Type := {
  RenameResult_edits : option (gmap string (list TextEdit));
  RenameResult_optional : option OptionalEdits;
  RenameResult_isPackageRename : bool;
  RenameResult_err : option error
}.

(** [return nil, nil, b, err]. *)
Definition renameFails (b : bool) (e : error) : RenameResult :=
  {| RenameResult_edits := None; RenameResult_optional := None;
     RenameResult_isPackageRename := b; RenameResult_err := Some e |}.

Definition setAnnotationID (id : string) (te : TextEdit) : TextEdit :=
  {| TextEdit_Range := TextEdit_Range te; TextEdit_NewText := TextEdit_NewText te;
     TextEdit_AnnotationID := id |}.

(** The inner loops of the fan-out of [Rename]: every edit of [subResult]
    is annotated and appended to [annotatedEdits] under its file. *)
Definition annotateAll (id : string) (annotatedEdits subResult : gmap string (list TextEdit))
  : gmap string (list TextEdit) :=
  merge (fun old new =>
           match new with
           | Some (te :: res) => Some (default [] old ++ (setAnnotationID id <$> te :: res))
           | _ => old
           end) annotatedEdits subResult.

(** The description of an implementation: its name, qualified by the type
    of the receiver when the object is a function. *)
Definition implementationName (obj : Object) : result string :=
  match Object_Kind obj with
  | FuncObj (Some recv) => Ok (Receiver_TypeString recv +:+ "." +:+ Object_Name obj)
  | FuncObj None => Err (ErrPanic "nil pointer dereference")
  | _ => Ok (Object_Name obj)
  end.

(** The loop of [Rename] over the implementations of an interface method. *)
Fixpoint renameImplementations (s : Snapshot) (newName : string) (implID : nat)
    (impls : list qualifiedObject) (acc : OptionalEdits) : result OptionalEdits :=
  match impls with
  | [] => Ok acc
  | impl :: rest =>
      subResult ← renameObj s newName [impl] true;
      name ← implementationName (qualifiedObject_obj impl);
      renameImplementations s newName (S implID) rest
        {| OptionalEdits_Edits :=
             annotateAll (pretty implID) (OptionalEdits_Edits acc) subResult;
           OptionalEdits_Annotations :=
             <[pretty implID :=
                 {| ChangeAnnotation_Label := "Rename implementation #" +:+ pretty (S implID);
                    ChangeAnnotation_NeedsConfirmation := true;
                    ChangeAnnotation_Description := name |}]>
               (OptionalEdits_Annotations acc) |}
  end.

(** [Rename] returns a map of TextEdits for each file modified when
    renaming a given identifier within a package and a boolean value of
    true for renaming package and false otherwise. *)
Definition Rename (s : Snapshot) (f : FileHandle) (pp : Position) (newName : string)
  : RenameResult :=
  match ParseGo s f with
  | Err e => renameFails false e
  | Ok pgf =>
  match isInPackageName s f pgf pp with
  | Err e => renameFails false e
  | Ok true =>
      if negb (isValidIdentifier newName)
      then renameFails true (ErrNotValidIdentifier newName)
      else
        match MetadataForFile s (FileHandle_URI f) with
        | Err e => renameFails true e
        | Ok [] => renameFails true (ErrNoPackagesFound (FileHandle_URI f))
        | Ok (meta :: _) =>
            (* We need metadata for the relevant package and module paths. *)
            let oldPath := Metadata_PackagePath meta in
            match Metadata_ModuleInfo meta with
            | None => renameFails true (ErrMissingModule (Metadata_PackagePath meta))
            | Some mi =>
                let modulePath := ModuleInfo_Path mi in
                if strings_HasSuffix newName "_test"
                then renameFails true ErrRenameToTest
                else
                  match AllValidMetadata s with
                  | Err e => renameFails true e
                  | Ok metadata =>
                      match renamePackage s modulePath oldPath newName metadata with
                      | Err e => renameFails true e
                      | Ok renamingEdits =>
                          {| RenameResult_edits := Some renamingEdits;
                             RenameResult_optional := None;
                             RenameResult_isPackageRename := true;
                             RenameResult_err := None |}
                      end
                  end
            end
        end
  | Ok false =>
      match qualifiedObjsAtProtocolPos s (FileHandle_URI f) pp with
      | Err e => renameFails false e
      | Ok qos =>
      match renameObj s newName qos false with
      | Err e => renameFails false e
      | Ok res =>
          (* If renaming interface signature, then use optional annotation
             for interface implementations edits. *)
          match isInterfaceSignature <$> (qualifiedObject_obj <$> head qos) with
          | None => renameFails false (ErrPanic "index out of range")
          | Some (Err e) => renameFails false e
          | Some (Ok true) =>
              match implementations s f pp with
              | Err e => renameFails false e
              | Ok impls =>
                  match renameImplementations s newName 0 impls
                          {| OptionalEdits_Edits := ∅; OptionalEdits_Annotations := ∅ |} with
                  | Err e => renameFails false e
                  | Ok optional =>
                      {| RenameResult_edits := Some res;
                         RenameResult_optional := Some optional;
                         RenameResult_isPackageRename := false;
                         RenameResult_err := None |}
                  end
              end
          | Some (Ok false) =>
              {| RenameResult_edits := Some res;
                 RenameResult_optional := None;
                 RenameResult_isPackageRename := false;
                 RenameResult_err := None |}
          end
      end
      end
  end
  end.

(** [PrepareItem]. *)
Record PrepareItem : Type := { PrepareItem_Range : Range; PrepareItem_Text : string }.

(** [computePrepareRenameResp]. *)
Definition computePrepareRenameResp (s : Snapshot) (pkg : Package) (node : Node)
    (text : string) : result PrepareItem :=
  mr ← posToMappedRange s pkg (Node_Pos node) (Node_End node);
  rng ← MappedRange_Range s mr;
  let rng :=
    match Node_kind node with
    | ImportSpecNode _ =>
        (* We're not really renaming the import path. *)
        {| Range_Start := Range_Start rng; Range_End := Range_Start rng |}
    | _ => rng
    end in
  Ok {| PrepareItem_Range := rng; PrepareItem_Text := text |}.

(** The three results of [PrepareRename]: the item (possibly nil), the
    error to show to the user (possibly nil), and the error (possibly nil). *)
Record PrepareResult : Type := {
  PrepareResult_item : option PrepareItem;
  PrepareResult_usererr : option error;
  PrepareResult_err : option error
}.

(** [return nil, err, err] and [return nil, nil, err]. *)
Definition prepareFails (e : error) : PrepareResult :=
  {| PrepareResult_item := None; PrepareResult_usererr := Some e; PrepareResult_err := Some e |}.
Definition prepareFailsQuietly (e : error) : PrepareResult :=
  {| PrepareResult_item := None; PrepareResult_usererr := None; PrepareResult_err := Some e |}.
Definition prepareOf (r : result PrepareItem) : PrepareResult :=
  match r with
  | Err e => prepareFailsQuietly e
  | Ok item =>
      {| PrepareResult_item := Some item; PrepareResult_usererr := None;
         PrepareResult_err := None |}
  end.

(** [PrepareRename] searches for a valid renaming at position pp. *)
Definition PrepareRename (s : Snapshot) (f : FileHandle) (pp : Position) : PrepareResult :=
  match ParseGo s f with
  | Err e => prepareFails e
  | Ok pgf =>
  match isInPackageName s f pgf pp with
  | Err e => prepareFails e
  | Ok true =>
      let fileRenameSupported :=
        existsb (fun op => bool_decide (op = RenameOp)) (SupportedResourceOperations s) in
      if negb fileRenameSupported then prepareFails ErrNoFileRename
      else
        match MetadataForFile s (FileHandle_URI f) with
        | Err e => prepareFails e
        | Ok [] => prepareFails (ErrNoPackagesFound (FileHandle_URI f))
        | Ok (meta :: _) =>
            if decide (Metadata_PackageName meta = "main") then prepareFails ErrRenameMain
            else if strings_HasSuffix (Metadata_PackageName meta) "_test"
            then prepareFails ErrRenameXTest
            else
              match Metadata_ModuleInfo meta with
              | None => prepareFails (ErrPrepareMissingModule (Metadata_PackagePath meta))
              | Some mi =>
                  if decide (ModuleInfo_Path mi = Metadata_PackagePath meta)
                  then prepareFails
                         (ErrPreparePathIsModule (Metadata_PackagePath meta) (ModuleInfo_Path mi))
                  else
                    match WorkspacePackageByID s (Metadata_PackageID meta) with
                    | Err e => prepareFails (ErrBuildingPackage e)
                    | Ok pkg =>
                        match File_Name (ParsedGoFile_File pgf) with
                        | None => prepareFailsQuietly (ErrPanic "nil pointer dereference")
                        | Some name =>
                            prepareOf
                              (computePrepareRenameResp s pkg (Node_of_Ident name)
                                 (Package_Name pkg))
                        end
                    end
              end
        end
  | Ok false =>
      match qualifiedObjsAtProtocolPos s (FileHandle_URI f) pp with
      | Err e => prepareFailsQuietly e
      | Ok [] => prepareFailsQuietly (ErrPanic "index out of range")
      | Ok (qo :: _) =>
          match checkRenamable (qualifiedObject_obj qo) with
          | Err e => prepareFailsQuietly e
          | Ok _ =>
              match qualifiedObject_sourcePkg qo, qualifiedObject_node qo with
              | Some pkg, Some node =>
                  prepareOf
                    (computePrepareRenameResp s pkg node (Object_Name (qualifiedObject_obj qo)))
              | _, _ => prepareFailsQuietly (ErrPanic "nil pointer dereference")
              end
          end
      end
  end
  end.

End Rename.

(** ** A small workspace

    Module [a] with the package [a/old] (file [old.go]) and the package
    [a/b] (file [b.go]), which imports [a/old] without a local name and
    uses it once:
<<
    package b

    import "a/old"

    var _ = old.X
>>
    The workspace is parametric in the name of the package clause of
    [old.go] and in whether [a/b] is there at all. *)
Module World.

Definition quote : string := String "034"%char EmptyString.

(** A library for clean, relative slash-separated paths and for literals
    without escapes. *)
Fixpoint dropThroughSlash (s : string) : option string :=
  match s with
  | EmptyString => None
  | String a t => if decide (a = "/"%char) then Some t else dropThroughSlash t
  end.

Definition dir (p : string) : string :=
  match dropThroughSlash (String.rev p) with
  | Some d => String.rev d
  | None => "."
  end.

Definition unquote (lit : string) : string :=
  match stripPrefix quote lit with
  | Some t =>
      match stripPrefix quote (String.rev t) with
      | Some u => String.rev u
      | None => ""
      end
  | None => ""
  end.

Definition comparePosition (a b : Position) : Z :=
  if decide (Position_Line a < Position_Line b) then -1
  else if decide (Position_Line a > Position_Line b) then 1
  else if decide (Position_Character a < Position_Character b) then -1
  else if decide (Position_Character a > Position_Character b) then 1
  else 0.

#[export] Instance library : Library := {|
  isValidIdentifier name :=
    allWordBytes name
    && match name with
       | EmptyString => false
       | String a _ => negb ((48 <=? N_of_ascii a) && (N_of_ascii a <=? 57))%N
       end;
  isDirective text := strings_HasPrefix text "//go:";
  CompareRange a b :=
    let c := comparePosition (Range_Start a) (Range_Start b) in
    if decide (c ≠ 0) then c else comparePosition (Range_End a) (Range_End b);
  span_URIFromPath p := "file://" +:+ p;
  path_Join a b := a +:+ "/" +:+ b;
  path_Dir := dir;
  strconv_Quote lit := quote +:+ lit +:+ quote;
  strconv_Unquote := unquote
|}.

Definition oldURI : string := "file:///a/old/old.go".
Definition bURI : string := "file:///a/b/b.go".

Definition newline : string := String "010"%char EmptyString.

Definition oldContent (name : string) : string := "package " +:+ name +:+ newline.
Definition bContent : string :=
  "package b" +:+ newline +:+ newline +:+
  "import " +:+ quote +:+ "a/old" +:+ quote +:+ newline +:+ newline +:+
  "var _ = old.X" +:+ newline.

(** [old.go] is the file 1 of the file set, at base 1; [b.go] is the
    file 2, at base 100. *)
Definition base (tok : nat) : Z := if decide (tok = 1%nat) then 1 else 100.
Definition tokOf (pos : Z) : nat := if decide (pos < 100) then 1%nat else 2%nat.
Definition uriOf (tok : nat) : string := if decide (tok = 1%nat) then oldURI else bURI.

(** The position of a byte offset in a text: line and column from 0. *)
Fixpoint positionOf (content : string) (offset : nat) (line col : Z) : Position :=
  match offset, content with
  | S n, String a t =>
      if decide (a = "010"%char) then positionOf t n (line + 1) 0
      else positionOf t n line (col + 1)
  | _, _ => {| Position_Line := line; Position_Character := col |}
  end.

Definition pointOf (offset : Z) : Point :=
  {| Point_Line := 0; Point_Column := 0; Point_Offset := offset |}.

Section Workspace.
Variable name : string.       (* the name in the package clause of old.go *)
Variable withB : bool.        (* is the package a/b in the workspace? *)

Definition contentOf (tok : nat) : string :=
  if decide (tok = 1%nat) then oldContent name else bContent.

Definition oldFile : ParsedGoFile :=
  {| ParsedGoFile_URI := oldURI;
     ParsedGoFile_File :=
       {| File_id := 1; File_Name := Some {| Ident_NamePos := 9; Ident_Name := name |};
          File_Imports := []; File_Comments := [] |};
     ParsedGoFile_Tok := 1; ParsedGoFile_Mapper := 1 |}.

Definition imp : ImportSpec :=
  {| ImportSpec_id := 10; ImportSpec_Name := None;
     ImportSpec_PathPos := 118; ImportSpec_PathValue := quote +:+ "a/old" +:+ quote |}.

Definition bFile : ParsedGoFile :=
  {| ParsedGoFile_URI := bURI;
     ParsedGoFile_File :=
       {| File_id := 2; File_Name := Some {| Ident_NamePos := 108; Ident_Name := "b" |};
          File_Imports := [imp]; File_Comments := [] |};
     ParsedGoFile_Tok := 2; ParsedGoFile_Mapper := 2 |}.

(** The implicit [PkgName] of the import in [b.go]. *)
Definition pkgname : Object :=
  {| Object_id := 100; Object_Name := name; Object_Kind := PkgNameObj name;
     Object_Pkg := 2; Object_Pos := 118 |}.

Definition pkgOld : Package :=
  {| Package_ID := "a/old"; Package_Name := name; Package_ParseMode := ParseFull;
     Package_CompiledGoFiles := [oldFile]; Package_Types := 1;
     Package_Scope := {["X"]}; Package_Implicits := ∅;
     Package_Scopes := {[1%nat := ∅]} |}.

Definition pkgB : Package :=
  {| Package_ID := "a/b"; Package_Name := "b"; Package_ParseMode := ParseFull;
     Package_CompiledGoFiles := [bFile]; Package_Types := 2;
     Package_Scope := ∅; Package_Implicits := {[10%nat := pkgname]};
     Package_Scopes := {[2%nat := {[name]}]} |}.

Definition metaOld : Metadata :=
  {| Metadata_PackageID := "a/old"; Metadata_PackageName := name;
     Metadata_PackagePath := "a/old";
     Metadata_ModuleInfo := Some {| ModuleInfo_Path := "a" |} |}.

Definition metaB : Metadata :=
  {| Metadata_PackageID := "a/b"; Metadata_PackageName := "b";
     Metadata_PackagePath := "a/b";
     Metadata_ModuleInfo := Some {| ModuleInfo_Path := "a" |} |}.

(** The references to [pkgname]: the import spec, which declares it, and
    the use in [old.X]. *)
Definition declRef : ReferenceInfo :=
  {| ReferenceInfo_MappedRange := NewMappedRange 2 2 118 125;
     ReferenceInfo_ident := None;
     ReferenceInfo_obj := pkgname;
     ReferenceInfo_pkg := pkgB;
     ReferenceInfo_isDeclaration := true |}.

Definition useRef : ReferenceInfo :=
  {| ReferenceInfo_MappedRange := NewMappedRange 2 2 135 (135 + len name);
     ReferenceInfo_ident := Some {| Ident_NamePos := 135; Ident_Name := name |};
     ReferenceInfo_obj := pkgname;
     ReferenceInfo_pkg := pkgB;
     ReferenceInfo_isDeclaration := false |}.

Definition pkgnameQO : qualifiedObject :=
  {| qualifiedObject_obj := pkgname; qualifiedObject_pkg := pkgB;
     qualifiedObject_sourcePkg := Some pkgB;
     qualifiedObject_node :=
       Some {| Node_Pos := 118; Node_End := 125; Node_kind := ImportSpecNode imp |} |}.

Definition positionAt (tok : nat) (pos : Z) : Position :=
  positionOf (contentOf tok) (Z.to_nat (pos - base tok)) 0 0.

(** The conflict checker of the workspace: the name [clash] is taken
    wherever [pkgname] is visible. *)
Definition checker (r : renamer) (obj : Object) : renamer :=
  if decide (renamer_to r = "clash")
  then {| renamer_refs := renamer_refs r;
          renamer_objsToUpdate := <[Object_id obj := true]> (renamer_objsToUpdate r);
          renamer_hadConflicts := true;
          renamer_errors := "renaming this imported package conflicts with clash";
          renamer_from := renamer_from r;
          renamer_to := renamer_to r;
          renamer_satisfyConstraints := renamer_satisfyConstraints r;
          renamer_packages := renamer_packages r;
          renamer_msets := renamer_msets r;
          renamer_changeMethods := renamer_changeMethods r |}
  else {| renamer_refs := renamer_refs r;
          renamer_objsToUpdate := <[Object_id obj := true]> (renamer_objsToUpdate r);
          renamer_hadConflicts := renamer_hadConflicts r;
          renamer_errors := renamer_errors r;
          renamer_from := renamer_from r;
          renamer_to := renamer_to r;
          renamer_satisfyConstraints := renamer_satisfyConstraints r;
          renamer_packages := renamer_packages r;
          renamer_msets := renamer_msets r;
          renamer_changeMethods := renamer_changeMethods r |}.

Definition snapshot : Snapshot :=
  {| ParseGo fh := Ok (if decide (FileHandle_URI fh = oldURI) then oldFile else bFile);
     SupportedResourceOperations := [CreateOp; RenameOp; DeleteOp];
     MetadataForFile uri := Ok (if decide (uri = oldURI) then [metaOld] else [metaB]);
     WorkspacePackageByID id := Ok (if decide (id = "a/old") then pkgOld else pkgB);
     AllValidMetadata := Ok (if withB then [metaOld; metaB] else [metaOld]);
     GetReverseDependencies id :=
       Ok (if decide (id = "a/old") then (if withB then [pkgB] else []) else []);
     GetFile uri :=
       Ok {| FileHandle_URI := uri;
             FileHandle_Read :=
               Ok (if decide (uri = oldURI) then oldContent name else bContent) |};
     FileSet_File := tokOf;
     tokFile_Name tok := if decide (tok = 1%nat) then "/a/old/old.go" else "/a/b/b.go";
     tokFile_Line tok pos := Position_Line (positionAt tok pos) + 1;
     tokFile_LineStart tok line := base tok;
     safetoken_Offset tok pos := pos - base tok;
     Range_Span tok start end_ :=
       Ok {| Span_URI := uriOf tok; Span_Start := pointOf (start - base tok);
             Span_End := pointOf (end_ - base tok) |};
     MappedRange_Range mr :=
       Ok {| Range_Start := positionAt (MappedRange_Tok mr) (MappedRange_Start mr);
             Range_End := positionAt (MappedRange_Tok mr) (MappedRange_End mr) |};
     MappedRange_Span mr :=
       Ok {| Span_URI := uriOf (MappedRange_Tok mr);
             Span_Start := pointOf (MappedRange_Start mr - base (MappedRange_Tok mr));
             Span_End := pointOf (MappedRange_End mr - base (MappedRange_Tok mr)) |};
     isInPackageName fh pgf pp :=
       Ok (bool_decide (Position_Line pp = 0 ∧ 8 <= Position_Character pp));
     qualifiedObjsAtProtocolPos uri pp :=
       if decide (uri = bURI ∧ Position_Line pp = 4 ∧ 8 <= Position_Character pp <= 11)
       then Ok [pkgnameQO] else Err (ErrCollaborator "no object found");
     references qos _ _ _ :=
       match qos with
       | qo :: _ =>
           Ok (if decide (Object_id (qualifiedObject_obj qo) = 100%nat)
               then [declRef; useRef] else [])
       | [] => Ok []
       end;
     implementations _ _ := Ok [];
     posToMappedRange pkg start end_ :=
       Ok (NewMappedRange (tokOf start) (tokOf start) start end_);
     pathEnclosingInterval pkg start end_ :=
       if decide (118 <= start ∧ end_ <= 125)
       then (2%nat,
             [ {| Node_Pos := 118; Node_End := 125; Node_kind := OtherNode |};
               {| Node_Pos := 118; Node_End := 125; Node_kind := ImportSpecNode imp |};
               {| Node_Pos := 111; Node_End := 125; Node_kind := GenDecl None |};
               {| Node_Pos := 100; Node_End := 141;
                  Node_kind := FileNode (ParsedGoFile_File bFile) |} ])
       else (tokOf start, []);
     ToProtocolEdits uri data edits :=
       Ok ((fun e : Edit =>
              newTextEdit
                {| Range_Start := positionOf data (Z.to_nat (Edit_Start e)) 0 0;
                   Range_End := positionOf data (Z.to_nat (Edit_End e)) 0 0 |}
                (Edit_New e)) <$> edits);
     check := checker |}.

End Workspace.
End World.

(** ** Vocabulary of the properties *)

(** The seen set reached from [make(seenPackageRename)] by a sequence of
    calls of [add], the results of which are dropped. *)
Definition seenPackageRename_addAll (keys : list seenPackageKey) : gmap seenPackageKey bool :=
  foldl (fun s key => (seenPackageRename_add s key.1 key.2).2) ∅ keys.

(** The library of the workspace [World] is the one used wherever no other
    library is in scope. *)
#[global] Existing Instance World.library | 100.

(** The file handles and the positions used with the workspace [World]:
    the name in the package clause of [old.go], and [old] in [old.X]. *)
Definition fhOld (name : string) : FileHandle :=
  {| FileHandle_URI := World.oldURI; FileHandle_Read := Ok (World.oldContent name) |}.
Definition fhB : FileHandle :=
  {| FileHandle_URI := World.bURI; FileHandle_Read := Ok World.bContent |}.
Definition atPackageName : Position := {| Position_Line := 0; Position_Character := 8 |}.
Definition atUse : Position := {| Position_Line := 4; Position_Character := 8 |}.

(** The renamer after [check] has run on every reference of a list, one
    after the other. *)
Definition checkedAll (s : Snapshot) (r : renamer) (refs : list ReferenceInfo) : renamer :=
  foldl (fun r ref => check s r (ReferenceInfo_obj ref)) r refs.




(** What [update] does for a reference whose span it meets for the first
    time: it appends the edit of the reference itself, [referenceEdit], and
    after it the edits in the doc comment, if the reference has one. *)
Definition referenceEdit `{Library} (s : Snapshot) (r : renamer) (ref : ReferenceInfo)
    (refSpan : Span) : result Edit :=
  match Object_Kind (ReferenceInfo_obj ref), ReferenceInfo_isDeclaration ref with
  | PkgNameObj imported, true => updatePkgName s r (ReferenceInfo_obj ref) imported
  | _, _ => Ok (identEdit r refSpan)
  end.

Definition referenceDocEdits `{Library} (s : Snapshot) (r : renamer) (ref : ReferenceInfo)
    (edits : gmap string (list Edit)) : result (gmap string (list Edit)) :=
  match Object_Kind (ReferenceInfo_obj ref), ReferenceInfo_isDeclaration ref,
        ReferenceInfo_ident ref with
  | PkgNameObj _, true, _ => Ok edits
  | _, true, Some ident =>
      doc ← docComment s r (ReferenceInfo_pkg ref) ident;
      Ok (match doc with Some doc => docEdits s r doc edits | None => edits end)
  | _, _, _ => Ok edits
  end.

Definition editReference `{Library} (s : Snapshot) (r : renamer)
    (edits : gmap string (list Edit)) (ref : ReferenceInfo * Span)
  : result (gmap string (list Edit)) :=
  edit ← referenceEdit s r ref.1 ref.2;
  referenceDocEdits s r ref.1 (appendAt edits (Span_URI ref.2) [edit]).

Fixpoint editReferences `{Library} (s : Snapshot) (r : renamer)
    (edits : gmap string (list Edit)) (refs : list (ReferenceInfo * Span))
  : result (gmap string (list Edit)) :=
  match refs with
  | [] => Ok edits
  | ref :: rest => edits ← editReference s r edits ref; editReferences s r edits rest
  end.

(** The names that the probing loop of [renameImports] tries, in order:
    the new name, then the new name followed by 1, 2, ... *)
Definition localNameCandidate (newName : string) (try : nat) : string :=
  match try with
  | O => newName
  | S _ => newName +:+ pretty try
  end.

(** A snapshot that answers as [base] does, except that the objects at
    every position are [qos], the references of objects are given by
    [refs], and the implementations at every position are [impls]. *)
Definition snapshotWith (base : Snapshot) (qos : result (list qualifiedObject))
    (refs : list qualifiedObject -> result (list ReferenceInfo))
    (impls : result (list qualifiedObject)) : Snapshot :=
  {| ParseGo := ParseGo base;
     SupportedResourceOperations := SupportedResourceOperations base;
     MetadataForFile := MetadataForFile base;
     WorkspacePackageByID := WorkspacePackageByID base;
     AllValidMetadata := AllValidMetadata base;
     GetReverseDependencies := GetReverseDependencies base;
     GetFile := GetFile base;
     FileSet_File := FileSet_File base;
     tokFile_Name := tokFile_Name base;
     tokFile_Line := tokFile_Line base;
     tokFile_LineStart := tokFile_LineStart base;
     safetoken_Offset := safetoken_Offset base;
     Range_Span := Range_Span base;
     MappedRange_Range := MappedRange_Range base;
     MappedRange_Span := MappedRange_Span base;
     isInPackageName := isInPackageName base;
     qualifiedObjsAtProtocolPos _ _ := qos;
     references q _ _ _ := refs q;
     implementations _ _ := impls;
     posToMappedRange := posToMappedRange base;
     pathEnclosingInterval := pathEnclosingInterval base;
     ToProtocolEdits := ToProtocolEdits base;
     check := check base |}.

(** An object of the package [a/b] of the workspace [World], and the
    qualified object that a position on it resolves to. *)
Definition objectOfB (id : nat) (name : string) (kind : ObjectKind) (pos : Z) : Object :=
  {| Object_id := id; Object_Name := name; Object_Kind := kind;
     Object_Pkg := 2; Object_Pos := pos |}.
Definition qualifiedOfB (obj : Object) (len_ : Z) : qualifiedObject :=
  {| qualifiedObject_obj := obj; qualifiedObject_pkg := World.pkgB "old";
     qualifiedObject_sourcePkg := Some (World.pkgB "old");
     qualifiedObject_node :=
       Some {| Node_Pos := Object_Pos obj; Node_End := Object_Pos obj + len_;
               Node_kind := IdentNode |} |}.

(** The edits of [update] are well formed for the new name [to]: no file
    has an empty slice of edits, and every edit writes [to], or [to] and a
    space, or nothing. *)
Definition writesName (to : string) (e : Edit) : Prop :=
  Edit_New e = to \/ Edit_New e = to +:+ " " \/ Edit_New e = "".
Definition editsWellFormed (to : string) (m : gmap string (list Edit)) : Prop :=
  forall uri es, m !! uri = Some es -> es <> [] /\ Forall (writesName to) es.

(** The doc comment that a declaration node carries, and the nodes that
    the loop of [docComment] passes over on its way outwards: identifiers,
    type and value specs without a doc of their own, and short variable
    declarations. *)
Definition declDoc (node : Node) : option CommentGroup :=
  match Node_kind node with
  | FuncDecl doc | FieldNode doc | GenDecl doc | TypeSpec doc | ValueSpec doc => doc
  | _ => None
  end.
Definition passedOver (node : Node) : bool :=
  match Node_kind node with
  | IdentNode | TypeSpec None | ValueSpec None | AssignStmt DEFINE => true
  | _ => false
  end.

(** A snapshot that answers as [base] does, except that the path of
    enclosing nodes of every interval is [nodes], in the file [tokFile]. *)
Definition snapshotAt (base : Snapshot) (tokFile : nat) (nodes : list Node) : Snapshot :=
  {| ParseGo := ParseGo base;
     SupportedResourceOperations := SupportedResourceOperations base;
     MetadataForFile := MetadataForFile base;
     WorkspacePackageByID := WorkspacePackageByID base;
     AllValidMetadata := AllValidMetadata base;
     GetReverseDependencies := GetReverseDependencies base;
     GetFile := GetFile base;
     FileSet_File := FileSet_File base;
     tokFile_Name := tokFile_Name base;
     tokFile_Line := tokFile_Line base;
     tokFile_LineStart := tokFile_LineStart base;
     safetoken_Offset := safetoken_Offset base;
     Range_Span := Range_Span base;
     MappedRange_Range := MappedRange_Range base;
     MappedRange_Span := MappedRange_Span base;
     isInPackageName := isInPackageName base;
     qualifiedObjsAtProtocolPos := qualifiedObjsAtProtocolPos base;
     references := references base;
     implementations := implementations base;
     posToMappedRange := posToMappedRange base;
     pathEnclosingInterval _ _ _ := (tokFile, nodes);
     ToProtocolEdits := ToProtocolEdits base;
     check := check base |}.

(** A package that the rename of the package [oldPath] of the module
    [modulePath] does not concern: it is not the x_test package of
    [oldPath], and either its path is neither [oldPath] nor below it, or
    it belongs to another module. *)
Definition unrelatedTo (modulePath oldPath : string) (m : Metadata) : Prop :=
  Metadata_PackagePath m <> oldPath +:+ "_test"
  /\ ((forall suffix, Metadata_PackagePath m = oldPath +:+ suffix ->
         suffix <> "" /\ forall t, suffix <> "/" +:+ t)
      \/ exists mi, Metadata_ModuleInfo m = Some mi /\ ModuleInfo_Path mi <> modulePath).

(** The edits of [m'] extend those of [m]: in every file, the edits of [m]
    come first, in the same order. *)
Definition editsExtend {A} (m m' : gmap string (list A)) : Prop :=
  forall uri, editsAt m uri `prefix_of` editsAt m' uri.

(** The state [st'] of a package rename extends the state [st]: what is
    recorded as seen stays recorded, and the edits extend the edits. *)
Definition stateExtends (st st' : gmap (string * string) bool * gmap string (list TextEdit))
  : Prop :=
  (forall key, seenPackageRename_get st.1 key = true -> seenPackageRename_get st'.1 key = true)
  /\ editsExtend st.2 st'.2.

(** The references of objects of [a/b]: each object has one reference, a
    use of one byte at its position. *)
Definition useOfB (obj : Object) : ReferenceInfo :=
  {| ReferenceInfo_MappedRange := NewMappedRange 2 2 (Object_Pos obj) (Object_Pos obj + 1);
     ReferenceInfo_ident := None;
     ReferenceInfo_obj := obj;
     ReferenceInfo_pkg := World.pkgB "old";
     ReferenceInfo_isDeclaration := false |}.
Definition referencesOfB (qos : list qualifiedObject) : result (list ReferenceInfo) :=
  Ok ((fun qo => useOfB (qualifiedObject_obj qo)) <$> qos).

(** The invariant of the loop of [Rename] over the implementations, before
    the implementation number [n]: the edits carry the numbers of earlier
    implementations, and the annotations are those of the earlier
    implementations, each to be confirmed. *)
Definition annotated (n : nat) (acc : OptionalEdits) : Prop :=
  (forall uri es e,
      OptionalEdits_Edits acc !! uri = Some es -> e ∈ es ->
      exists i, (i < n)%nat /\ TextEdit_AnnotationID e = pretty i)
  /\ (forall key ann,
        OptionalEdits_Annotations acc !! key = Some ann ->
        ChangeAnnotation_NeedsConfirmation ann = true
        /\ exists i, (i < n)%nat /\ key = pretty i
                     /\ ChangeAnnotation_Label ann = "Rename implementation #" +:+ pretty (S i))
  /\ (forall i, (i < n)%nat -> is_Some (OptionalEdits_Annotations acc !! pretty i)).


(** * Properties *)

(** ** The seen set *)

Lemma seenPackageRename_add_get (s : gmap seenPackageKey bool) uri importPath key :
  seenPackageRename_get (seenPackageRename_add s uri importPath).2 key =
    seenPackageRename_get s key || bool_decide (key = (uri, importPath)).
Proof.
  unfold seenPackageRename_add, seenPackageRename_get.
  destruct (s !! (uri, importPath)) as [[]|] eqn:Hseen; simpl;
    case_bool_decide as Hk; subst; rewrite ?Hseen, ?lookup_insert_eq, ?orb_false_r;
    try done; by rewrite lookup_insert_ne.
Qed.

Lemma seenPackageRename_addAll_get keys key :
  seenPackageRename_get (seenPackageRename_addAll keys) key = bool_decide (key ∈ keys).
Proof.
  unfold seenPackageRename_addAll.
  induction keys as [|k keys IH] using rev_ind.
  - cbn [foldl]. unfold seenPackageRename_get. rewrite lookup_empty.
    rewrite bool_decide_eq_false_2 by apply not_elem_of_nil. done.
  - rewrite foldl_snoc, seenPackageRename_add_get, IH. destruct k as [u i]. simpl.
    apply eq_true_iff_eq. rewrite orb_true_iff, !bool_decide_eq_true, elem_of_app.
    rewrite list_elem_of_singleton. done.
Qed.

(** C10.  Starting from the empty seen set, a call of [add] with a pair
    returns [false] exactly when no earlier call had that pair, that is,
    the first call with the pair returns [false] and every later one
    [true]; the call records the pair; and on any seen set whatsoever a
    call of [add] keeps every pair that was recorded. *)
Theorem seenPackageRename_add_first_false_then_true :
  forall (keys : list seenPackageKey) (uri importPath : string),
    (seenPackageRename_add (seenPackageRename_addAll keys) uri importPath).1
      = bool_decide ((uri, importPath) ∈ keys)
    /\ (forall (s : gmap seenPackageKey bool),
          seenPackageRename_get (seenPackageRename_add s uri importPath).2 (uri, importPath)
            = true
          /\ (seenPackageRename_add (seenPackageRename_add s uri importPath).2
                uri importPath).1 = true
          /\ forall key, seenPackageRename_get s key = true ->
               seenPackageRename_get (seenPackageRename_add s uri importPath).2 key = true).
Proof.
  intros keys uri importPath. split.
  - change ((seenPackageRename_add (seenPackageRename_addAll keys) uri importPath).1)
      with (seenPackageRename_get (seenPackageRename_addAll keys) (uri, importPath)).
    apply seenPackageRename_addAll_get.
  - intros s. split; [|split].
    + rewrite seenPackageRename_add_get. rewrite bool_decide_eq_true_2 by done.
      apply orb_true_r.
    + change ((seenPackageRename_add (seenPackageRename_add s uri importPath).2
                 uri importPath).1)
        with (seenPackageRename_get (seenPackageRename_add s uri importPath).2
                (uri, importPath)).
      rewrite seenPackageRename_add_get. rewrite bool_decide_eq_true_2 by done.
      apply orb_true_r.
    + intros key Hkey. rewrite seenPackageRename_add_get, Hkey. done.
Qed.

Lemma seenPackageRename_add_first_false_then_true_witness :
  (seenPackageRename_add (seenPackageRename_addAll []) "b.go" "a/old").1 = false
  /\ (seenPackageRename_add (seenPackageRename_addAll [("b.go", "a/old")])
        "b.go" "a/old").1 = true
  /\ (seenPackageRename_add (seenPackageRename_addAll [("b.go", "a/old")])
        "b.go" "a/old/sub").1 = false.
Proof.
  split; [|split].
  - exact (proj1 (seenPackageRename_add_first_false_then_true [] "b.go" "a/old")).
  - exact (proj1 (seenPackageRename_add_first_false_then_true
                    [("b.go", "a/old")] "b.go" "a/old")).
  - exact (proj1 (seenPackageRename_add_first_false_then_true
                    [("b.go", "a/old")] "b.go" "a/old/sub")).
Defined.

(** ** The entry point [Rename] at the package clause *)

(** C9.  When the position lies in the name of the package clause,
    [Rename] returns [true] as its third result whatever the outcome, no
    optional edits, and a nil map of edits whenever it returns an error;
    this holds in particular for the four failures: new name that is not
    an identifier, no metadata for the file, missing module information,
    and new name ending in [_test]. *)
Theorem Rename_isPackageRename_reports_classification `{Library}
    (s : Snapshot) (f : FileHandle) (pp : Position) (newName : string) (pgf : ParsedGoFile) :
  ParseGo s f = Ok pgf ->
  isInPackageName s f pgf pp = Ok true ->
  let r := Rename s f pp newName in
  RenameResult_isPackageRename r = true
  /\ RenameResult_optional r = None
  /\ (forall e, RenameResult_err r = Some e -> RenameResult_edits r = None)
  /\ (isValidIdentifier newName = false ->
      r = renameFails true (ErrNotValidIdentifier newName))
  /\ (isValidIdentifier newName = true ->
      MetadataForFile s (FileHandle_URI f) = Ok [] ->
      r = renameFails true (ErrNoPackagesFound (FileHandle_URI f)))
  /\ (forall meta rest,
        isValidIdentifier newName = true ->
        MetadataForFile s (FileHandle_URI f) = Ok (meta :: rest) ->
        Metadata_ModuleInfo meta = None ->
        r = renameFails true (ErrMissingModule (Metadata_PackagePath meta)))
  /\ (forall meta rest mi,
        isValidIdentifier newName = true ->
        MetadataForFile s (FileHandle_URI f) = Ok (meta :: rest) ->
        Metadata_ModuleInfo meta = Some mi ->
        strings_HasSuffix newName "_test" = true ->
        r = renameFails true ErrRenameToTest).
Proof.
  intros Hparse Hin r. subst r. unfold Rename. rewrite Hparse, Hin.
  destruct (isValidIdentifier newName) eqn:Hvalid; simpl.
  2: { repeat split; try done; intros; simplify_eq/=; done. }
  destruct (MetadataForFile s (FileHandle_URI f)) as [[|meta rest]|e] eqn:Hmeta.
  1, 3: repeat split; try done; intros; simplify_eq/=; done.
  destruct (Metadata_ModuleInfo meta) as [mi|] eqn:Hmod.
  2: { repeat split; try done; intros; simplify_eq/=; done. }
  destruct (strings_HasSuffix newName "_test") eqn:Htest.
  { repeat split; try done; intros; simplify_eq/=; done. }
  destruct (AllValidMetadata s) as [metadata|e].
  2: { repeat split; try done; intros; simplify_eq/=; done. }
  destruct (renamePackage s (ModuleInfo_Path mi) (Metadata_PackagePath meta) newName metadata);
    repeat split; try done; intros; simplify_eq/=; done.
Qed.

Lemma Rename_isPackageRename_reports_classification_witness :
  ParseGo (World.snapshot "old" true) (fhOld "old") = Ok (World.oldFile "old")
  /\ isInPackageName (World.snapshot "old" true) (fhOld "old") (World.oldFile "old")
       atPackageName = Ok true
  /\ RenameResult_isPackageRename
       (Rename (World.snapshot "old" true) (fhOld "old") atPackageName "x_test") = true
  /\ Rename (World.snapshot "old" true) (fhOld "old") atPackageName "x_test"
       = renameFails true ErrRenameToTest.
Proof.
  pose proof (Rename_isPackageRename_reports_classification
                (World.snapshot "old" true) (fhOld "old") atPackageName "x_test"
                (World.oldFile "old") eq_refl eq_refl) as (Hb & _ & _ & _ & _ & _ & Htest).
  split; [reflexivity|]. split; [reflexivity|]. split; [exact Hb|].
  exact (Htest (World.metaOld "old") [] {| ModuleInfo_Path := "a" |}
           eq_refl eq_refl eq_refl eq_refl).
Defined.

(** ** Renaming to the current name *)

(** C3 as stated fails.  In the workspace [World], renaming the package
    [old] to [old] at its package clause succeeds: no error is returned,
    and the edits rewrite the package clause and the import path to what
    they already are.  And renaming a blank identifier to [_] fails with
    the error of [checkRenamable], which is no [InvalidName] error. *)
Lemma Rename_to_current_name_not_InvalidName :
  let s := World.snapshot "old" true in
  let r := Rename s (fhOld "old") atPackageName "old" in
  let blank := {| Object_id := 5; Object_Name := "_"; Object_Kind := VarObj false;
                  Object_Pkg := 2; Object_Pos := 131 |} in
  let qo := {| qualifiedObject_obj := blank; qualifiedObject_pkg := World.pkgB "old";
               qualifiedObject_sourcePkg := None; qualifiedObject_node := None |} in
  (Metadata_PackageName (World.metaOld "old") = "old"
   /\ RenameResult_isPackageRename r = true
   /\ RenameResult_err r = None
   /\ (fun edits => editsAt edits World.oldURI) <$> RenameResult_edits r
      = Some [newTextEdit
                {| Range_Start := {| Position_Line := 0; Position_Character := 8 |};
                   Range_End := {| Position_Line := 0; Position_Character := 11 |} |}
                "old"]
   /\ ~ (exists e, RenameResult_err r = Some e /\ classify e = InvalidName
                   /\ RenameResult_edits r = None))
  /\ (renameObj s (Object_Name blank) [qo] false = Err ErrBlank
      /\ classify ErrBlank = InvalidTarget
      /\ ~ (exists e, renameObj s (Object_Name blank) [qo] false = Err e
                      /\ classify e = InvalidName)).
Proof.
  vm_compute. repeat split; try reflexivity.
  - intros (e & He & _). discriminate He.
  - intros (e & He & Hclass). injection He as <-. discriminate Hclass.
Qed.

(** C3, amended.  A single-symbol rename to the current name of its
    target always fails and yields no edits, for every kind of object:
    with the error [old and new names are the same] when the object is
    renamable, and with the error of [checkRenamable] when it is an
    embedded field or the blank identifier.  [Rename] returns this error,
    nil edits and [false] when the position is not in a package clause. *)
Theorem renameObj_to_current_name_fails `{Library}
    (s : Snapshot) (qo : qualifiedObject) (qos : list qualifiedObject) (renameImpls : bool) :
  let obj := qualifiedObject_obj qo in
  let e :=
    match Object_Kind obj with
    | VarObj true => ErrEmbeddedField
    | _ => if decide (Object_Name obj = "_") then ErrBlank
           else ErrSameName (Object_Name obj)
    end in
  renameObj s (Object_Name obj) (qo :: qos) renameImpls = Err e
  /\ (checkRenamable obj = Ok tt -> e = ErrSameName (Object_Name obj))
  /\ (classify e = InvalidName \/ classify e = InvalidTarget)
  /\ forall f pp pgf,
       ParseGo s f = Ok pgf ->
       isInPackageName s f pgf pp = Ok false ->
       qualifiedObjsAtProtocolPos s (FileHandle_URI f) pp = Ok (qo :: qos) ->
       Rename s f pp (Object_Name obj) = renameFails false e.
Proof.
  intros obj e.
  assert (forall b, renameObj s (Object_Name obj) (qo :: qos) b = Err e) as Hobj.
  { intros b. unfold renameObj, checkRenamable. fold obj. subst e.
    destruct (Object_Kind obj) as [[]| | |]; simpl; try done;
      destruct (decide (Object_Name obj = "_")); simpl; try done;
      by rewrite decide_True. }
  split; [done|]. split; [|split].
  - unfold checkRenamable. subst e.
    destruct (Object_Kind obj) as [[]| | |]; try done;
      destruct (decide (Object_Name obj = "_")); done.
  - subst e. destruct (Object_Kind obj) as [[]| | |];
      try destruct (decide (Object_Name obj = "_")); simpl; auto.
  - intros f pp pgf Hparse Hin Hqos. unfold Rename.
    rewrite Hparse, Hin, Hqos, Hobj. done.
Qed.

Lemma renameObj_to_current_name_fails_witness :
  ParseGo (World.snapshot "old" true) fhB = Ok (World.bFile)
  /\ isInPackageName (World.snapshot "old" true) fhB World.bFile atUse = Ok false
  /\ qualifiedObjsAtProtocolPos (World.snapshot "old" true) (FileHandle_URI fhB) atUse
       = Ok [World.pkgnameQO "old"]
  /\ Rename (World.snapshot "old" true) fhB atUse "old"
       = renameFails false (ErrSameName "old").
Proof.
  pose proof (renameObj_to_current_name_fails (World.snapshot "old" true)
                (World.pkgnameQO "old") [] false) as (_ & _ & _ & Hrename).
  split; [reflexivity|]. split; [reflexivity|]. split; [reflexivity|].
  exact (Hrename fhB atUse World.bFile eq_refl eq_refl eq_refl).
Defined.

(** ** The preconditions of a package rename *)

(** [PrepareRename] at a package clause rejects the package [main], a
    package whose name ends in [_test], a package without module
    information and a package whose path is the path of its module; it
    never returns an item then. *)
Lemma PrepareRename_rejects_preconditions `{Library}
    (s : Snapshot) (f : FileHandle) (pp : Position) (pgf : ParsedGoFile)
    (meta : Metadata) (rest : list Metadata) :
  ParseGo s f = Ok pgf ->
  isInPackageName s f pgf pp = Ok true ->
  MetadataForFile s (FileHandle_URI f) = Ok (meta :: rest) ->
  Metadata_PackageName meta = "main"
  \/ strings_HasSuffix (Metadata_PackageName meta) "_test" = true
  \/ Metadata_ModuleInfo meta = None
  \/ (exists mi, Metadata_ModuleInfo meta = Some mi
                 /\ ModuleInfo_Path mi = Metadata_PackagePath meta) ->
  exists e, PrepareRename s f pp = prepareFails e.
Proof.
  intros Hparse Hin Hmeta Hpre. unfold PrepareRename. rewrite Hparse, Hin.
  destruct (negb _); [eauto|]. rewrite Hmeta.
  destruct (decide (Metadata_PackageName meta = "main")); [eauto|].
  destruct (strings_HasSuffix (Metadata_PackageName meta) "_test") eqn:Htest; [eauto|].
  destruct (Metadata_ModuleInfo meta) as [mi|] eqn:Hmod; [|eauto].
  destruct (decide (ModuleInfo_Path mi = Metadata_PackagePath meta)); [eauto|].
  destruct Hpre as [?|[?|[?|(mi' & ? & ?)]]]; simplify_eq.
Qed.

(** [Rename] at a package clause rejects a package without module
    information and a package whose path is the path of its module. *)
Lemma Rename_rejects_module_preconditions `{Library}
    (s : Snapshot) (f : FileHandle) (pp : Position) (newName : string) (pgf : ParsedGoFile)
    (meta : Metadata) (rest : list Metadata) :
  ParseGo s f = Ok pgf ->
  isInPackageName s f pgf pp = Ok true ->
  MetadataForFile s (FileHandle_URI f) = Ok (meta :: rest) ->
  Metadata_ModuleInfo meta = None
  \/ (exists mi, Metadata_ModuleInfo meta = Some mi
                 /\ ModuleInfo_Path mi = Metadata_PackagePath meta) ->
  exists e, Rename s f pp newName = renameFails true e.
Proof.
  intros Hparse Hin Hmeta Hpre. unfold Rename. rewrite Hparse, Hin.
  destruct (negb _); [eauto|]. rewrite Hmeta.
  destruct Hpre as [->|(mi & -> & Hpath)]; [eauto|].
  destruct (strings_HasSuffix newName "_test"); [eauto|].
  destruct (AllValidMetadata s); [|eauto].
  unfold renamePackage. rewrite decide_True by done. eauto.
Qed.

(** C2.  In the workspace [World] with [package main] in [old.go] and no
    other package, [PrepareRename] at the package clause fails with
    [can't rename package main], while [Rename] at the same position to
    the name [new] returns no error and an edit of the package clause. *)
Theorem Rename_does_not_reject_package_main :
  let s := World.snapshot "main" false in
  let r := Rename s (fhOld "main") atPackageName "new" in
  Metadata_PackageName (World.metaOld "main") = "main"
  /\ PrepareRename s (fhOld "main") atPackageName = prepareFails ErrRenameMain
  /\ RenameResult_isPackageRename r = true
  /\ RenameResult_err r = None
  /\ (fun edits => editsAt edits World.oldURI) <$> RenameResult_edits r
     = Some [newTextEdit
               {| Range_Start := {| Position_Line := 0; Position_Character := 8 |};
                  Range_End := {| Position_Line := 0; Position_Character := 12 |} |}
               "new"].
Proof. vm_compute. repeat split; reflexivity. Qed.

(** ** Conflicts abort the rename *)

Section Conflicts.
Context `{Library} (s : Snapshot).

(** Without conflicts, the loop checks every reference. *)
Lemma checkRefs_no_conflict (refs : list ReferenceInfo) (r : renamer) :
  (forall pre ref post, refs = pre ++ ref :: post ->
     renamer_hadConflicts (checkedAll s r (pre ++ [ref])) = false) ->
  checkRefs s r refs = (checkedAll s r refs, refs).
Proof.
  revert r. induction refs as [|x refs IH]; intros r Hno; [done|].
  simpl. rewrite (Hno [] x refs eq_refl : renamer_hadConflicts (check s r _) = false).
  rewrite IH; [done|].
  intros pre ref post ->. exact (Hno (x :: pre) ref post eq_refl).
Qed.

(** With a conflict somewhere, the loop stops right after the first
    reference at which the renamer has conflicts. *)
Lemma checkRefs_first_conflict (refs : list ReferenceInfo) (r : renamer) :
  (exists pre ref post, refs = pre ++ ref :: post
     /\ renamer_hadConflicts (checkedAll s r (pre ++ [ref])) = true) ->
  exists pre ref post,
    refs = pre ++ ref :: post
    /\ checkRefs s r refs = (checkedAll s r (pre ++ [ref]), pre ++ [ref])
    /\ renamer_hadConflicts (checkedAll s r (pre ++ [ref])) = true
    /\ forall pre1 ref1 post1, pre = pre1 ++ ref1 :: post1 ->
         renamer_hadConflicts (checkedAll s r (pre1 ++ [ref1])) = false.
Proof.
  revert r. induction refs as [|x refs IH]; intros r (pre & ref & post & Heq & Hconf).
  { by destruct pre. }
  destruct (renamer_hadConflicts (check s r (ReferenceInfo_obj x))) eqn:Hx.
  - exists [], x, refs. simpl. rewrite Hx. repeat split; try done.
    intros pre1 ref1 post1 Hnil. by destruct pre1.
  - destruct pre as [|y pre]; simplify_eq/=; [congruence|].
    destruct (IH (check s r (ReferenceInfo_obj y))) as (pre' & ref' & post' & -> & Hrun & Hc & Hfirst).
    { exists pre, ref, post. done. }
    exists (y :: pre'), ref', post'. simpl. rewrite Hx, Hrun. repeat split; try done.
    intros [|z pre1] ref1 post1 Heq1; simplify_eq/=; [done|].
    exact (Hfirst pre1 ref1 post1 eq_refl).
Qed.

End Conflicts.

(** C1.  If the conflict checker, run on the references in order, reports
    a conflict at some reference, then [renameObj] returns an error and no
    edits (an [Err] carries no map); the loop hands to the checker the
    references up to and including the first one at which the renamer has
    conflicts, and none after it; and when the target, the new name and the
    references are valid, the error is the message of the checker. *)
Theorem renameObj_conflict_aborts `{Library} (s : Snapshot) (newName : string)
    (qo : qualifiedObject) (qos : list qualifiedObject) (renameImpls : bool)
    (refs pre post : list ReferenceInfo) (ref : ReferenceInfo) :
  let r0 := newRenamer (qualifiedObject_obj qo) newName refs renameImpls in
  references s (qo :: qos) true false true = Ok refs ->
  refs = pre ++ ref :: post ->
  renamer_hadConflicts (checkedAll s r0 (pre ++ [ref])) = true ->
  (exists e, renameObj s newName (qo :: qos) renameImpls = Err e)
  /\ exists first conflicting unchecked,
       refs = first ++ conflicting :: unchecked
       /\ (checkRefs s r0 refs).2 = first ++ [conflicting]
       /\ (checkRefs s r0 refs).1 = checkedAll s r0 (first ++ [conflicting])
       /\ renamer_hadConflicts (checkRefs s r0 refs).1 = true
       /\ (forall pre1 ref1 post1, first = pre1 ++ ref1 :: post1 ->
             renamer_hadConflicts (checkedAll s r0 (pre1 ++ [ref1])) = false)
       /\ (checkRenamable (qualifiedObject_obj qo) = Ok tt ->
           Object_Name (qualifiedObject_obj qo) <> newName ->
           isValidIdentifier newName = true ->
           renameObj s newName (qo :: qos) renameImpls
             = Err (ErrConflicts (renamer_errors (checkRefs s r0 refs).1)))
       /\ (forall f pp pgf,
             renameImpls = false ->
             ParseGo s f = Ok pgf ->
             isInPackageName s f pgf pp = Ok false ->
             qualifiedObjsAtProtocolPos s (FileHandle_URI f) pp = Ok (qo :: qos) ->
             exists e, Rename s f pp newName = renameFails false e).
Proof.
  intros r0 Hrefs Heq Hconf.
  destruct (checkRefs_first_conflict s refs r0) as (first & c & unchecked & Hsplit & Hrun & Hc & Hfirst).
  { exists pre, ref, post. done. }
  assert (checkRenamable (qualifiedObject_obj qo) = Ok tt ->
          Object_Name (qualifiedObject_obj qo) <> newName ->
          isValidIdentifier newName = true ->
          renameObj s newName (qo :: qos) renameImpls
            = Err (ErrConflicts (renamer_errors (checkRefs s r0 refs).1))) as Hresult.
  { intros Hok Hname Hvalid. unfold renameObj. rewrite Hok. simpl.
    rewrite decide_False by done. rewrite Hvalid. simpl. rewrite Hrefs. simpl.
    fold r0. rewrite Hrun. simpl. rewrite Hc. done. }
  assert (exists e, renameObj s newName (qo :: qos) renameImpls = Err e) as [e Herr].
  { unfold renameObj in *.
    destruct (checkRenamable (qualifiedObject_obj qo)) as [[]|e]; simpl in *; [|eauto].
    destruct (decide (Object_Name (qualifiedObject_obj qo) = newName)); [eauto|].
    destruct (isValidIdentifier newName); simpl in *; [|eauto].
    rewrite Hresult by done. eauto. }
  split; [eauto|].
  exists first, c, unchecked. rewrite Hrun. simpl. repeat split; try done.
  - rewrite Hrun in Hresult. exact Hresult.
  - intros f pp pgf -> Hparse Hin Hqos. exists e. unfold Rename.
    by rewrite Hparse, Hin, Hqos, Herr.
Qed.

Lemma renameObj_conflict_aborts_witness :
  let s := World.snapshot "old" true in
  let r0 := newRenamer (World.pkgname "old") "clash" [World.declRef "old"; World.useRef "old"] false in
  references s [World.pkgnameQO "old"] true false true
    = Ok [World.declRef "old"; World.useRef "old"]
  /\ renamer_hadConflicts (checkedAll s r0 ([] ++ [World.declRef "old"])) = true
  /\ exists e, renameObj s "clash" [World.pkgnameQO "old"] false = Err e.
Proof.
  split; [reflexivity|]. split; [reflexivity|].
  exact (proj1 (renameObj_conflict_aborts (World.snapshot "old" true) "clash"
                  (World.pkgnameQO "old") [] false
                  [World.declRef "old"; World.useRef "old"] [] [World.useRef "old"]
                  (World.declRef "old") eq_refl eq_refl eq_refl)).
Defined.

(** ** The edit of an import name *)

(** C6.  For the declaring reference of a [PkgName], [update] appends one
    edit and nothing else.  The edit replaces the span that runs from the
    start of the import spec to the start of the quoted path; its text is
    empty when the new name is the name of the imported package, and the
    new name followed by one space otherwise.  Without a local name the
    spec starts at its path, so the span is empty and the edit inserts;
    with a local name the span covers it and the edit replaces it. *)
Theorem updatePkgName_rewrites_span_before_path `{Library}
    (s : Snapshot) (r : renamer) (ref : ReferenceInfo) (imported : string)
    (pkg : Package) (tokFile : nat) (inner node : Node) (outer : list Node)
    (spec : ImportSpec) (spn refSpan : Span)
    (result : gmap string (list Edit)) (seen : gmap Span bool) :
  let pkgName := ReferenceInfo_obj ref in
  let edit :=
    {| Edit_Start := Point_Offset (Span_Start spn);
       Edit_End := Point_Offset (Span_End spn);
       Edit_New := if decide (renamer_to r = imported) then ""
                   else renamer_to r +:+ " " |} in
  Object_Kind pkgName = PkgNameObj imported ->
  ReferenceInfo_isDeclaration ref = true ->
  renamer_packages r !! Object_Pkg pkgName = Some pkg ->
  pathEnclosingInterval s pkg (Object_Pos pkgName) (Object_Pos pkgName)
    = (tokFile, inner :: node :: outer) ->
  Node_kind node = ImportSpecNode spec ->
  Range_Span s tokFile (ImportSpec_Pos spec) (ImportSpec_Path_Pos spec) = Ok spn ->
  MappedRange_Span s (ReferenceInfo_MappedRange ref) = Ok refSpan ->
  default false (seen !! refSpan) = false ->
  updatePkgName s r pkgName imported = Ok edit
  /\ update_ref s r (result, seen) ref
     = Ok (appendAt result (Span_URI refSpan) [edit], <[refSpan := true]> seen)
  /\ editsAt (appendAt result (Span_URI refSpan) [edit]) (Span_URI refSpan)
     = editsAt result (Span_URI refSpan) ++ [edit]
  /\ (ImportSpec_Name spec = None -> ImportSpec_Pos spec = ImportSpec_Path_Pos spec)
  /\ (forall name, ImportSpec_Name spec = Some name -> ImportSpec_Pos spec = Ident_Pos name).
Proof.
  intros pkgName edit Hkind Hdecl Hpkg Hpath Hnode Hspan HrefSpan Hseen.
  assert (updatePkgName s r pkgName imported = Ok edit) as Hupdate.
  { unfold updatePkgName. rewrite Hpkg, Hpath, Hnode, Hspan. simpl. subst edit.
    do 2 f_equal. repeat case_decide; congruence. }
  split; [done|]. split; [|split; [|split]].
  - unfold update_ref. rewrite HrefSpan. simpl. rewrite Hseen. simpl.
    fold pkgName. rewrite Hkind, Hdecl, Hupdate. done.
  - unfold editsAt, appendAt. by rewrite lookup_insert_eq.
  - unfold ImportSpec_Pos. by intros ->.
  - unfold ImportSpec_Pos. by intros name ->.
Qed.

Lemma updatePkgName_rewrites_span_before_path_witness :
  let s := World.snapshot "old" true in
  let r := newRenamer (World.pkgname "old") "q"
             [World.declRef "old"; World.useRef "old"] false in
  updatePkgName s r (World.pkgname "old") "old"
    = Ok {| Edit_Start := 18; Edit_End := 18; Edit_New := "q " |}
  /\ update_ref s r (∅, ∅) (World.declRef "old")
     = Ok (appendAt ∅ World.bURI [{| Edit_Start := 18; Edit_End := 18; Edit_New := "q " |}],
           <[ {| Span_URI := World.bURI; Span_Start := World.pointOf 18;
                 Span_End := World.pointOf 25 |} := true ]> ∅).
Proof.
  pose proof (updatePkgName_rewrites_span_before_path
                (World.snapshot "old" true)
                (newRenamer (World.pkgname "old") "q"
                   [World.declRef "old"; World.useRef "old"] false)
                (World.declRef "old") "old" (World.pkgB "old") 2%nat
                {| Node_Pos := 118; Node_End := 125; Node_kind := OtherNode |}
                {| Node_Pos := 118; Node_End := 125; Node_kind := ImportSpecNode World.imp |}
                [ {| Node_Pos := 111; Node_End := 125; Node_kind := GenDecl None |};
                  {| Node_Pos := 100; Node_End := 141;
                     Node_kind := FileNode (ParsedGoFile_File World.bFile) |} ]
                World.imp
                {| Span_URI := World.bURI; Span_Start := World.pointOf 18;
                   Span_End := World.pointOf 18 |}
                {| Span_URI := World.bURI; Span_Start := World.pointOf 18;
                   Span_End := World.pointOf 25 |}
                ∅ ∅ eq_refl eq_refl eq_refl eq_refl eq_refl eq_refl eq_refl eq_refl)
    as (Hedit & Hupdate & _).
  split; [exact Hedit | exact Hupdate].
Defined.

(** ** Whole-word matches in doc comments *)

Lemma app_String a (p t : string) : String a p +:+ t = String a (p +:+ t).
Proof. reflexivity. Qed.

Lemma app_empty_l (t : string) : "" +:+ t = t.
Proof. reflexivity. Qed.

Lemma app_empty_r (t : string) : t +:+ "" = t.
Proof. induction t as [|a t IH]; [done|]. by rewrite app_String, IH. Qed.

Lemma app_assoc_string (p q r : string) : (p +:+ q) +:+ r = p +:+ (q +:+ r).
Proof. induction p as [|a p IH]; [done|]. by rewrite !app_String, IH. Qed.

Lemma len_String a (t : string) : len (String a t) = 1 + len t.
Proof. unfold len. simpl. lia. Qed.

Lemma len_empty : len "" = 0.
Proof. reflexivity. Qed.

Lemma stripPrefix_Some (p s t : string) : stripPrefix p s = Some t <-> s = p +:+ t.
Proof.
  revert s. induction p as [|a p IH]; intros s; simpl.
  - rewrite app_empty_l. split; congruence.
  - destruct s as [|b s]; rewrite app_String; [split; congruence|].
    case_decide as Hab.
    + subst b. rewrite IH. split; congruence.
    + split; congruence.
Qed.

Lemma stripPrefix_app (p t : string) : stripPrefix p (p +:+ t) = Some t.
Proof. by apply stripPrefix_Some. Qed.



Section WholeWords.
Variable from : string.
Hypothesis from_nonempty : from <> "".
Hypothesis from_word : allWordBytes from = true.








End WholeWords.

(** ** Maps of edits *)

Lemma editsAt_appendAt {A} (m : gmap string (list A)) uri uri' (es : list A) :
  editsAt (appendAt m uri es) uri'
  = if decide (uri = uri') then editsAt m uri' ++ es else editsAt m uri'.
Proof.
  unfold editsAt, appendAt. case_decide as Huri.
  - subst. by rewrite lookup_insert_eq.
  - by rewrite lookup_insert_ne.
Qed.

Lemma editsAt_insert {A} (m : gmap string (list A)) uri uri' (es : list A) :
  editsAt (<[uri := es]> m) uri' = if decide (uri = uri') then es else editsAt m uri'.
Proof.
  unfold editsAt. case_decide as Huri.
  - subst. by rewrite lookup_insert_eq.
  - by rewrite lookup_insert_ne.
Qed.

Lemma editsAt_appendAll {A} (m changes : gmap string (list A)) uri :
  editsAt (appendAll m changes) uri = editsAt m uri ++ editsAt changes uri.
Proof.
  unfold editsAt, appendAll. rewrite lookup_merge.
  destruct (m !! uri) as [old|], (changes !! uri) as [new|]; simpl;
    by rewrite ?app_nil_r.
Qed.

(** ** The edits in a doc comment *)

Section DocEdits.
Context `{Library} (s : Snapshot) (r : renamer).




End DocEdits.




(** ** One edit per span *)

Section Dedup.
Context `{Library} (s : Snapshot).

Lemma update_ref_seen r edits (seen : gmap Span bool) ref refSpan :
  MappedRange_Span s (ReferenceInfo_MappedRange ref) = Ok refSpan ->
  default false (seen !! refSpan) = true ->
  update_ref s r (edits, seen) ref = Ok (edits, seen).
Proof. intros Hspan Hseen. unfold update_ref. rewrite Hspan. simpl. by rewrite Hseen. Qed.

Lemma update_ref_first r edits (seen : gmap Span bool) ref refSpan :
  MappedRange_Span s (ReferenceInfo_MappedRange ref) = Ok refSpan ->
  default false (seen !! refSpan) = false ->
  update_ref s r (edits, seen) ref
  = (edits' ← editReference s r edits (ref, refSpan); Ok (edits', <[refSpan := true]> seen)).
Proof.
  intros Hspan Hseen. unfold update_ref, editReference, referenceEdit, referenceDocEdits.
  rewrite Hspan. simpl. rewrite Hseen.
  destruct (Object_Kind (ReferenceInfo_obj ref)), (ReferenceInfo_isDeclaration ref); simpl;
    try done; try (by destruct (ReferenceInfo_ident ref) as [ident|]; simpl;
                      [destruct (docComment s r _ ident) as [[]|]|]).
  by destruct (updatePkgName s r (ReferenceInfo_obj ref) ImportedName).
Qed.

Lemma update_refs_firsts r refs :
  forall edits (seen : gmap Span bool) edits' seen',
    update_refs s r (edits, seen) refs = Ok (edits', seen') ->
    exists firsts : list (ReferenceInfo * Span),
      firsts.*1 `sublist_of` refs
      /\ Forall (fun p => MappedRange_Span s (ReferenceInfo_MappedRange p.1) = Ok p.2) firsts
      /\ NoDup firsts.*2
      /\ (forall sp, sp ∈ firsts.*2 -> default false (seen !! sp) = false)
      /\ (forall ref, ref ∈ refs ->
            exists sp, MappedRange_Span s (ReferenceInfo_MappedRange ref) = Ok sp
                       /\ (default false (seen !! sp) = true \/ sp ∈ firsts.*2))
      /\ editReferences s r edits firsts = Ok edits'.
Proof.
  induction refs as [|ref refs IH]; intros edits seen edits' seen' Hrun.
  { simplify_eq/=. exists []. repeat split; try done; try constructor.
    - by intros sp ?%elem_of_nil.
    - by intros ref ?%elem_of_nil. }
  cbn [update_refs] in Hrun.
  destruct (MappedRange_Span s (ReferenceInfo_MappedRange ref)) as [sp|e] eqn:Hspan.
  2: { unfold update_ref in Hrun. by rewrite Hspan in Hrun. }
  destruct (default false (seen !! sp)) eqn:Hseen.
  - rewrite (update_ref_seen _ _ _ _ _ Hspan Hseen) in Hrun. simpl in Hrun.
    destruct (IH _ _ _ _ Hrun) as (firsts & Hsub & Hspans & Hnodup & Hfresh & Hcover & Hedits).
    exists firsts. repeat split; try done.
    + by apply sublist_cons.
    + intros ref' [->|Hin]%elem_of_cons; [|by apply Hcover]. exists sp. auto.
  - rewrite (update_ref_first _ _ _ _ _ Hspan Hseen) in Hrun.
    destruct (editReference s r edits (ref, sp)) as [edits1|e] eqn:Hedit; [|done].
    simpl in Hrun.
    destruct (IH _ _ _ _ Hrun) as (firsts & Hsub & Hspans & Hnodup & Hfresh & Hcover & Hedits).
    assert (forall sp', sp' ∈ firsts.*2 -> sp' <> sp) as Hne.
    { intros sp' Hin ->. specialize (Hfresh _ Hin). by rewrite lookup_insert_eq in Hfresh. }
    exists ((ref, sp) :: firsts). simpl. repeat split.
    + by apply sublist_skip.
    + by constructor.
    + constructor; [|done]. intros Hin. by apply (Hne sp).
    + intros sp' [->|Hin]%elem_of_cons; [done|].
      specialize (Hfresh _ Hin). rewrite lookup_insert_ne in Hfresh; [done|].
      intros ->. by apply (Hne sp').
    + intros ref' [->|Hin]%elem_of_cons.
      * exists sp. split; [done|]. right. left.
      * destruct (Hcover _ Hin) as (sp' & Hsp' & Hor). exists sp'. split; [done|].
        destruct (decide (sp' = sp)) as [->|Hdiff]; [right; left|].
        destruct Hor as [Hseen'|Hin']; [|right; by right].
        rewrite lookup_insert_ne in Hseen' by done. by left.
    + by rewrite Hedit.
Qed.

(** A file that is recorded for a package path is skipped, and a run over
    files records them all and forgets nothing. *)
Lemma renamePackageClause_files_recorded m newName files :
  forall (st : gmap (string * string) bool * gmap string (list TextEdit)),
    (forall f, f ∈ files ->
       seenPackageRename_get st.1 (ParsedGoFile_URI f, Metadata_PackagePath m) = true) ->
    renamePackageClause_files s m newName files st = Ok st.
Proof.
  induction files as [|f files IH]; intros [seen edits] Hrec; [done|]. simpl in *.
  unfold seenPackageRename_add. rewrite (Hrec f) by left. simpl.
  apply IH. intros f' Hin. apply Hrec. by right.
Qed.

Lemma renamePackageClause_files_records m newName files :
  forall (st st' : gmap (string * string) bool * gmap string (list TextEdit)),
    renamePackageClause_files s m newName files st = Ok st' ->
    (forall key, seenPackageRename_get st.1 key = true ->
                 seenPackageRename_get st'.1 key = true)
    /\ forall f, f ∈ files ->
         seenPackageRename_get st'.1 (ParsedGoFile_URI f, Metadata_PackagePath m) = true.
Proof.
  induction files as [|f files IH]; intros [seen edits] st' Hrun.
  { simplify_eq/=. split; [done|]. by intros f ?%elem_of_nil. }
  cbn [renamePackageClause_files] in Hrun.
  destruct (seenPackageRename_add seen (ParsedGoFile_URI f) (Metadata_PackagePath m))
    as [wasSeen seen1] eqn:Hadd.
  assert (forall key, seenPackageRename_get seen key = true ->
                      seenPackageRename_get seen1 key = true) as Hmono.
  { intros key Hkey. replace seen1 with (seenPackageRename_add seen (ParsedGoFile_URI f)
                                           (Metadata_PackagePath m)).2 by by rewrite Hadd.
    by rewrite seenPackageRename_add_get, Hkey. }
  assert (seenPackageRename_get seen1 (ParsedGoFile_URI f, Metadata_PackagePath m) = true)
    as Hnow.
  { replace seen1 with (seenPackageRename_add seen (ParsedGoFile_URI f)
                          (Metadata_PackagePath m)).2 by by rewrite Hadd.
    rewrite seenPackageRename_add_get, bool_decide_eq_true_2 by done. apply orb_true_r. }
  assert (exists edits1, renamePackageClause_files s m newName files (seen1, edits1) = Ok st')
    as (edits1 & Hrest).
  { destruct wasSeen; [eauto|].
    destruct (File_Name (ParsedGoFile_File f)); [|eauto].
    destruct (MappedRange_Range s _); simpl in Hrun; [eauto|done]. }
  destruct (IH _ _ Hrest) as [Hmono' Hrec']. simpl in *. split; [auto|].
  intros f' [->|Hin]%elem_of_cons; auto.
Qed.

Lemma renameImports_files_recorded m newPath newName dep files :
  forall (st : gmap (string * string) bool * gmap string (list TextEdit)),
    (forall f, f ∈ files ->
       seenPackageRename_get st.1 (ParsedGoFile_URI f, Metadata_PackagePath m) = true) ->
    renameImports_files s m newPath newName dep files st = Ok st.
Proof.
  induction files as [|f files IH]; intros [seen edits] Hrec; [done|]. simpl in *.
  unfold seenPackageRename_add. rewrite (Hrec f) by left. simpl.
  apply IH. intros f' Hin. apply Hrec. by right.
Qed.

Lemma renameImports_files_records m newPath newName dep files :
  forall (st st' : gmap (string * string) bool * gmap string (list TextEdit)),
    renameImports_files s m newPath newName dep files st = Ok st' ->
    (forall key, seenPackageRename_get st.1 key = true ->
                 seenPackageRename_get st'.1 key = true)
    /\ forall f, f ∈ files ->
         seenPackageRename_get st'.1 (ParsedGoFile_URI f, Metadata_PackagePath m) = true.
Proof.
  induction files as [|f files IH]; intros [seen edits] st' Hrun.
  { simplify_eq/=. split; [done|]. by intros f ?%elem_of_nil. }
  cbn [renameImports_files] in Hrun.
  destruct (seenPackageRename_add seen (ParsedGoFile_URI f) (Metadata_PackagePath m))
    as [wasSeen seen1] eqn:Hadd.
  assert (forall key, seenPackageRename_get seen key = true ->
                      seenPackageRename_get seen1 key = true) as Hmono.
  { intros key Hkey. replace seen1 with (seenPackageRename_add seen (ParsedGoFile_URI f)
                                           (Metadata_PackagePath m)).2 by by rewrite Hadd.
    by rewrite seenPackageRename_add_get, Hkey. }
  assert (seenPackageRename_get seen1 (ParsedGoFile_URI f, Metadata_PackagePath m) = true)
    as Hnow.
  { replace seen1 with (seenPackageRename_add seen (ParsedGoFile_URI f)
                          (Metadata_PackagePath m)).2 by by rewrite Hadd.
    rewrite seenPackageRename_add_get, bool_decide_eq_true_2 by done. apply orb_true_r. }
  assert (exists edits1, renameImports_files s m newPath newName dep files (seen1, edits1)
                         = Ok st') as (edits1 & Hrest).
  { destruct wasSeen; [eauto|].
    destruct (renameImports_imports s m newPath newName dep f _ edits);
      simpl in Hrun; [eauto|done]. }
  destruct (IH _ _ Hrest) as [Hmono' Hrec']. simpl in *. split; [auto|].
  intros f' [->|Hin]%elem_of_cons; auto.
Qed.

End Dedup.

(** C4.  [update] emits the edit of a reference once per span: the
    references it edits are a subsequence of the references, their spans
    are pairwise different, the span of every reference is among them, and
    the result is obtained by appending, for each of them in turn, the one
    edit of the reference and then its doc-comment edits.  In a package
    rename, a second pass over files of the same package path that a first
    pass has met (the same files reached through another build variant)
    changes neither the edits nor the seen set, for package clauses and for
    imports alike. *)
Theorem one_edit_per_file_and_span `{Library} (s : Snapshot) (r : renamer)
    (res : gmap string (list Edit)) :
  update s r = Ok res ->
  (exists firsts : list (ReferenceInfo * Span),
      firsts.*1 `sublist_of` renamer_refs r
      /\ Forall (fun p => MappedRange_Span s (ReferenceInfo_MappedRange p.1) = Ok p.2) firsts
      /\ NoDup firsts.*2
      /\ (forall ref, ref ∈ renamer_refs r ->
            exists sp, MappedRange_Span s (ReferenceInfo_MappedRange ref) = Ok sp
                       /\ sp ∈ firsts.*2)
      /\ editReferences s r ∅ firsts = Ok res)
  /\ (forall m m' newName newName' files files'
             (st st' : gmap (string * string) bool * gmap string (list TextEdit)),
        Metadata_PackagePath m' = Metadata_PackagePath m ->
        (forall f', f' ∈ files' ->
           exists f, f ∈ files /\ ParsedGoFile_URI f' = ParsedGoFile_URI f) ->
        renamePackageClause_files s m newName files st = Ok st' ->
        renamePackageClause_files s m' newName' files' st' = Ok st')
  /\ (forall m m' newPath newPath' newName newName' dep dep' files files'
             (st st' : gmap (string * string) bool * gmap string (list TextEdit)),
        Metadata_PackagePath m' = Metadata_PackagePath m ->
        (forall f', f' ∈ files' ->
           exists f, f ∈ files /\ ParsedGoFile_URI f' = ParsedGoFile_URI f) ->
        renameImports_files s m newPath newName dep files st = Ok st' ->
        renameImports_files s m' newPath' newName' dep' files' st' = Ok st').
Proof.
  intros Hupdate. split; [|split].
  - unfold update in Hupdate.
    destruct (update_refs s r (∅, ∅) (renamer_refs r)) as [[edits' seen']|e] eqn:Hrun;
      simplify_eq/=.
    destruct (update_refs_firsts s r _ _ _ _ _ Hrun)
      as (firsts & Hsub & Hspans & Hnodup & _ & Hcover & Hedits).
    exists firsts. repeat split; try done.
    intros ref Hin. destruct (Hcover ref Hin) as (sp & Hsp & [Hseen|Hfirst]); [|eauto].
    by rewrite lookup_empty in Hseen.
  - intros m m' newName newName' files files' st st' Hpath Hfiles Hrun.
    apply renamePackageClause_files_recorded. intros f' Hin.
    destruct (Hfiles f' Hin) as (f & Hf & ->). rewrite Hpath.
    by apply (renamePackageClause_files_records s m newName files st st' Hrun).
  - intros m m' newPath newPath' newName newName' dep dep' files files' st st'
           Hpath Hfiles Hrun.
    apply renameImports_files_recorded. intros f' Hin.
    destruct (Hfiles f' Hin) as (f & Hf & ->). rewrite Hpath.
    by apply (renameImports_files_records s m newPath newName dep files st st' Hrun).
Qed.

Lemma one_edit_per_file_and_span_witness :
  let s := World.snapshot "old" true in
  let r := newRenamer (World.pkgname "old") "q"
             [World.useRef "old"; World.declRef "old"; World.useRef "old"] false in
  let res := appendAt (appendAt ∅ World.bURI
                         [{| Edit_Start := 35; Edit_End := 38; Edit_New := "q" |}])
               World.bURI [{| Edit_Start := 18; Edit_End := 18; Edit_New := "q " |}] in
  update s r = Ok res
  /\ exists firsts : list (ReferenceInfo * Span),
       firsts.*1 `sublist_of` renamer_refs r
       /\ Forall (fun p => MappedRange_Span s (ReferenceInfo_MappedRange p.1) = Ok p.2) firsts
       /\ NoDup firsts.*2
       /\ (forall ref, ref ∈ renamer_refs r ->
             exists sp, MappedRange_Span s (ReferenceInfo_MappedRange ref) = Ok sp
                        /\ sp ∈ firsts.*2)
       /\ editReferences s r ∅ firsts = Ok res.
Proof.
  intros s r res.
  assert (update s r = Ok res) as Hupdate by (vm_compute; reflexivity).
  split; [exact Hupdate|].
  exact (proj1 (one_edit_per_file_and_span s r res Hupdate)).
Defined.

(** ** Sorting the edits of a file *)

Section SortSlice.
Context {A : Type} (less : A -> A -> bool).

Lemma sortSlice_insert_Permutation x (l : list A) :
  Permutation (sortSlice_insert less x l) (x :: l).
Proof.
  induction l as [|y l IH]; simpl; [done|].
  destruct (less x y); [|done]. rewrite IH. apply perm_swap.
Qed.

Lemma sortSlice_Permutation (v : list A) : Permutation (sortSlice less v) v.
Proof.
  unfold sortSlice. rewrite <- Permutation_rev.
  assert (forall acc, Permutation (foldl (fun acc x => sortSlice_insert less x acc) acc v)
                        (acc ++ v)) as Hgen.
  { induction v as [|x v IH]; intros acc; simpl; [by rewrite app_nil_r|].
    rewrite IH, sortSlice_insert_Permutation. simpl. apply Permutation_middle. }
  apply (Hgen []).
Qed.

(** When [less] is a strict weak order, no element of the sorted slice is
    less than an element before it. *)
Hypothesis less_asym : forall a b, less a b = true -> less b a = false.
Hypothesis less_negtrans :
  forall a b c, less a b = false -> less b c = false -> less a c = false.

Lemma sortSlice_insert_sorted x (l : list A) :
  StronglySorted (fun a b => less a b = false) l ->
  StronglySorted (fun a b => less a b = false) (sortSlice_insert less x l).
Proof.
  induction l as [|y l IH]; intros Hsorted; simpl.
  { repeat constructor. }
  apply StronglySorted_inv in Hsorted as [Hl Hy].
  destruct (less x y) eqn:Hxy.
  - constructor; [by apply IH|].
    rewrite sortSlice_insert_Permutation. constructor; [by apply less_asym|done].
  - constructor; [by constructor|]. constructor; [done|].
    eapply Forall_impl; [exact Hy|]. intros w Hyw. by eapply less_negtrans.
Qed.

Lemma sortSlice_fold_sorted (v acc : list A) :
  StronglySorted (fun a b => less a b = false) acc ->
  StronglySorted (fun a b => less a b = false)
    (foldl (fun acc x => sortSlice_insert less x acc) acc v).
Proof.
  revert acc. induction v as [|x v' IH]; intros acc Hacc; simpl; [done|].
  by apply IH, sortSlice_insert_sorted.
Qed.

Lemma sortSlice_head_least (v : list A) dropped kept :
  sortSlice less v = dropped :: kept ->
  forall e, e ∈ v -> less e dropped = false.
Proof.
  intros Hsort.
  pose proof (sortSlice_fold_sorted v [] ltac:(constructor)) as Hgen.
  unfold sortSlice in Hsort.
  set (acc := foldl (fun acc x => sortSlice_insert less x acc) [] v) in *.
  assert (acc = rev kept ++ [dropped]) as Hacc.
  { rewrite <- (rev_involutive acc), Hsort. done. }
  intros e He.
  assert (e ∈ acc) as Hin.
  { rewrite <- (sortSlice_Permutation v) in He. unfold sortSlice in He. fold acc in He.
    by rewrite <- (Permutation_rev acc) in He. }
  rewrite Hacc in Hgen, Hin.
  apply elem_of_app in Hin as [Hin|Hin%list_elem_of_singleton].
  - clear -Hgen Hin. induction (rev kept) as [|y l IH]; [by apply elem_of_nil in Hin|].
    simpl in Hgen. apply StronglySorted_inv in Hgen as [Hl Hy].
    apply elem_of_cons in Hin as [->|Hin]; [|by apply IH].
    rewrite Forall_app, Forall_singleton in Hy. apply Hy.
  - subst e. destruct (less dropped dropped) eqn:Hdd; [|done].
    by rewrite (less_asym _ _ Hdd) in Hdd.
Qed.

End SortSlice.

(** ** The probing loop ends on a free name *)

Lemma pretty_N_go_nonempty (x : N) (s : string) : s <> "" -> pretty_N_go x s <> "".
Proof.
  revert s. induction (N.lt_wf_0 x) as [x _ IH]; intros s Hs.
  assert (x = 0 \/ 0 < x)%N as [->|Hpos] by lia.
  - by rewrite pretty_N_go_0.
  - rewrite pretty_N_go_step by done. apply IH; [by apply N.div_lt|done].
Qed.

Lemma pretty_nat_nonempty (n : nat) : pretty n <> "".
Proof.
  unfold pretty, pretty_nat, pretty, pretty_N. case_decide; [done|].
  rewrite pretty_N_go_step by lia. by apply pretty_N_go_nonempty.
Qed.

#[local] Instance localNameCandidate_inj newName : Inj (=) (=) (localNameCandidate newName).
Proof.
  intros [|j] [|k] Heq; simpl in Heq; try done.
  - rewrite <- (app_empty_r newName) in Heq at 1. apply (inj _) in Heq.
    by destruct (pretty_nat_nonempty (S k)).
  - rewrite <- (app_empty_r newName) in Heq at 2. apply (inj _) in Heq.
    by destruct (pretty_nat_nonempty (S j)).
  - by apply (inj _), (inj pretty) in Heq.
Qed.

Lemma freshLocalName_go_spec (fileScope pkgScope : gset string) (newName : string) fuel :
  forall try,
    let res := freshLocalName_go fuel fileScope pkgScope newName
                 (localNameCandidate newName try) try in
    ((res ∉ fileScope) /\ (res ∉ pkgScope)
     /\ exists k, res = localNameCandidate newName k
                  /\ forall j, (try <= j < k)%nat ->
                       localNameCandidate newName j ∈ fileScope ∪ pkgScope)
    \/ (forall k, (try <= k <= try + fuel)%nat ->
          localNameCandidate newName k ∈ fileScope ∪ pkgScope).
Proof.
  induction fuel as [|fuel IH]; intros try; simpl.
  - destruct (bool_decide (_ ∈ fileScope)) eqn:Hf; simpl.
    { right. intros k [Hlo Hhi]. assert (k = try) as Hkt by lia. rewrite Hkt.
      apply bool_decide_eq_true in Hf. set_solver. }
    destruct (bool_decide (_ ∈ pkgScope)) eqn:Hp.
    { right. intros k [Hlo Hhi]. assert (k = try) as Hkt by lia. rewrite Hkt.
      apply bool_decide_eq_true in Hp. set_solver. }
    left. apply bool_decide_eq_false in Hf, Hp. repeat split; try done.
    exists try. split; [done|]. lia.
  - destruct (bool_decide (localNameCandidate newName try ∈ fileScope)
              || bool_decide (localNameCandidate newName try ∈ pkgScope)) eqn:Hbound.
    + assert (localNameCandidate newName try ∈ fileScope ∪ pkgScope) as Hin.
      { apply orb_true_iff in Hbound as [?%bool_decide_eq_true|?%bool_decide_eq_true];
          set_solver. }
      destruct (IH (S try)) as [(Hf & Hp & k & Hk & Hleast)|Hall].
      * left. repeat split; try done. exists k. split; [done|].
        intros j Hj. destruct (decide (j = try)) as [->|]; [done|]. apply Hleast. lia.
      * right. intros k Hk. destruct (decide (k = try)) as [->|]; [done|]. apply Hall. lia.
    + apply orb_false_iff in Hbound as [Hf%bool_decide_eq_false Hp%bool_decide_eq_false].
      left. repeat split; try done. exists try. split; [done|]. lia.
Qed.

(** The name that the probing loop picks is bound in neither scope, and it
    is the first candidate with this property. *)
Lemma freshLocalName_free (fileScope pkgScope : gset string) (newName : string) :
  let localName := freshLocalName fileScope pkgScope newName in
  (localName ∉ fileScope) /\ (localName ∉ pkgScope)
  /\ exists k, localName = localNameCandidate newName k
               /\ forall j, (j < k)%nat ->
                    localNameCandidate newName j ∈ fileScope ∪ pkgScope.
Proof.
  unfold freshLocalName.
  destruct (freshLocalName_go_spec fileScope pkgScope newName
              (size (fileScope ∪ pkgScope)) 0) as [(Hf & Hp & k & Hk & Hleast)|Hall].
  - simpl in *. repeat split; try done. exists k. split; [done|].
    intros j Hj. apply Hleast. lia.
  - exfalso.
    set (n := size (fileScope ∪ pkgScope)) in *.
    set (l := localNameCandidate newName <$> seq 0 (S n)).
    assert (NoDup l) as Hnodup by (apply (NoDup_fmap_2 _), NoDup_seq).
    assert (list_to_set l ⊆ fileScope ∪ pkgScope) as Hsub.
    { intros x [k [-> Hk%elem_of_seq]]%elem_of_list_to_set%list_elem_of_fmap.
      apply Hall. lia. }
    apply subseteq_size in Hsub. rewrite size_list_to_set in Hsub by done.
    unfold l in Hsub. rewrite length_fmap, length_seq in Hsub. fold n in Hsub. lia.
Qed.

(** The loop picks the new name itself exactly when no scope binds it. *)
Lemma freshLocalName_is_newName (fileScope pkgScope : gset string) (newName : string) :
  freshLocalName fileScope pkgScope newName = newName
  <-> (newName ∉ fileScope) /\ (newName ∉ pkgScope).
Proof.
  destruct (freshLocalName_free fileScope pkgScope newName) as (Hf & Hp & k & Hk & Hleast).
  split.
  - intros Heq. by rewrite Heq in Hf, Hp.
  - intros [Hnf Hnp]. destruct k as [|k]; [done|].
    pose proof (Hleast O (Nat.lt_0_succ k)) as Hzero. simpl in Hzero.
    by apply elem_of_union in Hzero as [?|?].
Qed.

(** ** The local name of a renamed import *)

#[local] Arguments renameObj : simpl never.
#[local] Arguments update : simpl never.

(** C7 as stated fails.  In the workspace [World], renaming the package
    [old] to [new] picks the local name [new] in [b.go], and the edits of [b.go] are the edit of
    the import path and the edit of the use [old.X]: the edit that names
    the import is gone, the other edit of the local rename is kept. *)
Lemma renameImports_keeps_edits_of_uses :
  let r := Rename (World.snapshot "old" true) (fhOld "old") atPackageName "new" in
  let pathEdit :=
    newTextEdit {| Range_Start := {| Position_Line := 2; Position_Character := 7 |};
                   Range_End := {| Position_Line := 2; Position_Character := 14 |} |}
      (strconv_Quote "a/new") in
  let useEdit :=
    newTextEdit {| Range_Start := {| Position_Line := 4; Position_Character := 8 |};
                   Range_End := {| Position_Line := 4; Position_Character := 11 |} |}
      "new" in
  freshLocalName {["old"]} ∅ "new" = "new"
  /\ RenameResult_err r = None
  /\ (fun edits => editsAt edits World.bURI) <$> RenameResult_edits r
     = Some [pathEdit; useEdit]
  /\ (fun edits => editsAt edits World.bURI) <$> RenameResult_edits r <> Some [pathEdit].
Proof. vm_compute. repeat split; try reflexivity. intros Heq. discriminate Heq. Qed.

(** C7, amended.  When the local name chosen by probing is the new name
    of the package, which is the case exactly when neither the scope of
    the file nor the scope of the package binds it, [renameImports] sorts the edits that the recursive
    rename produced for the file and drops the first of them; it keeps the
    edit of the import path and, after it, all the other edits of the
    recursive rename for the file, and the edits of that rename for other
    files.  The dropped edit and the kept ones are the edits of the rename
    for the file, and when [CompareRange] orders the ranges, no edit of the
    file is before the dropped one.  Without any edit for the file the
    slice expression panics. *)
Theorem renameImport_drops_first_edit `{Library} (s : Snapshot) (m : Metadata)
    (newPath newName : string) (dep : Package) (f : ParsedGoFile)
    (edits changes : gmap string (list TextEdit)) (imp : ImportSpec) (rng : Range)
    (pkgname : Object) (imported : string) (fileScope : gset string) :
  let uri := ParsedGoFile_URI f in
  let pathEdit := newTextEdit rng (strconv_Quote newPath) in
  let qo := {| qualifiedObject_obj := pkgname; qualifiedObject_pkg := dep;
               qualifiedObject_sourcePkg := None; qualifiedObject_node := None |} in
  strconv_Unquote (ImportSpec_PathValue imp) = Metadata_PackagePath m ->
  MappedRange_Range s
    (NewMappedRange (ParsedGoFile_Tok f) (ParsedGoFile_Mapper f)
       (ImportSpec_Path_Pos imp) (ImportSpec_Path_End imp)) = Ok rng ->
  newName <> Metadata_PackageName m ->
  ImportSpec_Name imp = None ->
  Package_Implicits dep !! ImportSpec_id imp = Some pkgname ->
  Object_Kind pkgname = PkgNameObj imported ->
  Package_Scopes dep !! File_id (ParsedGoFile_File f) = Some fileScope ->
  freshLocalName fileScope (Package_Scope dep) newName = newName ->
  renameObj s newName [qo] false = Ok changes ->
  ((newName ∉ fileScope) /\ (newName ∉ Package_Scope dep))
  /\
  match sortSlice lessRange (editsAt changes uri) with
  | [] =>
      editsAt changes uri = []
      /\ renameImport s m newPath newName dep f edits imp
         = Err (ErrPanic "slice bounds out of range")
  | dropped :: kept =>
      renameImport s m newPath newName dep f edits imp
      = Ok (appendAll (appendAt edits uri [pathEdit]) (<[uri := kept]> changes))
      /\ (forall edits', renameImport s m newPath newName dep f edits imp = Ok edits' ->
            editsAt edits' uri = editsAt edits uri ++ pathEdit :: kept
            /\ forall uri', uri' <> uri ->
                 editsAt edits' uri' = editsAt edits uri' ++ editsAt changes uri')
      /\ Permutation (dropped :: kept) (editsAt changes uri)
      /\ ((forall a b, lessRange a b = true -> lessRange b a = false) ->
          (forall a b c, lessRange a b = false -> lessRange b c = false ->
                         lessRange a c = false) ->
          forall e, e ∈ editsAt changes uri -> lessRange e dropped = false)
  end.
Proof.
  intros uri pathEdit qo Hpath Hrng Hname Himp Himplicit Hkind Hscope Hfresh Hrename.
  assert (renameImport s m newPath newName dep f edits imp
          = match sortSlice lessRange (editsAt changes uri) with
            | _ :: v1 => Ok (appendAll (appendAt edits uri [pathEdit]) (<[uri := v1]> changes))
            | [] => Err (ErrPanic "slice bounds out of range")
            end) as Hbody.
  { unfold renameImport. rewrite decide_False by (by intros []).
    rewrite Hrng. simpl. rewrite bool_decide_eq_false_2 by done.
    rewrite Himp. rewrite bool_decide_eq_false_2 by (by intros []). simpl.
    rewrite Himplicit, Hkind, Hscope, Hfresh. cbv zeta. fold qo. rewrite Hrename. simpl.
    rewrite decide_True by done. fold uri.
    by destruct (sortSlice lessRange (editsAt changes uri)). }
  split; [by apply freshLocalName_is_newName|].
  destruct (sortSlice lessRange (editsAt changes uri)) as [|dropped kept] eqn:Hsort.
  - split; [|done]. apply Permutation_nil. by rewrite <- Hsort, sortSlice_Permutation.
  - split; [done|]. split; [|split].
    + intros edits' Hrun. rewrite Hbody in Hrun. simplify_eq. split.
      * rewrite editsAt_appendAll, editsAt_appendAt, editsAt_insert, !decide_True by done.
        by rewrite <- app_assoc.
      * intros uri' Hne.
        by rewrite editsAt_appendAll, editsAt_appendAt, editsAt_insert, !decide_False.
    + by rewrite <- Hsort, sortSlice_Permutation.
    + intros Hasym Htrans e He. by eapply sortSlice_head_least.
Qed.

Lemma renameImport_drops_first_edit_witness :
  let s := World.snapshot "old" true in
  let qo := {| qualifiedObject_obj := World.pkgname "old";
               qualifiedObject_pkg := World.pkgB "old";
               qualifiedObject_sourcePkg := None; qualifiedObject_node := None |} in
  let range l c l' c' :=
    {| Range_Start := {| Position_Line := l; Position_Character := c |};
       Range_End := {| Position_Line := l'; Position_Character := c' |} |} in
  let changes : gmap string (list TextEdit) :=
    <[World.bURI := [newTextEdit (range 2 7 2 7) "new "; newTextEdit (range 4 8 4 11) "new"]]> ∅ in
  freshLocalName {["old"]} (Package_Scope (World.pkgB "old")) "new" = "new"
  /\ renameObj s "new" [qo] false = Ok changes
  /\ renameImport s (World.metaOld "old") "a/new" "new" (World.pkgB "old") World.bFile ∅
       World.imp
     = Ok (appendAll
             (appendAt ∅ World.bURI [newTextEdit (range 2 7 2 14) (strconv_Quote "a/new")])
             (<[World.bURI := [newTextEdit (range 4 8 4 11) "new"]]> changes)).
Proof.
  intros s qo range changes.
  split; [reflexivity|]. split; [reflexivity|].
  exact (proj1 (proj2 (renameImport_drops_first_edit s (World.metaOld "old") "a/new" "new"
                  (World.pkgB "old") World.bFile ∅ changes World.imp (range 2 7 2 14)
                  (World.pkgname "old") "old" {["old"]}
                  eq_refl eq_refl ltac:(discriminate) eq_refl eq_refl eq_refl eq_refl
                  eq_refl eq_refl))).
Defined.

(** ** The new import paths *)

Lemma stripPrefix_app_app (p q r : string) :
  stripPrefix (p +:+ q) (p +:+ r) = stripPrefix q r.
Proof.
  induction p as [|a p IH]; [done|]. rewrite !app_String. cbn [stripPrefix].
  by destruct (decide (a = a)).
Qed.

(** The packages that [renamePackage] takes as affected are the renamed
    package and the packages below it. *)
Lemma HasPrefix_slash (oldPath suffix : string) :
  suffix = "" \/ (exists t, suffix = "/" +:+ t) ->
  strings_HasPrefix ((oldPath +:+ suffix) +:+ "/") (oldPath +:+ "/") = true.
Proof.
  intros Hsuffix. unfold strings_HasPrefix. apply bool_decide_eq_true_2.
  rewrite app_assoc_string, stripPrefix_app_app.
  destruct Hsuffix as [->|(t & ->)]; [by eexists|].
  rewrite !app_String. cbn [stripPrefix]. destruct (decide _); [by eexists|done].
Qed.

Lemma renameImport_appends_path_edit `{Library} (s : Snapshot) (m : Metadata)
    (newPath newName : string) (dep : Package) (f : ParsedGoFile)
    (edits edits' : gmap string (list TextEdit)) (imp : ImportSpec) (rng : Range) :
  strconv_Unquote (ImportSpec_PathValue imp) = Metadata_PackagePath m ->
  MappedRange_Range s
    (NewMappedRange (ParsedGoFile_Tok f) (ParsedGoFile_Mapper f)
       (ImportSpec_Path_Pos imp) (ImportSpec_Path_End imp)) = Ok rng ->
  renameImport s m newPath newName dep f edits imp = Ok edits' ->
  exists more,
    editsAt edits' (ParsedGoFile_URI f)
    = editsAt edits (ParsedGoFile_URI f) ++ newTextEdit rng (strconv_Quote newPath) :: more.
Proof.
  intros Hpath Hrng. unfold renameImport. rewrite decide_False by (by intros []).
  rewrite Hrng. simpl.
  set (edits1 := appendAt edits (ParsedGoFile_URI f) [newTextEdit rng (strconv_Quote newPath)]).
  assert (editsAt edits1 (ParsedGoFile_URI f)
          = editsAt edits (ParsedGoFile_URI f) ++ [newTextEdit rng (strconv_Quote newPath)])
    as Hedits1.
  { unfold edits1. by rewrite editsAt_appendAt, decide_True. }
  destruct (_ || _).
  { intros ?. simplify_eq. exists []. done. }
  destruct (Package_Implicits dep !! ImportSpec_id imp) as [pkgname|]; [|done].
  destruct (Object_Kind pkgname); try done.
  destruct (Package_Scopes dep !! File_id (ParsedGoFile_File f)) as [fileScope|]; [|done].
  cbv zeta.
  destruct (renameObj s _ _ false) as [changes|]; [|done]. simpl.
  match goal with
  | |- context [mbind _ ?c] => destruct c as [changes'|] eqn:Hchanges; [|done]
  end.
  simpl. intros ?. simplify_eq.
  exists (editsAt changes' (ParsedGoFile_URI f)).
  by rewrite editsAt_appendAll, Hedits1, <- app_assoc.
Qed.

Lemma renamePackage_loop_app `{Library} (s : Snapshot) (modulePath oldPath newName : string)
    (pre post : list Metadata) :
  forall st,
    renamePackage_loop s modulePath oldPath newName (pre ++ post) st
    = (st1 ← renamePackage_loop s modulePath oldPath newName pre st;
       renamePackage_loop s modulePath oldPath newName post st1).
Proof.
  induction pre as [|m pre IH]; intros st; [done|]. simpl.
  destruct (renamePackage_step s modulePath oldPath newName st m) as [st1|]; [|done].
  simpl. apply IH.
Qed.

(** ** A package rename only adds edits *)

Lemma editsExtend_refl {A} (m : gmap string (list A)) : editsExtend m m.
Proof. by intros uri. Qed.

Lemma editsExtend_trans {A} (m1 m2 m3 : gmap string (list A)) :
  editsExtend m1 m2 -> editsExtend m2 m3 -> editsExtend m1 m3.
Proof. intros H12 H23 uri. etrans; [apply H12|apply H23]. Qed.

Lemma editsExtend_appendAt {A} (m : gmap string (list A)) uri (es : list A) :
  editsExtend m (appendAt m uri es).
Proof.
  intros uri'. rewrite editsAt_appendAt. case_decide; [by apply prefix_app_r|done].
Qed.

Lemma editsExtend_appendAll {A} (m changes : gmap string (list A)) :
  editsExtend m (appendAll m changes).
Proof. intros uri. rewrite editsAt_appendAll. by apply prefix_app_r. Qed.

Lemma stateExtends_refl st : stateExtends st st.
Proof. split; [done|apply editsExtend_refl]. Qed.

Lemma stateExtends_trans st1 st2 st3 :
  stateExtends st1 st2 -> stateExtends st2 st3 -> stateExtends st1 st3.
Proof.
  intros [Hseen12 Hedits12] [Hseen23 Hedits23]. split; [auto|by eapply editsExtend_trans].
Qed.

Lemma seenPackageRename_add_mono (seen : gmap (string * string) bool) uri importPath key :
  seenPackageRename_get seen key = true ->
  seenPackageRename_get (seenPackageRename_add seen uri importPath).2 key = true.
Proof. intros Hkey. by rewrite seenPackageRename_add_get, Hkey. Qed.

Section Extends.
Context `{Library} (s : Snapshot).

Lemma renameImport_extends m newPath newName dep f edits edits' imp :
  renameImport s m newPath newName dep f edits imp = Ok edits' -> editsExtend edits edits'.
Proof.
  unfold renameImport. case_decide; [intros [= <-]; apply editsExtend_refl|].
  destruct (MappedRange_Range s _) as [rng|]; [|done]. simpl.
  pose proof (editsExtend_appendAt edits (ParsedGoFile_URI f)
                [newTextEdit rng (strconv_Quote newPath)]) as Hpath.
  destruct (_ || _); [by intros [= <-]|].
  destruct (Package_Implicits dep !! ImportSpec_id imp) as [pkgname|]; [|done].
  destruct (Object_Kind pkgname); try done.
  destruct (Package_Scopes dep !! File_id (ParsedGoFile_File f)) as [fileScope|]; [|done].
  cbv zeta. destruct (renameObj s _ _ false) as [changes|]; [|done]. simpl.
  case_decide.
  - destruct (sortSlice lessRange _) as [|v0 v1]; [done|]. simpl. intros [= <-].
    eapply editsExtend_trans; [exact Hpath|apply editsExtend_appendAll].
  - simpl. intros [= <-].
    eapply editsExtend_trans; [exact Hpath|apply editsExtend_appendAll].
Qed.

Lemma renameImports_imports_extends m newPath newName dep f imports :
  forall edits edits',
    renameImports_imports s m newPath newName dep f imports edits = Ok edits' ->
    editsExtend edits edits'.
Proof.
  induction imports as [|imp imports IH]; intros edits edits'.
  { intros [= <-]. apply editsExtend_refl. }
  cbn [renameImports_imports].
  destruct (renameImport s m newPath newName dep f edits imp) as [edits1|] eqn:Himp; [|done].
  simpl. intros Hrest. eapply editsExtend_trans; [by eapply renameImport_extends|by apply IH].
Qed.

Lemma renameImports_files_extends m newPath newName dep files :
  forall st st',
    renameImports_files s m newPath newName dep files st = Ok st' -> stateExtends st st'.
Proof.
  induction files as [|f files IH]; intros [seen edits] st'.
  { intros [= <-]. apply stateExtends_refl. }
  cbn [renameImports_files].
  pose proof (seenPackageRename_add_mono seen (ParsedGoFile_URI f) (Metadata_PackagePath m))
    as Hmono.
  destruct (seenPackageRename_add seen (ParsedGoFile_URI f) (Metadata_PackagePath m))
    as [wasSeen seen1].
  simpl in Hmono. destruct wasSeen.
  - intros Hrest%IH. eapply stateExtends_trans; [|exact Hrest].
    split; [exact Hmono|apply editsExtend_refl].
  - destruct (renameImports_imports s m newPath newName dep f _ edits) as [edits1|] eqn:Himps;
      [|done].
    simpl. intros Hrest%IH. eapply stateExtends_trans; [|exact Hrest].
    split; [exact Hmono|by eapply renameImports_imports_extends].
Qed.

Lemma renameImports_deps_extends m newPath newName rdeps :
  forall st st',
    renameImports_deps s m newPath newName rdeps st = Ok st' -> stateExtends st st'.
Proof.
  induction rdeps as [|dep rdeps IH]; intros st st'.
  { intros [= <-]. apply stateExtends_refl. }
  cbn [renameImports_deps]. case_decide; [apply IH|].
  destruct (renameImports_files s m newPath newName dep _ st) as [st1|] eqn:Hfiles; [|done].
  simpl. intros Hrest%IH.
  eapply stateExtends_trans; [by eapply renameImports_files_extends|done].
Qed.

Lemma renameImports_extends m newPath newName st st' :
  renameImports s m newPath newName st = Ok st' -> stateExtends st st'.
Proof.
  unfold renameImports. destruct (GetReverseDependencies s _) as [rdeps|]; [|done].
  simpl. apply renameImports_deps_extends.
Qed.

Lemma renamePackageClause_files_extends m newName files :
  forall st st',
    renamePackageClause_files s m newName files st = Ok st' -> stateExtends st st'.
Proof.
  induction files as [|f files IH]; intros [seen edits] st'.
  { intros [= <-]. apply stateExtends_refl. }
  cbn [renamePackageClause_files].
  pose proof (seenPackageRename_add_mono seen (ParsedGoFile_URI f) (Metadata_PackagePath m))
    as Hmono.
  destruct (seenPackageRename_add seen (ParsedGoFile_URI f) (Metadata_PackagePath m))
    as [wasSeen seen1].
  simpl in Hmono.
  assert (stateExtends (seen, edits) (seen1, edits)) as Hseen.
  { split; [exact Hmono|apply editsExtend_refl]. }
  destruct wasSeen.
  { intros Hrest%IH. by eapply stateExtends_trans. }
  destruct (File_Name (ParsedGoFile_File f)) as [name|].
  2: { intros Hrest%IH. by eapply stateExtends_trans. }
  destruct (MappedRange_Range s _) as [rng|]; [|done]. simpl.
  intros Hrest%IH. eapply stateExtends_trans; [|exact Hrest].
  split; [exact Hmono|apply editsExtend_appendAt].
Qed.

Lemma renamePackageClause_extends m newName st st' :
  renamePackageClause s m newName st = Ok st' -> stateExtends st st'.
Proof.
  unfold renamePackageClause. destruct (WorkspacePackageByID s _) as [pkg|]; [|done].
  simpl. apply renamePackageClause_files_extends.
Qed.

Lemma renamePackage_step_extends modulePath oldPath newName st st' m :
  renamePackage_step s modulePath oldPath newName st m = Ok st' -> stateExtends st st'.
Proof.
  unfold renamePackage_step. case_decide; [apply renamePackageClause_extends|].
  destruct (negb _); [intros [= <-]; apply stateExtends_refl|].
  destruct (Metadata_ModuleInfo m) as [mi|]; [|done].
  case_decide; [intros [= <-]; apply stateExtends_refl|].
  case_decide; [|apply renameImports_extends].
  destruct (renamePackageClause s m newName st) as [st1|] eqn:Hclause; [|done]. simpl.
  intros Himports%renameImports_extends.
  eapply stateExtends_trans; [by eapply renamePackageClause_extends|done].
Qed.

Lemma renamePackage_loop_extends modulePath oldPath newName allMetadata :
  forall st st',
    renamePackage_loop s modulePath oldPath newName allMetadata st = Ok st' ->
    stateExtends st st'.
Proof.
  induction allMetadata as [|m allMetadata IH]; intros st st'.
  { intros [= <-]. apply stateExtends_refl. }
  cbn [renamePackage_loop].
  destruct (renamePackage_step s modulePath oldPath newName st m) as [st1|] eqn:Hstep; [|done].
  simpl. intros Hrest%IH.
  eapply stateExtends_trans; [by eapply renamePackage_step_extends|done].
Qed.

End Extends.

(** ** The edits of a package rename, file by file *)

Section ImportEdits.
Context `{Library} (s : Snapshot).

Lemma renameImports_imports_path_edits m newPath newName dep f imports :
  forall edits edits',
    renameImports_imports s m newPath newName dep f imports edits = Ok edits' ->
    forall imp,
      imp ∈ imports ->
      strconv_Unquote (ImportSpec_PathValue imp) = Metadata_PackagePath m ->
      exists rng,
        MappedRange_Range s
          (NewMappedRange (ParsedGoFile_Tok f) (ParsedGoFile_Mapper f)
             (ImportSpec_Path_Pos imp) (ImportSpec_Path_End imp)) = Ok rng
        /\ newTextEdit rng (strconv_Quote newPath) ∈ editsAt edits' (ParsedGoFile_URI f).
Proof.
  induction imports as [|imp0 imports IH]; intros edits edits' Hrun imp Hin Hpath.
  { by apply elem_of_nil in Hin. }
  cbn [renameImports_imports] in Hrun.
  destruct (renameImport s m newPath newName dep f edits imp0) as [edits1|] eqn:Himp0;
    [|done].
  simpl in Hrun. apply elem_of_cons in Hin as [->|Hin]; [|by eapply IH].
  destruct (MappedRange_Range s
              (NewMappedRange (ParsedGoFile_Tok f) (ParsedGoFile_Mapper f)
                 (ImportSpec_Path_Pos imp0) (ImportSpec_Path_End imp0))) as [rng|e] eqn:Hrng.
  2: { unfold renameImport in Himp0. rewrite decide_False in Himp0 by (by intros []).
       by rewrite Hrng in Himp0. }
  exists rng. split; [done|].
  destruct (renameImport_appends_path_edit s m newPath newName dep f edits edits1 imp0 rng
              Hpath Hrng Himp0) as [more Hmore].
  eapply elem_of_prefix; [|by eapply renameImports_imports_extends].
  rewrite Hmore. apply elem_of_app. right. left.
Qed.

(** The pairs that a pass over files records are the files of the pass. *)
Lemma renameImports_files_new_keys m newPath newName dep files :
  forall st st',
    renameImports_files s m newPath newName dep files st = Ok st' ->
    forall key,
      seenPackageRename_get st'.1 key = true ->
      seenPackageRename_get st.1 key = true
      \/ exists f, f ∈ files /\ key = (ParsedGoFile_URI f, Metadata_PackagePath m).
Proof.
  induction files as [|f files IH]; intros [seen edits] st' Hrun key Hkey.
  { simplify_eq/=. by left. }
  cbn [renameImports_files] in Hrun.
  pose proof (seenPackageRename_add_get seen (ParsedGoFile_URI f) (Metadata_PackagePath m) key)
    as Hget.
  destruct (seenPackageRename_add seen (ParsedGoFile_URI f) (Metadata_PackagePath m))
    as [wasSeen seen1].
  cbn [snd] in Hget.
  assert (exists edits1, renameImports_files s m newPath newName dep files (seen1, edits1)
                         = Ok st') as (edits1 & Hrest).
  { destruct wasSeen; [eauto|].
    destruct (renameImports_imports s m newPath newName dep f _ edits);
      simpl in Hrun; [eauto|done]. }
  destruct (IH _ _ Hrest key Hkey) as [Hseen1|(f' & Hin & ->)].
  - cbn [fst] in *. rewrite Hget in Hseen1.
    apply orb_true_iff in Hseen1 as [?|Heq%bool_decide_eq_true_1]; [by left|].
    right. exists f. by split; [left|].
  - right. exists f'. by split; [right|].
Qed.

Lemma renamePackageClause_files_new_keys m newName files :
  forall st st',
    renamePackageClause_files s m newName files st = Ok st' ->
    forall key,
      seenPackageRename_get st'.1 key = true ->
      seenPackageRename_get st.1 key = true
      \/ exists f, f ∈ files /\ key = (ParsedGoFile_URI f, Metadata_PackagePath m).
Proof.
  induction files as [|f files IH]; intros [seen edits] st' Hrun key Hkey.
  { simplify_eq/=. by left. }
  cbn [renamePackageClause_files] in Hrun.
  pose proof (seenPackageRename_add_get seen (ParsedGoFile_URI f) (Metadata_PackagePath m) key)
    as Hget.
  destruct (seenPackageRename_add seen (ParsedGoFile_URI f) (Metadata_PackagePath m))
    as [wasSeen seen1].
  cbn [snd] in Hget.
  assert (exists edits1, renamePackageClause_files s m newName files (seen1, edits1) = Ok st')
    as (edits1 & Hrest).
  { destruct wasSeen; [eauto|].
    destruct (File_Name (ParsedGoFile_File f)); [|eauto].
    destruct (MappedRange_Range s _); simpl in Hrun; [eauto|done]. }
  destruct (IH _ _ Hrest key Hkey) as [Hseen1|(f' & Hin & ->)].
  - cbn [fst] in *. rewrite Hget in Hseen1.
    apply orb_true_iff in Hseen1 as [?|Heq%bool_decide_eq_true_1]; [by left|].
    right. exists f. by split; [left|].
  - right. exists f'. by split; [right|].
Qed.

(** A pass of [renameImports] over the files of a reverse dependency
    rewrites the imports of every file that is not yet recorded, as the
    first file of the pass with that URI has them. *)
Lemma renameImports_files_path_edits m newPath newName dep files :
  forall st st',
    renameImports_files s m newPath newName dep files st = Ok st' ->
    forall f,
      f ∈ files ->
      seenPackageRename_get st.1 (ParsedGoFile_URI f, Metadata_PackagePath m) = false ->
      exists f0,
        f0 ∈ files /\ ParsedGoFile_URI f0 = ParsedGoFile_URI f
        /\ forall imp,
             imp ∈ File_Imports (ParsedGoFile_File f0) ->
             strconv_Unquote (ImportSpec_PathValue imp) = Metadata_PackagePath m ->
             exists rng,
               MappedRange_Range s
                 (NewMappedRange (ParsedGoFile_Tok f0) (ParsedGoFile_Mapper f0)
                    (ImportSpec_Path_Pos imp) (ImportSpec_Path_End imp)) = Ok rng
               /\ newTextEdit rng (strconv_Quote newPath) ∈ editsAt st'.2 (ParsedGoFile_URI f).
Proof.
  induction files as [|f1 files IH]; intros [seen edits] st' Hrun f Hin Hunseen.
  { by apply elem_of_nil in Hin. }
  cbn [renameImports_files] in Hrun. cbn [fst] in Hunseen.
  pose proof (seenPackageRename_add_get seen (ParsedGoFile_URI f1) (Metadata_PackagePath m)
                (ParsedGoFile_URI f, Metadata_PackagePath m)) as Hget.
  unfold seenPackageRename_add in Hrun, Hget. cbv zeta in Hrun, Hget. cbn [snd] in Hget.
  destruct (seenPackageRename_get seen (ParsedGoFile_URI f1, Metadata_PackagePath m))
    eqn:Hseen1; cbn [negb] in Hrun, Hget.
  - (* the first file is recorded already: [f] is another file *)
    apply elem_of_cons in Hin as [->|Hin]; [congruence|].
    destruct (IH _ _ Hrun f Hin Hunseen) as (f0 & Hin0 & Huri & Hedits).
    exists f0. split_and!; [by right|done|done].
  - destruct (renameImports_imports s m newPath newName dep f1 _ edits) as [edits1|] eqn:Himps;
      [|done].
    simpl in Hrun.
    destruct (decide (ParsedGoFile_URI f1 = ParsedGoFile_URI f)) as [Huri|Huri].
    + exists f1. split_and!; [by left|done|]. intros imp Himp Hpath.
      destruct (renameImports_imports_path_edits _ _ _ _ _ _ _ _ Himps imp Himp Hpath)
        as (rng & Hrng & Hedit).
      exists rng. split; [done|]. rewrite <- Huri.
      eapply elem_of_prefix; [exact Hedit|].
      by apply (renameImports_files_extends s m newPath newName dep files _ _ Hrun).
    + apply elem_of_cons in Hin as [->|Hin]; [done|].
      destruct (IH _ _ Hrun f Hin) as (f0 & Hin0 & Huri0 & Hedits).
      { cbn [fst]. rewrite Hget, Hunseen. apply bool_decide_eq_false_2.
        intros [= Heq]. by apply Huri. }
      exists f0. split_and!; [by right|done|done].
Qed.

(** The same for the loop over the reverse dependencies. *)
Lemma renameImports_deps_path_edits m newPath newName rdeps :
  forall st st',
    renameImports_deps s m newPath newName rdeps st = Ok st' ->
    forall dep f,
      dep ∈ rdeps ->
      Package_ParseMode dep = ParseFull ->
      f ∈ Package_CompiledGoFiles dep ->
      seenPackageRename_get st.1 (ParsedGoFile_URI f, Metadata_PackagePath m) = false ->
      exists dep0 f0,
        dep0 ∈ rdeps /\ Package_ParseMode dep0 = ParseFull
        /\ f0 ∈ Package_CompiledGoFiles dep0 /\ ParsedGoFile_URI f0 = ParsedGoFile_URI f
        /\ forall imp,
             imp ∈ File_Imports (ParsedGoFile_File f0) ->
             strconv_Unquote (ImportSpec_PathValue imp) = Metadata_PackagePath m ->
             exists rng,
               MappedRange_Range s
                 (NewMappedRange (ParsedGoFile_Tok f0) (ParsedGoFile_Mapper f0)
                    (ImportSpec_Path_Pos imp) (ImportSpec_Path_End imp)) = Ok rng
               /\ newTextEdit rng (strconv_Quote newPath) ∈ editsAt st'.2 (ParsedGoFile_URI f).
Proof.
  induction rdeps as [|dep1 rdeps IH]; intros st st' Hrun dep f Hdep Hfull Hin Hunseen.
  { by apply elem_of_nil in Hdep. }
  cbn [renameImports_deps] in Hrun.
  destruct (decide (Package_ParseMode dep1 ≠ ParseFull)) as [Hpartial|Hfull1].
  { apply elem_of_cons in Hdep as [->|Hdep]; [done|].
    destruct (IH _ _ Hrun dep f Hdep Hfull Hin Hunseen)
      as (dep0 & f0 & Hdep0 & Hfull0 & Hin0 & Huri & Hedits).
    exists dep0, f0. split_and!; [by right|done..]. }
  apply dec_stable in Hfull1.
  destruct (renameImports_files s m newPath newName dep1 _ st) as [st1|] eqn:Hfiles; [|done].
  simpl in Hrun.
  destruct (seenPackageRename_get st1.1 (ParsedGoFile_URI f, Metadata_PackagePath m))
    eqn:Hseen1.
  - (* recorded by the pass over [dep1] *)
    destruct (renameImports_files_new_keys _ _ _ _ _ _ _ Hfiles _ Hseen1)
      as [?|(f1 & Hin1 & Hkey)]; [congruence|].
    assert (ParsedGoFile_URI f1 = ParsedGoFile_URI f) as Huri1 by congruence.
    destruct (renameImports_files_path_edits _ _ _ _ _ _ _ Hfiles f1 Hin1)
      as (f0 & Hin0 & Huri0 & Hedits); [by rewrite Huri1|].
    exists dep1, f0. split_and!; [by left|done|done|congruence|].
    intros imp Himp Hpath. destruct (Hedits imp Himp Hpath) as (rng & Hrng & Hedit).
    exists rng. split; [done|]. rewrite <- Huri1.
    eapply elem_of_prefix; [exact Hedit|].
    by apply (renameImports_deps_extends s m newPath newName rdeps _ _ Hrun).
  - apply elem_of_cons in Hdep as [->|Hdep].
    { pose proof (proj2 (renameImports_files_records s m newPath newName dep1 _ _ _ Hfiles)
                    f Hin). congruence. }
    destruct (IH _ _ Hrun dep f Hdep Hfull Hin Hseen1)
      as (dep0 & f0 & Hdep0 & Hfull0 & Hin0 & Huri & Hedits).
    exists dep0, f0. split_and!; [by right|done..].
Qed.

(** A pass of [renamePackageClause] rewrites the package clause of every
    file that is not yet recorded, as the first file of the pass with that
    URI has it. *)
Lemma renamePackageClause_files_clause_edits m newName files :
  forall st st',
    renamePackageClause_files s m newName files st = Ok st' ->
    forall f,
      f ∈ files ->
      seenPackageRename_get st.1 (ParsedGoFile_URI f, Metadata_PackagePath m) = false ->
      exists f0,
        f0 ∈ files /\ ParsedGoFile_URI f0 = ParsedGoFile_URI f
        /\ forall name,
             File_Name (ParsedGoFile_File f0) = Some name ->
             exists rng,
               MappedRange_Range s
                 (NewMappedRange (ParsedGoFile_Tok f0) (ParsedGoFile_Mapper f0)
                    (Ident_Pos name) (Ident_End name)) = Ok rng
               /\ newTextEdit rng newName ∈ editsAt st'.2 (ParsedGoFile_URI f).
Proof.
  induction files as [|f1 files IH]; intros [seen edits] st' Hrun f Hin Hunseen.
  { by apply elem_of_nil in Hin. }
  cbn [renamePackageClause_files] in Hrun. cbn [fst] in Hunseen.
  pose proof (seenPackageRename_add_get seen (ParsedGoFile_URI f1) (Metadata_PackagePath m)
                (ParsedGoFile_URI f, Metadata_PackagePath m)) as Hget.
  unfold seenPackageRename_add in Hrun, Hget. cbv zeta in Hrun, Hget. cbn [snd] in Hget.
  destruct (seenPackageRename_get seen (ParsedGoFile_URI f1, Metadata_PackagePath m))
    eqn:Hseen1; cbn [negb] in Hrun, Hget.
  - apply elem_of_cons in Hin as [->|Hin]; [congruence|].
    destruct (IH _ _ Hrun f Hin Hunseen) as (f0 & Hin0 & Huri & Hedits).
    exists f0. split_and!; [by right|done|done].
  - destruct (decide (ParsedGoFile_URI f1 = ParsedGoFile_URI f)) as [Huri|Huri].
    + exists f1. split_and!; [by left|done|]. intros name Hname. rewrite Hname in Hrun.
      destruct (MappedRange_Range s _) as [rng|] eqn:Hrng; [|done]. simpl in Hrun.
      exists rng. split; [done|]. rewrite <- Huri.
      eapply elem_of_prefix;
        [|by apply (renamePackageClause_files_extends s m newName files _ _ Hrun)].
      cbn [snd]. rewrite editsAt_appendAt, decide_True by done.
      apply elem_of_app. right. left.
    + apply elem_of_cons in Hin as [->|Hin]; [done|].
      assert (exists edits1,
                renamePackageClause_files s m newName files
                  (<[(ParsedGoFile_URI f1, Metadata_PackagePath m) := true]> seen, edits1)
                = Ok st') as (edits1 & Hrest).
      { destruct (File_Name (ParsedGoFile_File f1)); [|eauto].
        destruct (MappedRange_Range s _); simpl in Hrun; [eauto|done]. }
      destruct (IH _ _ Hrest f Hin) as (f0 & Hin0 & Huri0 & Hedits).
      { cbn [fst]. rewrite Hget, Hunseen. apply bool_decide_eq_false_2.
        intros [= Heq]. by apply Huri. }
      exists f0. split_and!; [by right|done|done].
Qed.

(** The body of the loop of [renamePackage] for the renamed package and
    the packages below it, in its module. *)
Lemma renamePackage_step_affected (modulePath oldPath newName suffix : string) (m : Metadata)
    (mi : ModuleInfo) (st : gmap (string * string) bool * gmap string (list TextEdit)) :
  Metadata_PackagePath m = oldPath +:+ suffix ->
  suffix = "" \/ (exists t, suffix = "/" +:+ t) ->
  Metadata_ModuleInfo m = Some mi ->
  ModuleInfo_Path mi = modulePath ->
  renamePackage_step s modulePath oldPath newName st m
  = (if decide (suffix = "")
     then st' ← renamePackageClause s m newName st;
          renameImports s m (path_Join (path_Dir oldPath) newName +:+ suffix) newName st'
     else renameImports s m (path_Join (path_Dir oldPath) newName +:+ suffix)
            (Metadata_PackageName m) st).
Proof.
  intros Hpath Hsuffix Hmod Hmodule.
  unfold renamePackage_step. rewrite Hpath.
  rewrite decide_False.
  2: { intros Heq%(inj _). destruct Hsuffix as [->|(t & ->)]; done. }
  rewrite HasPrefix_slash by done. simpl. rewrite Hmod.
  rewrite decide_False by (by rewrite Hmodule; intros []).
  unfold strings_TrimPrefix. rewrite stripPrefix_app. simpl.
  destruct (decide (suffix = "")) as [->|Hne].
  + rewrite decide_True by by rewrite app_empty_r. done.
  + rewrite decide_False; [done|]. intros Heq. apply Hne.
    rewrite <- (app_empty_r oldPath) in Heq at 2. by apply (inj _) in Heq.
Qed.

End ImportEdits.

(** C5.  Let [renamePackage] succeed with the edits [res], and let it
    reach, with the state [st], a package of the module of the renamed
    package whose path is [oldPath ++ suffix], with an empty [suffix] (the
    renamed package) or a [suffix] that starts with a slash (a package
    below it).  The new path is
    [path.Join(path.Dir(oldPath), newName) ++ suffix].  Then for every file
    of a fully parsed reverse dependency of the package that is not yet
    recorded for the package path (and, for the renamed package, is no file
    of the package itself), [res] holds, for every import of the package in
    the file, an edit that replaces the path literal by the quoted new
    path; the file is taken as the first fully parsed reverse dependency
    with that URI has it.  For the renamed package, [res] also holds, for
    every file of the package not yet recorded, an edit that replaces the
    name in its package clause by [newName].  The body of the loop for such
    a package is [renamePackageClause] with [newName] (renamed package
    only) followed by [renameImports] with the new path; an import of
    another path gets no edit. *)
Theorem renamePackage_rewrites_import_paths `{Library} (s : Snapshot)
    (modulePath oldPath newName suffix : string) (pre post : list Metadata) (m : Metadata)
    (mi : ModuleInfo) (st : gmap (string * string) bool * gmap string (list TextEdit))
    (res : gmap string (list TextEdit)) :
  let newPath := path_Join (path_Dir oldPath) newName +:+ suffix in
  Metadata_PackagePath m = oldPath +:+ suffix ->
  suffix = "" \/ (exists t, suffix = "/" +:+ t) ->
  Metadata_ModuleInfo m = Some mi ->
  ModuleInfo_Path mi = modulePath ->
  renamePackage_loop s modulePath oldPath newName pre (∅, ∅) = Ok st ->
  renamePackage s modulePath oldPath newName (pre ++ m :: post) = Ok res ->
  (exists rdeps,
     GetReverseDependencies s (Metadata_PackageID m) = Ok rdeps
     /\ forall dep f,
          dep ∈ rdeps ->
          Package_ParseMode dep = ParseFull ->
          f ∈ Package_CompiledGoFiles dep ->
          seenPackageRename_get st.1 (ParsedGoFile_URI f, Metadata_PackagePath m) = false ->
          (suffix = "" ->
           forall pkg g,
             WorkspacePackageByID s (Metadata_PackageID m) = Ok pkg ->
             g ∈ Package_CompiledGoFiles pkg ->
             ParsedGoFile_URI g <> ParsedGoFile_URI f) ->
          exists dep0 f0,
            dep0 ∈ rdeps /\ Package_ParseMode dep0 = ParseFull
            /\ f0 ∈ Package_CompiledGoFiles dep0
            /\ ParsedGoFile_URI f0 = ParsedGoFile_URI f
            /\ forall imp,
                 imp ∈ File_Imports (ParsedGoFile_File f0) ->
                 strconv_Unquote (ImportSpec_PathValue imp) = Metadata_PackagePath m ->
                 exists rng,
                   MappedRange_Range s
                     (NewMappedRange (ParsedGoFile_Tok f0) (ParsedGoFile_Mapper f0)
                        (ImportSpec_Path_Pos imp) (ImportSpec_Path_End imp)) = Ok rng
                   /\ newTextEdit rng (strconv_Quote newPath)
                      ∈ editsAt res (ParsedGoFile_URI f))
  /\ (suffix = "" ->
      exists pkg,
        WorkspacePackageByID s (Metadata_PackageID m) = Ok pkg
        /\ forall f,
             f ∈ Package_CompiledGoFiles pkg ->
             seenPackageRename_get st.1 (ParsedGoFile_URI f, Metadata_PackagePath m) = false ->
             exists f0,
               f0 ∈ Package_CompiledGoFiles pkg
               /\ ParsedGoFile_URI f0 = ParsedGoFile_URI f
               /\ forall name,
                    File_Name (ParsedGoFile_File f0) = Some name ->
                    exists rng,
                      MappedRange_Range s
                        (NewMappedRange (ParsedGoFile_Tok f0) (ParsedGoFile_Mapper f0)
                           (Ident_Pos name) (Ident_End name)) = Ok rng
                      /\ newTextEdit rng newName ∈ editsAt res (ParsedGoFile_URI f))
  /\ (forall st0,
        renamePackage_step s modulePath oldPath newName st0 m
        = (if decide (suffix = "")
           then st' ← renamePackageClause s m newName st0;
                renameImports s m newPath newName st'
           else renameImports s m newPath (Metadata_PackageName m) st0))
  /\ (forall pkgName dep f edits imp,
        strconv_Unquote (ImportSpec_PathValue imp) <> Metadata_PackagePath m ->
        renameImport s m newPath pkgName dep f edits imp = Ok edits).
Proof.
  intros newPath Hpath Hsuffix Hmod Hmodule Hpre Hres.
  assert (forall st0,
            renamePackage_step s modulePath oldPath newName st0 m
            = (if decide (suffix = "")
               then st' ← renamePackageClause s m newName st0;
                    renameImports s m newPath newName st'
               else renameImports s m newPath (Metadata_PackageName m) st0)) as Hstep.
  { intros st0. by eapply renamePackage_step_affected. }
  (* the run, step by step *)
  unfold renamePackage in Hres.
  destruct (decide (modulePath = oldPath)) as [|Hsame]; [done|].
  rewrite renamePackage_loop_app, Hpre in Hres. cbn [mbind result_bind] in Hres.
  cbn [renamePackage_loop] in Hres. rewrite Hstep in Hres.
  assert (exists st1 st2 st3,
            (if decide (suffix = "") then renamePackageClause s m newName st else Ok st)
            = Ok st1
            /\ renameImports s m newPath
                 (if decide (suffix = "") then newName else Metadata_PackageName m) st1
               = Ok st2
            /\ renamePackage_loop s modulePath oldPath newName post st2 = Ok st3
            /\ res = st3.2) as (st1 & st2 & st3 & Hclause & Himports & Hpost & ->).
  { destruct (decide (suffix = "")).
    - destruct (renamePackageClause s m newName st) as [st1|] eqn:H1; [|done].
      simpl in Hres.
      destruct (renameImports s m newPath newName st1) as [st2|] eqn:H2; [|done].
      simpl in Hres.
      destruct (renamePackage_loop s modulePath oldPath newName post st2) as [st3|] eqn:H3;
        [|done].
      simpl in Hres. simplify_eq. by exists st1, st2, st3.
    - destruct (renameImports s m newPath (Metadata_PackageName m) st) as [st2|] eqn:H2;
        [|done].
      simpl in Hres.
      destruct (renamePackage_loop s modulePath oldPath newName post st2) as [st3|] eqn:H3;
        [|done].
      simpl in Hres. simplify_eq. by exists st, st2, st3. }
  apply renamePackage_loop_extends in Hpost as [_ Hkept3].
  pose proof (renameImports_extends s _ _ _ _ _ Himports) as [_ Hkept2].
  split_and!; [| |exact Hstep|].
  - unfold renameImports in Himports.
    destruct (GetReverseDependencies s (Metadata_PackageID m)) as [rdeps|]; [|done].
    simpl in Himports. exists rdeps. split; [done|].
    intros dep f Hdep Hfull Hin Hunseen Hother.
    assert (seenPackageRename_get st1.1 (ParsedGoFile_URI f, Metadata_PackagePath m) = false)
      as Hunseen1.
    { destruct (decide (suffix = "")) as [Hempty|]; [|by simplify_eq].
      unfold renamePackageClause in Hclause.
      destruct (WorkspacePackageByID s (Metadata_PackageID m)) as [pkg|] eqn:Hpkg; [|done].
      simpl in Hclause. apply not_true_is_false. intros Hseen1.
      destruct (renamePackageClause_files_new_keys s _ _ _ _ _ Hclause _ Hseen1)
        as [?|(g & Hg & Hkey)]; [congruence|].
      apply (Hother Hempty pkg g eq_refl Hg). congruence. }
    destruct (renameImports_deps_path_edits s _ _ _ _ _ _ Himports dep f Hdep Hfull Hin
                Hunseen1) as (dep0 & f0 & Hdep0 & Hfull0 & Hin0 & Huri & Hedits).
    exists dep0, f0. split_and!; try done.
    intros imp Himp Himppath. destruct (Hedits imp Himp Himppath) as (rng & Hrng & Hedit).
    exists rng. split; [done|]. eapply elem_of_prefix; [exact Hedit|apply Hkept3].
  - intros Hempty. rewrite decide_True in Hclause by done.
    unfold renamePackageClause in Hclause.
    destruct (WorkspacePackageByID s (Metadata_PackageID m)) as [pkg|]; [|done].
    simpl in Hclause. exists pkg. split; [done|]. intros f Hin Hunseen.
    destruct (renamePackageClause_files_clause_edits s _ _ _ _ _ Hclause f Hin Hunseen)
      as (f0 & Hin0 & Huri & Hedits).
    exists f0. split_and!; try done.
    intros name Hname. destruct (Hedits name Hname) as (rng & Hrng & Hedit).
    exists rng. split; [done|].
    eapply elem_of_prefix; [|apply Hkept3].
    eapply elem_of_prefix; [exact Hedit|apply Hkept2].
  - intros pkgName dep f edits imp Hother. unfold renameImport. by rewrite decide_True.
Qed.

Lemma renamePackage_rewrites_import_paths_witness :
  let s := World.snapshot "old" true in
  let m := World.metaOld "old" in
  let range l c l' c' :=
    {| Range_Start := {| Position_Line := l; Position_Character := c |};
       Range_End := {| Position_Line := l'; Position_Character := c' |} |} in
  let res : gmap string (list TextEdit) :=
    <[World.bURI := [newTextEdit (range 2 7 2 14) (strconv_Quote "a/new");
                     newTextEdit (range 4 8 4 11) "new"]]>
      (<[World.oldURI := [newTextEdit (range 0 8 0 11) "new"]]> ∅) in
  renamePackage s "a" "a/old" "new" ([] ++ m :: [World.metaB]) = Ok res
  /\ (exists rdeps,
        GetReverseDependencies s "a/old" = Ok rdeps
        /\ forall dep f,
             dep ∈ rdeps ->
             Package_ParseMode dep = ParseFull ->
             f ∈ Package_CompiledGoFiles dep ->
             seenPackageRename_get (∅ : gmap (string * string) bool)
               (ParsedGoFile_URI f, "a/old") = false ->
             ("" = "" ->
              forall pkg g,
                WorkspacePackageByID s "a/old" = Ok pkg ->
                g ∈ Package_CompiledGoFiles pkg ->
                ParsedGoFile_URI g <> ParsedGoFile_URI f) ->
             exists dep0 f0,
               dep0 ∈ rdeps /\ Package_ParseMode dep0 = ParseFull
               /\ f0 ∈ Package_CompiledGoFiles dep0
               /\ ParsedGoFile_URI f0 = ParsedGoFile_URI f
               /\ forall imp,
                    imp ∈ File_Imports (ParsedGoFile_File f0) ->
                    strconv_Unquote (ImportSpec_PathValue imp) = "a/old" ->
                    exists rng,
                      MappedRange_Range s
                        (NewMappedRange (ParsedGoFile_Tok f0) (ParsedGoFile_Mapper f0)
                           (ImportSpec_Path_Pos imp) (ImportSpec_Path_End imp)) = Ok rng
                      /\ newTextEdit rng (strconv_Quote ("a/new" +:+ ""))
                         ∈ editsAt res (ParsedGoFile_URI f)).
Proof.
  intros s m range res.
  assert (renamePackage s "a" "a/old" "new" ([] ++ m :: [World.metaB]) = Ok res) as Hres
    by (vm_compute; reflexivity).
  split; [exact Hres|].
  exact (proj1 (renamePackage_rewrites_import_paths s "a" "a/old" "new" "" []
                  [World.metaB] m {| ModuleInfo_Path := "a" |} (∅, ∅) res
                  eq_refl (or_introl eq_refl) eq_refl eq_refl eq_refl Hres)).
Defined.

(** * Further properties of the code *)

(** ** The shape of the results of the entry points *)

(** X1.  Whatever the snapshot, [Rename] returns edits exactly when it
    returns no error; it returns optional edits only next to edits and
    never for a package rename; and its third result is [true] exactly
    when the file parses and the position is in the package clause. *)
Theorem Rename_result_well_formed `{Library} (s : Snapshot) (f : FileHandle)
    (pp : Position) (newName : string) :
  let r := Rename s f pp newName in
  (RenameResult_err r = None <-> is_Some (RenameResult_edits r))
  /\ (is_Some (RenameResult_optional r) ->
      is_Some (RenameResult_edits r) /\ RenameResult_isPackageRename r = false)
  /\ (RenameResult_isPackageRename r = true
      <-> exists pgf, ParseGo s f = Ok pgf /\ isInPackageName s f pgf pp = Ok true).
Proof.
  cbv zeta. unfold Rename, renameFails.
  destruct (ParseGo s f) as [pgf|e] eqn:Hparse.
  2: { simpl. repeat split; try done; try (by intros ?%is_Some_None).
       intros (? & ? & ?); simplify_eq. }
  destruct (isInPackageName s f pgf pp) as [[]|e] eqn:Hin.
  3: { simpl. repeat split; try done; try (by intros ?%is_Some_None).
       intros (? & ? & ?); simplify_eq; congruence. }
  - assert (exists pgf', Ok pgf = Ok pgf' /\ isInPackageName s f pgf' pp = Ok true) as Hyes
      by eauto.
    repeat case_match; simpl; repeat split; try done; eauto;
      by intros ?%is_Some_None.
  - assert (~ exists pgf', Ok pgf = Ok pgf' /\ isInPackageName s f pgf' pp = Ok true) as Hno.
    { intros (? & ? & ?); simplify_eq; congruence. }
    repeat case_match; simpl; repeat split; try done; eauto;
      by intros ?%is_Some_None.
Qed.

(** X2.  Whatever the snapshot, [PrepareRename] returns an item exactly
    when it returns no error, and an error for the user is always the
    error it returns. *)
Theorem PrepareRename_result_well_formed `{Library} (s : Snapshot) (f : FileHandle)
    (pp : Position) :
  let r := PrepareRename s f pp in
  (PrepareResult_err r = None <-> is_Some (PrepareResult_item r))
  /\ (forall e, PrepareResult_usererr r = Some e -> PrepareResult_err r = Some e).
Proof.
  cbv zeta. unfold PrepareRename, prepareOf, prepareFails, prepareFailsQuietly.
  repeat case_match; simpl; repeat split; try done; eauto;
    by intros ?%is_Some_None.
Qed.

(** X3.  When [PrepareRename] succeeds at a package clause, the client
    supports file renames, the package of the file is neither [main] nor
    named with the suffix [_test], it has module information whose path is
    not the package path, and the item carries the name of the package. *)
Theorem PrepareRename_package_success `{Library} (s : Snapshot) (f : FileHandle)
    (pp : Position) (pgf : ParsedGoFile) :
  ParseGo s f = Ok pgf ->
  isInPackageName s f pgf pp = Ok true ->
  PrepareResult_err (PrepareRename s f pp) = None ->
  RenameOp ∈ SupportedResourceOperations s
  /\ exists meta rest mi pkg item,
       MetadataForFile s (FileHandle_URI f) = Ok (meta :: rest)
       /\ Metadata_PackageName meta <> "main"
       /\ strings_HasSuffix (Metadata_PackageName meta) "_test" = false
       /\ Metadata_ModuleInfo meta = Some mi
       /\ ModuleInfo_Path mi <> Metadata_PackagePath meta
       /\ WorkspacePackageByID s (Metadata_PackageID meta) = Ok pkg
       /\ PrepareResult_item (PrepareRename s f pp) = Some item
       /\ PrepareItem_Text item = Package_Name pkg.
Proof.
  intros Hparse Hin. unfold PrepareRename. rewrite Hparse, Hin.
  destruct (existsb _ _) eqn:Hops; simpl; [|done].
  apply existsb_exists in Hops as (op & Hop%list_elem_of_In & ->%bool_decide_eq_true).
  destruct (MetadataForFile s (FileHandle_URI f)) as [[|meta rest]|]; try done.
  destruct (decide (Metadata_PackageName meta = "main")); [done|].
  destruct (strings_HasSuffix (Metadata_PackageName meta) "_test") eqn:Htest; [done|].
  destruct (Metadata_ModuleInfo meta) as [mi|] eqn:Hmod; [|done].
  destruct (decide (ModuleInfo_Path mi = Metadata_PackagePath meta)); [done|].
  destruct (WorkspacePackageByID s (Metadata_PackageID meta)) as [pkg|] eqn:Hpkg; [|done].
  destruct (File_Name (ParsedGoFile_File pgf)) as [name|]; [|done].
  unfold computePrepareRenameResp.
  destruct (posToMappedRange s pkg _ _) as [mr|]; [|done]. simpl.
  destruct (MappedRange_Range s mr) as [rng|]; [|done]. simpl. intros _.
  split; [done|]. by eexists meta, rest, mi, pkg, _.
Qed.

Lemma PrepareRename_package_success_witness :
  let s := World.snapshot "old" true in
  ParseGo s (fhOld "old") = Ok (World.oldFile "old")
  /\ PrepareResult_err (PrepareRename s (fhOld "old") atPackageName) = None
  /\ RenameOp ∈ SupportedResourceOperations s.
Proof.
  split; [reflexivity|]. split; [reflexivity|].
  exact (proj1 (PrepareRename_package_success (World.snapshot "old" true) (fhOld "old")
                  atPackageName (World.oldFile "old") eq_refl eq_refl eq_refl)).
Defined.

(** X4.  When [PrepareRename] succeeds at a symbol, the object there is
    renamable (no embedded field, not the blank identifier), the item
    carries the name of the object, and if the position resolves to an
    import spec the range of the item is empty: it ends where it starts. *)
Theorem PrepareRename_symbol_success `{Library} (s : Snapshot) (f : FileHandle)
    (pp : Position) (pgf : ParsedGoFile) :
  ParseGo s f = Ok pgf ->
  isInPackageName s f pgf pp = Ok false ->
  PrepareResult_err (PrepareRename s f pp) = None ->
  exists qo qos node item,
    qualifiedObjsAtProtocolPos s (FileHandle_URI f) pp = Ok (qo :: qos)
    /\ Object_Kind (qualifiedObject_obj qo) <> VarObj true
    /\ Object_Name (qualifiedObject_obj qo) <> "_"
    /\ qualifiedObject_node qo = Some node
    /\ PrepareResult_item (PrepareRename s f pp) = Some item
    /\ PrepareItem_Text item = Object_Name (qualifiedObject_obj qo)
    /\ ((exists spec, Node_kind node = ImportSpecNode spec) ->
        Range_End (PrepareItem_Range item) = Range_Start (PrepareItem_Range item)).
Proof.
  intros Hparse Hin. unfold PrepareRename. rewrite Hparse, Hin.
  destruct (qualifiedObjsAtProtocolPos s (FileHandle_URI f) pp) as [[|qo qos]|]; try done.
  destruct (checkRenamable (qualifiedObject_obj qo)) as [[]|] eqn:Hcheck; [|done].
  assert (Object_Kind (qualifiedObject_obj qo) <> VarObj true
          /\ Object_Name (qualifiedObject_obj qo) <> "_") as [Hkind Hname].
  { unfold checkRenamable in Hcheck.
    destruct (Object_Kind (qualifiedObject_obj qo)) as [[]| | |];
      destruct (decide (Object_Name (qualifiedObject_obj qo) = "_")); done. }
  destruct (qualifiedObject_sourcePkg qo) as [pkg|]; [|done].
  destruct (qualifiedObject_node qo) as [node|] eqn:Hnode; [|done].
  unfold computePrepareRenameResp.
  destruct (posToMappedRange s pkg _ _) as [mr|]; [|done]. simpl.
  destruct (MappedRange_Range s mr) as [rng|]; [|done]. simpl. intros _.
  eexists qo, qos, node, _. repeat split; try done.
  intros [spec Hspec]. by rewrite Hspec.
Qed.

Lemma PrepareRename_symbol_success_witness :
  let s := World.snapshot "old" true in
  ParseGo s fhB = Ok World.bFile
  /\ PrepareResult_err (PrepareRename s fhB atUse) = None
  /\ PrepareResult_item (PrepareRename s fhB atUse)
     = Some {| PrepareItem_Range :=
                 {| Range_Start := {| Position_Line := 2; Position_Character := 7 |};
                    Range_End := {| Position_Line := 2; Position_Character := 7 |} |};
               PrepareItem_Text := "old" |}.
Proof.
  intros s.
  destruct (PrepareRename_symbol_success s fhB atUse World.bFile eq_refl eq_refl eq_refl)
    as (qo & qos & node & item & _).
  split; [reflexivity|]. split; reflexivity.
Defined.

(** X5.  The two entry points agree on objects that cannot be renamed: at
    a position outside the package clause whose object is an embedded
    field or the blank identifier, [PrepareRename] fails with the error of
    [checkRenamable], and [Rename] fails with the same error whatever the
    new name is, with no edits. *)
Theorem unrenamable_objects_are_rejected `{Library} (s : Snapshot) (f : FileHandle)
    (pp : Position) (pgf : ParsedGoFile) (qo : qualifiedObject)
    (qos : list qualifiedObject) :
  ParseGo s f = Ok pgf ->
  isInPackageName s f pgf pp = Ok false ->
  qualifiedObjsAtProtocolPos s (FileHandle_URI f) pp = Ok (qo :: qos) ->
  Object_Kind (qualifiedObject_obj qo) = VarObj true
  \/ Object_Name (qualifiedObject_obj qo) = "_" ->
  exists e,
    (e = ErrEmbeddedField \/ e = ErrBlank)
    /\ PrepareRename s f pp = prepareFailsQuietly e
    /\ forall newName, Rename s f pp newName = renameFails false e.
Proof.
  intros Hparse Hin Hqos Hobj.
  assert (exists e, (e = ErrEmbeddedField \/ e = ErrBlank)
                    /\ checkRenamable (qualifiedObject_obj qo) = Err e) as (e & He & Hcheck).
  { unfold checkRenamable. destruct Hobj as [->| ->].
    - eauto.
    - destruct (Object_Kind _) as [[]| | |]; eauto. }
  exists e. split; [done|]. split.
  - unfold PrepareRename. by rewrite Hparse, Hin, Hqos, Hcheck.
  - intros newName. unfold Rename, renameObj. by rewrite Hparse, Hin, Hqos, Hcheck.
Qed.

Lemma unrenamable_objects_are_rejected_witness :
  let blank := qualifiedOfB (objectOfB 5 "_" (VarObj false) 131) 1 in
  let s := snapshotWith (World.snapshot "old" true) (Ok [blank]) (fun _ => Ok []) (Ok []) in
  qualifiedObjsAtProtocolPos s (FileHandle_URI fhB) atUse = Ok [blank]
  /\ exists e,
       (e = ErrEmbeddedField \/ e = ErrBlank)
       /\ PrepareRename s fhB atUse = prepareFailsQuietly e
       /\ forall newName, Rename s fhB atUse newName = renameFails false e.
Proof.
  intros blank s. split; [reflexivity|].
  exact (unrenamable_objects_are_rejected s fhB atUse World.bFile blank []
           eq_refl eq_refl eq_refl (or_intror eq_refl)).
Defined.

(** ** What a successful single-symbol rename returns *)

Lemma toProtocolEdits_lookup (s : Snapshot) (l : list (string * list Edit)) :
  forall acc res,
    NoDup l.*1 ->
    toProtocolEdits s l acc = Ok res ->
    (forall uri edits, (uri, edits) ∈ l ->
       exists fh data pe,
         GetFile s uri = Ok fh /\ FileHandle_Read fh = Ok data
         /\ ToProtocolEdits s uri data edits = Ok pe /\ res !! uri = Some pe)
    /\ (forall uri, uri ∉ l.*1 -> res !! uri = acc !! uri).
Proof.
  induction l as [|[u e] l IH]; intros acc res Hnodup Hrun.
  { simplify_eq/=. split; [by intros ?? ?%elem_of_nil|done]. }
  cbn [toProtocolEdits] in Hrun. apply NoDup_cons in Hnodup as [Hu Hnodup].
  destruct (GetFile s u) as [fh|] eqn:Hfh; [|done]. simpl in Hrun.
  destruct (FileHandle_Read fh) as [data|] eqn:Hdata; [|done]. simpl in Hrun.
  destruct (ToProtocolEdits s u data e) as [pe|] eqn:Hpe; [|done]. simpl in Hrun.
  destruct (IH _ _ Hnodup Hrun) as [Hin Hout]. split.
  - intros uri edits [Heq|Hl]%elem_of_cons; [|by apply Hin].
    simplify_eq. exists fh, data, pe. repeat split; try done.
    rewrite Hout by done. apply lookup_insert_eq.
  - intros uri Huri. simpl in Huri. apply not_elem_of_cons in Huri as [Hne Huri].
    rewrite Hout by done. by apply lookup_insert_ne.
Qed.

(** X6.  When [renameObj] succeeds, the object is renamable, the new name
    is a valid identifier different from the old one, the checker found no
    conflict, and the result has an entry exactly for the files in which
    [update] made edits: the entry of a file is the conversion of its
    edits against the content read from it. *)
Theorem renameObj_success `{Library} (s : Snapshot) (newName : string)
    (qos : list qualifiedObject) (renameImpls : bool)
    (res : gmap string (list TextEdit)) :
  renameObj s newName qos renameImpls = Ok res ->
  exists qo rest refs changes,
    qos = qo :: rest
    /\ checkRenamable (qualifiedObject_obj qo) = Ok tt
    /\ Object_Name (qualifiedObject_obj qo) <> newName
    /\ isValidIdentifier newName = true
    /\ references s qos true false true = Ok refs
    /\ let r := (checkRefs s (newRenamer (qualifiedObject_obj qo) newName refs renameImpls)
                   refs).1 in
       renamer_hadConflicts r = false
       /\ update s r = Ok changes
       /\ (forall uri, res !! uri = None <-> changes !! uri = None)
       /\ (forall uri edits, changes !! uri = Some edits ->
             exists fh data pe,
               GetFile s uri = Ok fh /\ FileHandle_Read fh = Ok data
               /\ ToProtocolEdits s uri data edits = Ok pe /\ res !! uri = Some pe).
Proof.
  unfold renameObj. destruct qos as [|qo rest]; [done|].
  destruct (checkRenamable (qualifiedObject_obj qo)) as [[]|] eqn:Hcheck; [|done]. simpl.
  destruct (decide (Object_Name (qualifiedObject_obj qo) = newName)); [done|].
  destruct (isValidIdentifier newName) eqn:Hvalid; [|done]. simpl.
  destruct (references s (qo :: rest) true false true) as [refs|] eqn:Hrefs; [|done]. simpl.
  destruct (renamer_hadConflicts _) eqn:Hconf; [done|].
  destruct (update s _) as [changes|] eqn:Hupdate; [|done]. simpl. intros Hrun.
  destruct (toProtocolEdits_lookup s _ _ _ (NoDup_fst_map_to_list changes) Hrun)
    as [Hin Hout].
  exists qo, rest, refs, changes. repeat split; try done.
  - intros Hnone. destruct (changes !! uri) as [edits|] eqn:Hedits; [|done].
    destruct (Hin uri edits) as (? & ? & ? & ? & ? & ? & ?); [|congruence].
    by apply elem_of_map_to_list.
  - intros Hnone. rewrite Hout; [done|].
    intros [[u e] [-> Hue%elem_of_map_to_list]]%list_elem_of_fmap. simpl in *. congruence.
  - intros uri edits Hedits. apply Hin. by apply elem_of_map_to_list.
Qed.

Lemma renameObj_success_witness :
  let s := World.snapshot "old" true in
  let range l c l' c' :=
    {| Range_Start := {| Position_Line := l; Position_Character := c |};
       Range_End := {| Position_Line := l'; Position_Character := c' |} |} in
  let res : gmap string (list TextEdit) :=
    <[World.bURI := [newTextEdit (range 2 7 2 7) "q "; newTextEdit (range 4 8 4 11) "q"]]> ∅ in
  renameObj s "q" [World.pkgnameQO "old"] false = Ok res
  /\ exists qo rest refs changes,
       [World.pkgnameQO "old"] = qo :: rest
       /\ checkRenamable (qualifiedObject_obj qo) = Ok tt
       /\ Object_Name (qualifiedObject_obj qo) <> "q"
       /\ isValidIdentifier "q" = true
       /\ references s [World.pkgnameQO "old"] true false true = Ok refs
       /\ let r := (checkRefs s (newRenamer (qualifiedObject_obj qo) "q" refs false)
                      refs).1 in
          renamer_hadConflicts r = false
          /\ update s r = Ok changes
          /\ (forall uri, res !! uri = None <-> changes !! uri = None)
          /\ (forall uri edits, changes !! uri = Some edits ->
                exists fh data pe,
                  GetFile s uri = Ok fh /\ FileHandle_Read fh = Ok data
                  /\ ToProtocolEdits s uri data edits = Ok pe /\ res !! uri = Some pe).
Proof.
  intros s range res. split; [reflexivity|].
  exact (renameObj_success s "q" [World.pkgnameQO "old"] false res eq_refl).
Defined.

(** ** Invariants of [update] *)

Section UpdateInvariants.
Context `{Library} (s : Snapshot) (r : renamer).

Lemma editsWellFormed_appendAt (m : gmap string (list Edit)) uri (es : list Edit) :
  editsWellFormed (renamer_to r) m ->
  es <> [] ->
  Forall (writesName (renamer_to r)) es ->
  editsWellFormed (renamer_to r) (appendAt m uri es).
Proof.
  intros Hm Hne Hes uri' es'. unfold appendAt.
  destruct (decide (uri = uri')) as [->|Huri].
  - rewrite lookup_insert_eq. intros [= <-]. split.
    + intros [_ ?]%app_eq_nil. done.
    + apply Forall_app. split; [|done].
      destruct (m !! uri') as [old|] eqn:Hold; [by apply (Hm uri')|constructor].
  - rewrite lookup_insert_ne by done. apply Hm.
Qed.

Lemma editsWellFormed_appendEach (m : gmap string (list Edit)) uri (es : list Edit) :
  editsWellFormed (renamer_to r) m ->
  Forall (writesName (renamer_to r)) es ->
  editsWellFormed (renamer_to r) (appendEach m uri es).
Proof.
  unfold appendEach. revert m. induction es as [|e es IH]; intros m Hm Hes; [done|].
  apply Forall_cons in Hes as [He Hes]. simpl. apply IH; [|done].
  apply editsWellFormed_appendAt; [done|done|by constructor].
Qed.

Lemma docEdits_comment_writesName (comment : Comment) :
  Forall (writesName (renamer_to r)) (docEdits_comment s r comment).2.
Proof.
  unfold docEdits_comment. destruct (isDirective _); [constructor|]. simpl.
  apply Forall_forall. intros e (es & He & Hes)%list_elem_of_join.
  apply elem_of_lookup_imap in Hes as (i & line & -> & _).
  unfold docEdits_line in He. apply list_elem_of_fmap in He as (loc & -> & _). by left.
Qed.

Lemma editsWellFormed_docEdits (doc : CommentGroup) (m : gmap string (list Edit)) :
  editsWellFormed (renamer_to r) m -> editsWellFormed (renamer_to r) (docEdits s r doc m).
Proof.
  unfold docEdits. generalize (CommentGroup_List doc). intros comments. revert m.
  induction comments as [|comment comments IH]; intros m Hm; [done|]. simpl.
  apply IH. pose proof (docEdits_comment_writesName comment) as Hcomment.
  destruct (docEdits_comment s r comment) as [uri es]. by apply editsWellFormed_appendEach.
Qed.

Lemma updatePkgName_writesName (pkgName : Object) (imported : string) (edit : Edit) :
  updatePkgName s r pkgName imported = Ok edit -> writesName (renamer_to r) edit.
Proof.
  unfold updatePkgName. repeat case_match; try done; simpl;
    destruct (Range_Span s _ _ _); simpl; intros; simplify_eq; unfold writesName; simpl;
    auto.
Qed.

Lemma editsWellFormed_update_ref (st st' : gmap string (list Edit) * gmap Span bool)
    (ref : ReferenceInfo) :
  editsWellFormed (renamer_to r) st.1 ->
  update_ref s r st ref = Ok st' ->
  editsWellFormed (renamer_to r) st'.1.
Proof.
  destruct st as [edits seen]. intros Hm. unfold update_ref.
  destruct (MappedRange_Span s _) as [refSpan|]; [|done]. simpl.
  destruct (default false (seen !! refSpan)); [by intros; simplify_eq|].
  assert (editsWellFormed (renamer_to r)
            (appendAt edits (Span_URI refSpan) [identEdit r refSpan])) as Hident.
  { apply editsWellFormed_appendAt; [done|done|]. constructor; [by left|constructor]. }
  destruct (Object_Kind (ReferenceInfo_obj ref)) as [| |imported|],
    (ReferenceInfo_isDeclaration ref);
    try (by intros; simplify_eq);
    try (destruct (ReferenceInfo_ident ref) as [ident|]; [|by intros; simplify_eq];
         destruct (docComment s r _ ident) as [[doc|]|]; simpl; [| |done];
         intros; simplify_eq; simpl; [by apply editsWellFormed_docEdits|done]).
  destruct (updatePkgName s r _ imported) as [edit|] eqn:Hedit; [|done]. simpl.
  intros; simplify_eq. simpl. apply editsWellFormed_appendAt; [done|done|].
  constructor; [by eapply updatePkgName_writesName|constructor].
Qed.

Lemma editsWellFormed_update_refs (refs : list ReferenceInfo) :
  forall st st' : gmap string (list Edit) * gmap Span bool,
    editsWellFormed (renamer_to r) st.1 ->
    update_refs s r st refs = Ok st' ->
    editsWellFormed (renamer_to r) st'.1.
Proof.
  induction refs as [|ref refs IH]; intros st st' Hm Hrun; [by simplify_eq/=|].
  cbn [update_refs] in Hrun.
  destruct (update_ref s r st ref) as [st1|] eqn:Href; [|done]. simpl in Hrun.
  eapply IH; [|done]. by eapply editsWellFormed_update_ref.
Qed.

End UpdateInvariants.

(** X7.  In the result of [update] no file has an empty list of edits, and
    every edit writes the new name, or the new name followed by a space,
    or nothing: [update] never writes any other text. *)
Theorem update_writes_only_the_new_name `{Library} (s : Snapshot) (r : renamer)
    (res : gmap string (list Edit)) :
  update s r = Ok res ->
  forall uri es,
    res !! uri = Some es ->
    es <> []
    /\ Forall (fun e => Edit_New e = renamer_to r
                        \/ Edit_New e = renamer_to r +:+ " "
                        \/ Edit_New e = "") es.
Proof.
  unfold update. intros Hrun.
  destruct (update_refs s r (∅, ∅) (renamer_refs r)) as [st|] eqn:Hrefs; [|done].
  simpl in Hrun. simplify_eq.
  apply (editsWellFormed_update_refs s r (renamer_refs r) (∅, ∅) st); [|done].
  intros uri es Hempty. simpl in Hempty. by rewrite lookup_empty in Hempty.
Qed.

Lemma update_writes_only_the_new_name_witness :
  let s := World.snapshot "old" true in
  let r := newRenamer (World.pkgname "old") "q"
             [World.useRef "old"; World.declRef "old"; World.useRef "old"] false in
  let res := appendAt (appendAt ∅ World.bURI
                         [{| Edit_Start := 35; Edit_End := 38; Edit_New := "q" |}])
               World.bURI [{| Edit_Start := 18; Edit_End := 18; Edit_New := "q " |}] in
  update s r = Ok res
  /\ forall uri es,
       res !! uri = Some es ->
       es <> []
       /\ Forall (fun e => Edit_New e = renamer_to r
                           \/ Edit_New e = renamer_to r +:+ " "
                           \/ Edit_New e = "") es.
Proof.
  intros s r res.
  assert (update s r = Ok res) as Hupdate by (vm_compute; reflexivity).
  split; [exact Hupdate|].
  exact (update_writes_only_the_new_name s r res Hupdate).
Defined.

(** ** Matches of the regular expression never overlap *)

Lemma len_app (p t : string) : len (p +:+ t) = len p + len t.
Proof.
  induction p as [|a p IH]; [by rewrite app_empty_l, len_empty|].
  rewrite app_String, !len_String, IH. lia.
Qed.

Lemma len_nonneg (t : string) : 0 <= len t.
Proof. unfold len. lia. Qed.

Lemma findAllIndex_go_disjoint (from rest : string) :
  from <> "" ->
  forall prev pos skip,
    Forall (fun loc : Z * Z =>
              pos + Z.of_nat skip <= loc.1
              /\ loc.2 = loc.1 + len from
              /\ loc.2 <= pos + len rest)
           (findAllIndex_go from prev pos skip rest)
    /\ StronglySorted (fun a b : Z * Z => a.2 <= b.1)
         (findAllIndex_go from prev pos skip rest).
Proof.
  intros Hne. induction rest as [|c t IH]; intros prev pos skip; simpl.
  { split; constructor. }
  rewrite len_String.
  assert (forall k, Forall (fun loc : Z * Z =>
                              pos + 1 + Z.of_nat k <= loc.1
                              /\ loc.2 = loc.1 + len from
                              /\ loc.2 <= pos + (1 + len t))
                      (findAllIndex_go from (Some c) (pos + 1) k t)) as Hlater.
  { intros k. eapply Forall_impl; [apply (IH (Some c) (pos + 1) k)|]. simpl. lia. }
  destruct skip as [|k]; [destruct (matchHere from prev (String c t)) eqn:Hmatch|].
  - assert (1 + Z.of_nat (Nat.pred (String.length from)) = len from) as Hlen.
    { unfold len. destruct from; [done|]. simpl. lia. }
    unfold matchHere in Hmatch.
    destruct (stripPrefix from (String c t)) as [after|] eqn:Hstrip; [|done].
    apply stripPrefix_Some in Hstrip.
    assert (len from <= 1 + len t) as Hfits.
    { rewrite <- (len_String c t), Hstrip, len_app. pose proof (len_nonneg after). lia. }
    split.
    + constructor; [simpl; lia|].
      eapply Forall_impl; [apply (Hlater (Nat.pred (String.length from)))|]. simpl. lia.
    + constructor; [apply IH|].
      eapply Forall_impl; [apply (Hlater (Nat.pred (String.length from)))|]. simpl. lia.
  - split; [|apply IH]. eapply Forall_impl; [apply (Hlater O)|]. simpl. lia.
  - split; [|apply IH]. eapply Forall_impl; [apply (Hlater k)|]. simpl. lia.
Qed.

(** X8.  The matches of the old name in a line of a doc comment lie within
    the line, each is as long as the old name, and no match overlaps
    another: every match ends before the next one starts.  This holds for
    every non-empty old name, made of word characters or not. *)
Theorem docRegexp_matches_do_not_overlap (from line : string) :
  from <> "" ->
  Forall (fun loc : Z * Z => 0 <= loc.1 /\ loc.2 = loc.1 + len from /\ loc.2 <= len line)
         (docRegexp_FindAllIndex from line)
  /\ StronglySorted (fun a b : Z * Z => a.2 <= b.1) (docRegexp_FindAllIndex from line).
Proof.
  intros Hne. unfold docRegexp_FindAllIndex.
  destruct (findAllIndex_go_disjoint from line Hne None 0 O) as [Hall Hsorted].
  split; [|done]. eapply Forall_impl; [exact Hall|]. simpl. lia.
Qed.

Lemma docRegexp_matches_do_not_overlap_witness :
  "aa" <> ""
  /\ docRegexp_FindAllIndex "aa" "aa aa,aa" = [(0, 2); (3, 5); (6, 8)]
  /\ StronglySorted (fun a b : Z * Z => a.2 <= b.1) (docRegexp_FindAllIndex "aa" "aa aa,aa").
Proof.
  assert ("aa" <> "") as Hne by (intros Heq; discriminate Heq).
  split; [exact Hne|]. split; [reflexivity|].
  exact (proj2 (docRegexp_matches_do_not_overlap "aa" "aa aa,aa" Hne)).
Defined.

(** ** The doc comment of an identifier *)

Lemma docComment_nearest_spec (s : Snapshot) (tokFile : nat) (id : Ident) (identLine : Z)
    (comments : list CommentGroup) (comment : CommentGroup) :
  docComment_nearest s tokFile id identLine comments = Some comment ->
  comment ∈ comments
  /\ CommentGroup_Pos comment <= Ident_Pos id
  /\ tokFile_Line s tokFile (CommentGroup_End comment) + 1 = identLine.
Proof.
  induction comments as [|c comments IH]; [done|]. simpl.
  destruct (decide (CommentGroup_Pos c > Ident_Pos id)) as [Hafter|Hbefore].
  { intros (? & ? & ?)%IH. repeat split; [by right|done|done]. }
  destruct (decide (tokFile_Line s tokFile (CommentGroup_End c) + 1 = identLine)) as [Hline|_].
  - intros [= <-]. repeat split; [by left|lia|done].
  - intros (? & ? & ?)%IH. repeat split; [by right|done|done].
Qed.

Lemma docComment_nodes_spec (s : Snapshot) (tokFile : nat) (id : Ident) (all : list Node)
    (doc : CommentGroup) (nodes : list Node) :
  docComment_nodes s tokFile id all nodes = Ok (Some doc) ->
  exists pre node post,
    nodes = pre ++ node :: post
    /\ forallb passedOver pre = true
    /\ (declDoc node = Some doc
        \/ exists file,
             Node_kind node = AssignStmt DEFINE
             /\ Node_kind <$> last all = Some (FileNode file)
             /\ doc ∈ File_Comments file
             /\ CommentGroup_Pos doc <= Ident_Pos id
             /\ tokFile_Line s tokFile (CommentGroup_End doc) + 1
                = tokFile_Line s tokFile (Ident_Pos id)).
Proof.
  induction nodes as [|node nodes IH]; [done|]. cbn [docComment_nodes].
  assert (passedOver node = true ->
          docComment_nodes s tokFile id all nodes = Ok (Some doc) ->
          exists pre node' post,
            node :: nodes = pre ++ node' :: post
            /\ forallb passedOver pre = true
            /\ (declDoc node' = Some doc
                \/ exists file,
                     Node_kind node' = AssignStmt DEFINE
                     /\ Node_kind <$> last all = Some (FileNode file)
                     /\ doc ∈ File_Comments file
                     /\ CommentGroup_Pos doc <= Ident_Pos id
                     /\ tokFile_Line s tokFile (CommentGroup_End doc) + 1
                        = tokFile_Line s tokFile (Ident_Pos id))) as Hpass.
  { intros Hnode (pre & node' & post & -> & Hpre & Hdoc)%IH.
    exists (node :: pre), node', post. simpl. rewrite Hnode, Hpre. done. }
  assert (declDoc node = Some doc ->
          exists pre node' post,
            node :: nodes = pre ++ node' :: post
            /\ forallb passedOver pre = true
            /\ (declDoc node' = Some doc
                \/ exists file,
                     Node_kind node' = AssignStmt DEFINE
                     /\ Node_kind <$> last all = Some (FileNode file)
                     /\ doc ∈ File_Comments file
                     /\ CommentGroup_Pos doc <= Ident_Pos id
                     /\ tokFile_Line s tokFile (CommentGroup_End doc) + 1
                        = tokFile_Line s tokFile (Ident_Pos id))) as Hhere.
  { intros Hdoc. exists [], node, nodes. split_and!; [done|done|by left]. }
  unfold declDoc, passedOver in *.
  destruct (Node_kind node) as [d|d|d|[d|]|[d|]| |[]| | |] eqn:Hkind;
    try done; try (by intros [= ->]; apply Hhere); try (by apply Hpass).
  destruct (Node_kind <$> last all) as [[| | | | | | | |file|]|] eqn:Hlast; try done.
  destruct (docComment_nearest s tokFile id _ (File_Comments file)) as [comment|] eqn:Hnear;
    [|by apply Hpass].
  intros [= ->]. apply docComment_nearest_spec in Hnear as (Hin & Hpos & Hline).
  exists [], node, nodes. split_and!; [done|done|]. right. by exists file.
Qed.

(** X9.  The doc comment that [docComment] finds for an identifier belongs
    to the innermost enclosing node that is not passed over (identifiers,
    type and value specs without a doc, and [:=] statements without a
    comment next to them are): it is the doc of that declaration, or, at a
    [:=] statement, a comment group of the file that starts no later than
    the identifier and ends on the line just above it. *)
Theorem docComment_is_innermost_doc `{Library} (s : Snapshot) (r : renamer) (pkg : Package)
    (id : Ident) (doc : CommentGroup) :
  docComment s r pkg id = Ok (Some doc) ->
  let tokFile := (pathEnclosingInterval s pkg (Ident_Pos id) (Ident_End id)).1 in
  let nodes := (pathEnclosingInterval s pkg (Ident_Pos id) (Ident_End id)).2 in
  exists pre node post,
    nodes = pre ++ node :: post
    /\ forallb passedOver pre = true
    /\ (declDoc node = Some doc
        \/ exists file,
             Node_kind node = AssignStmt DEFINE
             /\ Node_kind <$> last nodes = Some (FileNode file)
             /\ doc ∈ File_Comments file
             /\ CommentGroup_Pos doc <= Ident_Pos id
             /\ tokFile_Line s tokFile (CommentGroup_End doc) + 1
                = tokFile_Line s tokFile (Ident_Pos id)).
Proof.
  unfold docComment.
  destruct (pathEnclosingInterval s pkg (Ident_Pos id) (Ident_End id)) as [tokFile nodes].
  simpl. apply docComment_nodes_spec.
Qed.

Lemma docComment_is_innermost_doc_witness :
  let doc := {| CommentGroup_first := {| Comment_Slash := 120; Comment_Text := "// X is old." |};
                CommentGroup_rest := [] |} in
  let id := {| Ident_NamePos := 137; Ident_Name := "X" |} in
  let nodes := [ Node_of_Ident id;
                 {| Node_Pos := 137; Node_End := 142; Node_kind := ValueSpec None |};
                 {| Node_Pos := 133; Node_End := 142; Node_kind := GenDecl (Some doc) |} ] in
  let s := snapshotAt (World.snapshot "old" true) 2 nodes in
  let r := newRenamer (objectOfB 7 "X" OtherObj 137) "Y" [] false in
  docComment s r (World.pkgB "old") id = Ok (Some doc)
  /\ exists pre node post,
       nodes = pre ++ node :: post
       /\ forallb passedOver pre = true
       /\ (declDoc node = Some doc
           \/ exists file,
                Node_kind node = AssignStmt DEFINE
                /\ Node_kind <$> last nodes = Some (FileNode file)
                /\ doc ∈ File_Comments file
                /\ CommentGroup_Pos doc <= Ident_Pos id
                /\ tokFile_Line s 2 (CommentGroup_End doc) + 1
                   = tokFile_Line s 2 (Ident_Pos id)).
Proof.
  intros doc id nodes s r. split; [reflexivity|].
  exact (docComment_is_innermost_doc s r (World.pkgB "old") id doc eq_refl).
Defined.

(** ** Which packages a package rename concerns *)

Lemma HasPrefix_slash_inv (oldPath p : string) :
  strings_HasPrefix (p +:+ "/") (oldPath +:+ "/") = true ->
  exists suffix, p = oldPath +:+ suffix /\ (suffix = "" \/ exists t, suffix = "/" +:+ t).
Proof.
  unfold strings_HasPrefix. intros [t Ht]%bool_decide_eq_true_1.
  apply stripPrefix_Some in Ht. revert p Ht.
  induction oldPath as [|a oldPath IH]; intros p Ht.
  - rewrite app_empty_l in Ht. exists p. split; [done|].
    destruct p as [|c p]; [by left|]. right. exists p.
    rewrite !app_String in Ht. by simplify_eq.
  - rewrite !app_String in Ht. destruct p as [|c p].
    + rewrite app_empty_l in Ht. simplify_eq. by destruct oldPath.
    + rewrite app_String in Ht. simplify_eq.
      destruct (IH p ltac:(done)) as (suffix & -> & Hsuffix).
      exists suffix. by rewrite app_String.
Qed.

Section PackageRename.
Context `{Library} (s : Snapshot) (modulePath oldPath newName : string).

Lemma renamePackage_step_unrelated (m : Metadata) st :
  unrelatedTo modulePath oldPath m ->
  renamePackage_step s modulePath oldPath newName st m = Ok st.
Proof.
  intros [Htest Hunrelated]. unfold renamePackage_step.
  rewrite decide_False by done.
  destruct (strings_HasPrefix _ _) eqn:Hprefix; [|done]. simpl.
  destruct Hunrelated as [Hpath|(mi & -> & Hmodule)].
  - apply HasPrefix_slash_inv in Hprefix as (suffix & Heq & Hsuffix).
    destruct (Hpath suffix Heq) as [Hne Hslash].
    destruct Hsuffix as [->|[t ->]]; [done|]. by destruct (Hslash t).
  - by rewrite decide_True.
Qed.

Lemma renamePackage_loop_unrelated (allMetadata : list Metadata) st :
  Forall (unrelatedTo modulePath oldPath) allMetadata ->
  renamePackage_loop s modulePath oldPath newName allMetadata st = Ok st.
Proof.
  induction 1 as [|m allMetadata Hm _ IH]; [done|]. simpl.
  by rewrite renamePackage_step_unrelated.
Qed.

End PackageRename.

(** X10.  A package rename leaves alone every package that is not the
    renamed package, not below it, and not its x_test package, and every
    package below it that belongs to another module: when the workspace
    holds such packages only, [renamePackage] returns no edit at all,
    whatever the snapshot holds for them. *)
Theorem renamePackage_ignores_unrelated_packages `{Library} (s : Snapshot)
    (modulePath oldPath newName : string) (allMetadata : list Metadata) :
  modulePath <> oldPath ->
  Forall (unrelatedTo modulePath oldPath) allMetadata ->
  renamePackage s modulePath oldPath newName allMetadata = Ok ∅.
Proof.
  intros Hmodule Hunrelated. unfold renamePackage. rewrite decide_False by done.
  by rewrite renamePackage_loop_unrelated.
Qed.

Lemma renamePackage_ignores_unrelated_packages_witness :
  let other := {| Metadata_PackageID := "c/old/x"; Metadata_PackageName := "x";
                  Metadata_PackagePath := "a/old/x";
                  Metadata_ModuleInfo := Some {| ModuleInfo_Path := "a/old/x" |} |} in
  "a" <> "a/old"
  /\ Forall (unrelatedTo "a" "a/old") [World.metaB; other]
  /\ renamePackage (World.snapshot "old" true) "a" "a/old" "new" [World.metaB; other]
     = Ok ∅.
Proof.
  intros other.
  assert ("a" <> "a/old") as Hmodule by (intros Heq; discriminate Heq).
  assert (Forall (unrelatedTo "a" "a/old") [World.metaB; other]) as Hunrelated.
  { constructor; [split|constructor; [split|constructor]].
    - intros Heq; discriminate Heq.
    - left. intros suffix Heq. discriminate Heq.
    - intros Heq; discriminate Heq.
    - right. eexists. split; [reflexivity|]. intros Heq; discriminate Heq. }
  split; [exact Hmodule|]. split; [exact Hunrelated|].
  exact (renamePackage_ignores_unrelated_packages (World.snapshot "old" true)
           "a" "a/old" "new" [World.metaB; other] Hmodule Hunrelated).
Defined.

(** X11.  A package rename fails as soon as it meets the renamed package,
    or a package below it, without module information: the error names
    that package, and no edit is returned, whatever the packages before
    it have contributed and whatever comes after it. *)
Theorem renamePackage_needs_module_information `{Library} (s : Snapshot)
    (modulePath oldPath newName suffix : string) (pre post : list Metadata) (m : Metadata)
    (st1 : gmap (string * string) bool * gmap string (list TextEdit)) :
  modulePath <> oldPath ->
  renamePackage_loop s modulePath oldPath newName pre (∅, ∅) = Ok st1 ->
  Metadata_PackagePath m = oldPath +:+ suffix ->
  suffix = "" \/ (exists t, suffix = "/" +:+ t) ->
  Metadata_ModuleInfo m = None ->
  renamePackage s modulePath oldPath newName (pre ++ m :: post)
  = Err (ErrMissingModule (Metadata_PackagePath m)).
Proof.
  intros Hmodule Hpre Hpath Hsuffix Hnone. unfold renamePackage.
  rewrite decide_False by done.
  rewrite renamePackage_loop_app, Hpre. simpl.
  unfold renamePackage_step. rewrite Hpath.
  rewrite decide_False.
  2: { intros Heq%(inj _). destruct Hsuffix as [->|(t & ->)]; done. }
  rewrite HasPrefix_slash by done. simpl. by rewrite Hnone.
Qed.

Lemma renamePackage_needs_module_information_witness :
  let s := World.snapshot "old" true in
  let below := {| Metadata_PackageID := "a/old/x"; Metadata_PackageName := "x";
                  Metadata_PackagePath := "a/old/x"; Metadata_ModuleInfo := None |} in
  let range l c l' c' :=
    {| Range_Start := {| Position_Line := l; Position_Character := c |};
       Range_End := {| Position_Line := l'; Position_Character := c' |} |} in
  let st1 : gmap (string * string) bool * gmap string (list TextEdit) :=
    (<[(World.bURI, "a/old") := true]> (<[(World.oldURI, "a/old") := true]> ∅),
     <[World.bURI := [newTextEdit (range 2 7 2 14) (strconv_Quote "a/new");
                      newTextEdit (range 4 8 4 11) "new"]]>
       (<[World.oldURI := [newTextEdit (range 0 8 0 11) "new"]]> ∅)) in
  renamePackage_loop s "a" "a/old" "new" [World.metaOld "old"; World.metaB] (∅, ∅) = Ok st1
  /\ renamePackage s "a" "a/old" "new"
       ([World.metaOld "old"; World.metaB] ++ below :: [World.metaB])
     = Err (ErrMissingModule "a/old/x").
Proof.
  intros s below range st1.
  assert ("a" <> "a/old") as Hmodule by (intros Heq; discriminate Heq).
  assert (renamePackage_loop s "a" "a/old" "new" [World.metaOld "old"; World.metaB] (∅, ∅)
          = Ok st1) as Hpre by (vm_compute; reflexivity).
  split; [exact Hpre|].
  exact (renamePackage_needs_module_information s "a" "a/old" "new" "/x"
           [World.metaOld "old"; World.metaB] [World.metaB] below st1
           Hmodule Hpre eq_refl (or_intror (ex_intro _ "x" eq_refl)) eq_refl).
Defined.

(** ** Earlier edits are kept *)

(** X12.  A package rename only adds to what it has: at any point of the
    loop of [renamePackage] over the packages, the edits of every file so
    far are kept, in their order, at the head of the final edits of the
    file, and every file recorded as seen for a package path stays
    recorded. *)
Theorem renamePackage_keeps_earlier_edits `{Library} (s : Snapshot)
    (modulePath oldPath newName : string) (pre post : list Metadata)
    (st st' : gmap (string * string) bool * gmap string (list TextEdit)) :
  renamePackage_loop s modulePath oldPath newName (pre ++ post) st = Ok st' ->
  exists st1,
    renamePackage_loop s modulePath oldPath newName pre st = Ok st1
    /\ (forall key, seenPackageRename_get st.1 key = true ->
                    seenPackageRename_get st1.1 key = true)
    /\ (forall key, seenPackageRename_get st1.1 key = true ->
                    seenPackageRename_get st'.1 key = true)
    /\ (forall uri, editsAt st.2 uri `prefix_of` editsAt st1.2 uri)
    /\ (forall uri, editsAt st1.2 uri `prefix_of` editsAt st'.2 uri).
Proof.
  rewrite renamePackage_loop_app.
  destruct (renamePackage_loop s modulePath oldPath newName pre st) as [st1|] eqn:Hpre;
    [|done].
  simpl. intros Hpost. exists st1.
  apply renamePackage_loop_extends in Hpre as [Hseen1 Hedits1].
  apply renamePackage_loop_extends in Hpost as [Hseen2 Hedits2]. done.
Qed.

Lemma renamePackage_keeps_earlier_edits_witness :
  let s := World.snapshot "old" true in
  let range l c l' c' :=
    {| Range_Start := {| Position_Line := l; Position_Character := c |};
       Range_End := {| Position_Line := l'; Position_Character := c' |} |} in
  let st' : gmap (string * string) bool * gmap string (list TextEdit) :=
    (<[(World.bURI, "a/old") := true]> (<[(World.oldURI, "a/old") := true]> ∅),
     <[World.bURI := [newTextEdit (range 2 7 2 14) (strconv_Quote "a/new");
                      newTextEdit (range 4 8 4 11) "new"]]>
       (<[World.oldURI := [newTextEdit (range 0 8 0 11) "new"]]> ∅)) in
  renamePackage_loop s "a" "a/old" "new" ([World.metaB] ++ [World.metaOld "old"]) (∅, ∅)
  = Ok st'
  /\ exists st1,
       renamePackage_loop s "a" "a/old" "new" [World.metaB] (∅, ∅) = Ok st1
       /\ (forall key, seenPackageRename_get (∅ : gmap (string * string) bool) key = true ->
                       seenPackageRename_get st1.1 key = true)
       /\ (forall key, seenPackageRename_get st1.1 key = true ->
                       seenPackageRename_get st'.1 key = true)
       /\ (forall uri, editsAt (∅ : gmap string (list TextEdit)) uri
                         `prefix_of` editsAt st1.2 uri)
       /\ (forall uri, editsAt st1.2 uri `prefix_of` editsAt st'.2 uri).
Proof.
  intros s range st'.
  assert (renamePackage_loop s "a" "a/old" "new" ([World.metaB] ++ [World.metaOld "old"])
            (∅, ∅) = Ok st') as Hrun by (vm_compute; reflexivity).
  split; [exact Hrun|].
  exact (renamePackage_keeps_earlier_edits s "a" "a/old" "new" [World.metaB]
           [World.metaOld "old"] (∅, ∅) st' Hrun).
Defined.

(** ** The edits of package clauses *)

Section PackageClauses.
Context `{Library} (s : Snapshot).

Lemma renamePackageClause_files_edits m newName files :
  forall st st',
    renamePackageClause_files s m newName files st = Ok st' ->
    forall uri, exists new,
      editsAt st'.2 uri = editsAt st.2 uri ++ new
      /\ (length new <= 1)%nat
      /\ Forall (fun e => TextEdit_NewText e = newName /\ TextEdit_AnnotationID e = "") new
      /\ (seenPackageRename_get st.1 (uri, Metadata_PackagePath m) = true -> new = [])
      /\ (new <> [] -> exists f, f ∈ files /\ ParsedGoFile_URI f = uri).
Proof.
  induction files as [|f files IH]; intros [seen edits] st' Hrun uri.
  { simplify_eq/=. exists []. rewrite app_nil_r. split_and!; try done. simpl. lia. }
  cbn [renamePackageClause_files] in Hrun.
  pose proof (seenPackageRename_add_get seen (ParsedGoFile_URI f) (Metadata_PackagePath m)
                (uri, Metadata_PackagePath m)) as Hget.
  unfold seenPackageRename_add in Hrun, Hget. cbv zeta in Hrun, Hget. cbn [snd] in Hget.
  destruct (seenPackageRename_get seen (ParsedGoFile_URI f, Metadata_PackagePath m))
    eqn:Hseen; cbn [negb] in Hrun, Hget.
  { destruct (IH _ _ Hrun uri) as (new & Hnew & Hlen & Hall & Hnone & Hfile).
    exists new. split_and!; try done.
    intros Hne. destruct (Hfile Hne) as (f' & Hin & Huri). exists f'. by split; [right|]. }
  assert (exists (here : list TextEdit) edits1,
            renamePackageClause_files s m newName files
              (<[(ParsedGoFile_URI f, Metadata_PackagePath m) := true]> seen, edits1) = Ok st'
            /\ (forall uri', editsAt edits1 uri'
                             = if decide (ParsedGoFile_URI f = uri')
                               then editsAt edits uri' ++ here else editsAt edits uri')
            /\ (length here <= 1)%nat
            /\ Forall (fun e => TextEdit_NewText e = newName /\ TextEdit_AnnotationID e = "")
                 here) as (here & edits1 & Hrest & Hedits1 & Hlen & Hall).
  { destruct (File_Name (ParsedGoFile_File f)) as [name|].
    - destruct (MappedRange_Range s _) as [rng|]; [|done]. simpl in Hrun.
      exists [newTextEdit rng newName],
        (appendAt edits (ParsedGoFile_URI f) [newTextEdit rng newName]).
      split_and!; [done| |simpl; lia|by repeat constructor].
      intros uri'. apply editsAt_appendAt.
    - exists [], edits. split_and!; [done| |simpl; lia|constructor].
      intros uri'. destruct (decide _); [by rewrite app_nil_r|done]. }
  destruct (IH _ _ Hrest uri) as (new & Hnew & Hlen' & Hall' & Hnone & Hfile).
  cbn [fst snd] in *. rewrite Hedits1 in Hnew.
  destruct (decide (ParsedGoFile_URI f = uri)) as [Huri|Huri].
  - subst uri. rewrite Hnone in Hnew.
    2: { rewrite Hget, bool_decide_eq_true_2 by done. apply orb_true_r. }
    rewrite app_nil_r in Hnew. exists here. split_and!; try done.
    + by rewrite Hseen.
    + intros _. exists f. by split; [left|].
  - exists new. split_and!; try done.
    + intros Hwas. apply Hnone. by rewrite Hget, Hwas.
    + intros Hne. destruct (Hfile Hne) as (f' & Hin & Hf'). exists f'. by split; [right|].
Qed.

End PackageClauses.

(** X13.  [renamePackageClause] adds at most one edit per file: the edits
    of every file are the earlier ones followed by at most one new edit,
    which writes the new name and carries no annotation; a file already
    recorded for the package path gets none, and a file that gets one is a
    compiled file of the package.  For the x_test package of the renamed
    package this is all that the package rename does, with the new name
    followed by [_test]. *)
Theorem renamePackageClause_one_edit_per_file `{Library} (s : Snapshot) (m : Metadata)
    (newName : string) (st st' : gmap (string * string) bool * gmap string (list TextEdit)) :
  renamePackageClause s m newName st = Ok st' ->
  (exists pkg,
     WorkspacePackageByID s (Metadata_PackageID m) = Ok pkg
     /\ forall uri, exists new,
          editsAt st'.2 uri = editsAt st.2 uri ++ new
          /\ (length new <= 1)%nat
          /\ Forall (fun e => TextEdit_NewText e = newName /\ TextEdit_AnnotationID e = "") new
          /\ (seenPackageRename_get st.1 (uri, Metadata_PackagePath m) = true -> new = [])
          /\ (new <> [] ->
              exists f, f ∈ Package_CompiledGoFiles pkg /\ ParsedGoFile_URI f = uri))
  /\ (forall modulePath oldPath name,
        Metadata_PackagePath m = oldPath +:+ "_test" ->
        renamePackage_step s modulePath oldPath name st m
        = renamePackageClause s m (name +:+ "_test") st).
Proof.
  intros Hrun. split.
  - unfold renamePackageClause in Hrun.
    destruct (WorkspacePackageByID s (Metadata_PackageID m)) as [pkg|]; [|done].
    simpl in Hrun. exists pkg. split; [done|].
    by apply (renamePackageClause_files_edits s m newName (Package_CompiledGoFiles pkg)).
  - intros modulePath oldPath name Hpath. unfold renamePackage_step.
    by rewrite decide_True.
Qed.

Lemma renamePackageClause_one_edit_per_file_witness :
  let s := World.snapshot "old" true in
  let range l c l' c' :=
    {| Range_Start := {| Position_Line := l; Position_Character := c |};
       Range_End := {| Position_Line := l'; Position_Character := c' |} |} in
  let st' : gmap (string * string) bool * gmap string (list TextEdit) :=
    (<[(World.oldURI, "a/old") := true]> ∅,
     <[World.oldURI := [newTextEdit (range 0 8 0 11) "new"]]> ∅) in
  renamePackageClause s (World.metaOld "old") "new" (∅, ∅) = Ok st'
  /\ exists pkg,
       WorkspacePackageByID s "a/old" = Ok pkg
       /\ forall uri, exists new,
            editsAt st'.2 uri = editsAt (∅ : gmap string (list TextEdit)) uri ++ new
            /\ (length new <= 1)%nat
            /\ Forall (fun e => TextEdit_NewText e = "new" /\ TextEdit_AnnotationID e = "") new
            /\ (seenPackageRename_get (∅ : gmap (string * string) bool) (uri, "a/old") = true ->
                new = [])
            /\ (new <> [] ->
                exists f, f ∈ Package_CompiledGoFiles pkg /\ ParsedGoFile_URI f = uri).
Proof.
  intros s range st'.
  assert (renamePackageClause s (World.metaOld "old") "new" (∅, ∅) = Ok st') as Hrun
    by (vm_compute; reflexivity).
  split; [exact Hrun|].
  exact (proj1 (renamePackageClause_one_edit_per_file s (World.metaOld "old") "new"
                  (∅, ∅) st' Hrun)).
Defined.

(** ** The imports of a package that keeps its name *)

Section NestedImports.
Context `{Library} (s : Snapshot).

Lemma renameImport_same_name m newPath dep f edits edits' imp :
  renameImport s m newPath (Metadata_PackageName m) dep f edits imp = Ok edits' ->
  exists new : list TextEdit,
    (forall uri, editsAt edits' uri
                 = if decide (ParsedGoFile_URI f = uri)
                   then editsAt edits uri ++ new else editsAt edits uri)
    /\ length new
       = length (filter (fun imp => strconv_Unquote (ImportSpec_PathValue imp)
                                    = Metadata_PackagePath m) [imp])
    /\ Forall (fun e => TextEdit_NewText e = strconv_Quote newPath
                        /\ TextEdit_AnnotationID e = "") new.
Proof.
  unfold renameImport. rewrite bool_decide_eq_true_2 by done. simpl.
  rewrite filter_cons, filter_nil.
  destruct (decide (strconv_Unquote (ImportSpec_PathValue imp) = Metadata_PackagePath m))
    as [Hpath|Hpath].
  2: { rewrite decide_True by done. intros [= <-]. exists [].
       split_and!; [|done|constructor].
       intros uri. rewrite app_nil_r. by destruct (decide _). }
  - rewrite decide_False by (by intros []).
    destruct (MappedRange_Range s _) as [rng|]; [|done]. simpl. intros [= <-].
    exists [newTextEdit rng (strconv_Quote newPath)].
    split_and!; [|done|by repeat constructor].
    intros uri. apply editsAt_appendAt.
Qed.

Lemma renameImports_imports_same_name m newPath dep f imports :
  forall edits edits',
    renameImports_imports s m newPath (Metadata_PackageName m) dep f imports edits = Ok edits' ->
    exists new : list TextEdit,
      (forall uri, editsAt edits' uri
                   = if decide (ParsedGoFile_URI f = uri)
                     then editsAt edits uri ++ new else editsAt edits uri)
      /\ length new
         = length (filter (fun imp => strconv_Unquote (ImportSpec_PathValue imp)
                                      = Metadata_PackagePath m) imports)
      /\ Forall (fun e => TextEdit_NewText e = strconv_Quote newPath
                          /\ TextEdit_AnnotationID e = "") new.
Proof.
  induction imports as [|imp imports IH]; intros edits edits'.
  { intros [= <-]. exists []. split_and!; [|done|constructor].
    intros uri. rewrite app_nil_r. by destruct (decide _). }
  cbn [renameImports_imports].
  destruct (renameImport s m newPath _ dep f edits imp) as [edits1|] eqn:Himp; [|done].
  simpl. intros (new2 & Hedits2 & Hlen2 & Hall2)%IH.
  apply renameImport_same_name in Himp as (new1 & Hedits1 & Hlen1 & Hall1).
  exists (new1 ++ new2). split_and!.
  - intros uri. rewrite Hedits2, Hedits1.
    destruct (decide _); [by rewrite app_assoc|done].
  - rewrite length_app, Hlen1, Hlen2, <- length_app. f_equal.
    change (imp :: imports) with ([imp] ++ imports). by rewrite filter_app.
  - by apply Forall_app.
Qed.

End NestedImports.

(** X14.  In the importers of a package that keeps its name, as a package
    below a renamed directory does, the package rename rewrites import
    paths and nothing else: the loop over the imports of a file adds to the
    edits of that file one edit per import of the package, each writing the
    quoted new path, and leaves the edits of all other files as they
    are. *)
Theorem renameImports_of_kept_name_rewrites_paths_only `{Library} (s : Snapshot)
    (m : Metadata) (newPath : string) (dep : Package) (f : ParsedGoFile)
    (imports : list ImportSpec) (edits edits' : gmap string (list TextEdit)) :
  renameImports_imports s m newPath (Metadata_PackageName m) dep f imports edits = Ok edits' ->
  (forall uri, uri <> ParsedGoFile_URI f -> editsAt edits' uri = editsAt edits uri)
  /\ exists new : list TextEdit,
       editsAt edits' (ParsedGoFile_URI f) = editsAt edits (ParsedGoFile_URI f) ++ new
       /\ length new
          = length (filter (fun imp => strconv_Unquote (ImportSpec_PathValue imp)
                                       = Metadata_PackagePath m) imports)
       /\ Forall (fun e => TextEdit_NewText e = strconv_Quote newPath
                           /\ TextEdit_AnnotationID e = "") new.
Proof.
  intros (new & Hedits & Hlen & Hall)%renameImports_imports_same_name. split.
  - intros uri Huri. rewrite Hedits. by rewrite decide_False.
  - exists new. split_and!; [|done|done]. rewrite Hedits. by rewrite decide_True.
Qed.

Lemma renameImports_of_kept_name_rewrites_paths_only_witness :
  let s := World.snapshot "old" true in
  let range l c l' c' :=
    {| Range_Start := {| Position_Line := l; Position_Character := c |};
       Range_End := {| Position_Line := l'; Position_Character := c' |} |} in
  let edits' : gmap string (list TextEdit) :=
    <[World.bURI := [newTextEdit (range 2 7 2 14) (strconv_Quote "z/old")]]> ∅ in
  renameImports_imports s (World.metaOld "old") "z/old" "old" (World.pkgB "old") World.bFile
    [World.imp] ∅ = Ok edits'
  /\ forall uri, uri <> World.bURI ->
       editsAt edits' uri = editsAt (∅ : gmap string (list TextEdit)) uri.
Proof.
  intros s range edits'.
  assert (renameImports_imports s (World.metaOld "old") "z/old"
            (Metadata_PackageName (World.metaOld "old")) (World.pkgB "old") World.bFile
            [World.imp] ∅ = Ok edits') as Hrun by (vm_compute; reflexivity).
  split; [exact Hrun|].
  exact (proj1 (renameImports_of_kept_name_rewrites_paths_only s (World.metaOld "old")
                  "z/old" (World.pkgB "old") World.bFile [World.imp] ∅ edits' Hrun)).
Defined.

(** ** Reverse dependencies that are not fully parsed *)

(** X15.  [renameImports] rewrites imports in fully parsed packages only:
    the reverse dependencies that are parsed in another mode contribute
    neither edits nor seen files nor errors, as if they did not import the
    package. *)
Theorem renameImports_skips_partially_parsed_packages `{Library} (s : Snapshot)
    (m : Metadata) (newPath newName : string) (rdeps : list Package)
    (st : gmap (string * string) bool * gmap string (list TextEdit)) :
  renameImports_deps s m newPath newName rdeps st
  = renameImports_deps s m newPath newName
      (filter (fun dep => Package_ParseMode dep = ParseFull) rdeps) st.
Proof.
  revert st. induction rdeps as [|dep rdeps IH]; intros st; [done|].
  rewrite filter_cons. cbn [renameImports_deps].
  destruct (decide (Package_ParseMode dep = ParseFull)) as [Hfull|Hpartial].
  - rewrite decide_False by (by intros []). cbn [renameImports_deps].
    rewrite decide_False by (by intros []).
    destruct (renameImports_files s m newPath newName dep _ st) as [st1|]; [|done].
    simpl. apply IH.
  - rewrite decide_True by done. apply IH.
Qed.

(** ** The local name of an import when the new name is taken *)

(** X16.  When the scope of the file or of the importing package binds the
    new name of the package, [renameImports] gives the import the first
    name among [newName1], [newName2], ... that neither scope binds,
    renames the imported package name to it within the file, and keeps
    every edit of that rename after the edit of the import path. *)
Theorem renameImport_probes_for_a_free_name `{Library} (s : Snapshot) (m : Metadata)
    (newPath newName : string) (dep : Package) (f : ParsedGoFile)
    (edits : gmap string (list TextEdit)) (imp : ImportSpec) (rng : Range)
    (pkgname : Object) (imported : string) (fileScope : gset string) :
  let uri := ParsedGoFile_URI f in
  let pathEdit := newTextEdit rng (strconv_Quote newPath) in
  let qo := {| qualifiedObject_obj := pkgname; qualifiedObject_pkg := dep;
               qualifiedObject_sourcePkg := None; qualifiedObject_node := None |} in
  strconv_Unquote (ImportSpec_PathValue imp) = Metadata_PackagePath m ->
  MappedRange_Range s
    (NewMappedRange (ParsedGoFile_Tok f) (ParsedGoFile_Mapper f)
       (ImportSpec_Path_Pos imp) (ImportSpec_Path_End imp)) = Ok rng ->
  newName <> Metadata_PackageName m ->
  ImportSpec_Name imp = None ->
  Package_Implicits dep !! ImportSpec_id imp = Some pkgname ->
  Object_Kind pkgname = PkgNameObj imported ->
  Package_Scopes dep !! File_id (ParsedGoFile_File f) = Some fileScope ->
  newName ∈ fileScope ∪ Package_Scope dep ->
  exists k,
    (0 < k)%nat
    /\ freshLocalName fileScope (Package_Scope dep) newName = newName +:+ pretty k
    /\ ((newName +:+ pretty k) ∉ fileScope ∪ Package_Scope dep)
    /\ (forall j, (0 < j < k)%nat -> (newName +:+ pretty j) ∈ fileScope ∪ Package_Scope dep)
    /\ renameImport s m newPath newName dep f edits imp
       = (changes ← renameObj s (newName +:+ pretty k) [qo] false;
          Ok (appendAll (appendAt edits uri [pathEdit]) changes)).
Proof.
  intros uri pathEdit qo Hpath Hrng Hname Himp Himplicit Hkind Hscope Hbound.
  destruct (freshLocalName_free fileScope (Package_Scope dep) newName)
    as (Hf & Hp & k & Hk & Hleast).
  destruct k as [|k].
  { exfalso. simpl in Hk. rewrite Hk in Hf, Hp.
    by apply elem_of_union in Hbound as [?|?]. }
  simpl in Hk. exists (S k). split_and!; [lia|done| | |].
  - rewrite <- Hk. intros [?|?]%elem_of_union; done.
  - intros [|j] Hj; [lia|]. apply (Hleast (S j)). lia.
  - unfold renameImport. rewrite decide_False by (by intros []).
    rewrite Hrng. simpl. rewrite bool_decide_eq_false_2 by done.
    rewrite Himp. rewrite bool_decide_eq_false_2 by (by intros []). simpl.
    rewrite Himplicit, Hkind, Hscope. cbv zeta. rewrite Hk. fold qo.
    destruct (renameObj s (newName +:+ pretty (S k)) [qo] false) as [changes|]; [|done].
    simpl. rewrite decide_False; [done|].
    intros Heq. rewrite <- (app_empty_r newName) in Heq at 2. apply (inj _) in Heq.
    by destruct (pretty_nat_nonempty (S k)).
Qed.

Lemma renameImport_probes_for_a_free_name_witness :
  let s := World.snapshot "old" true in
  let dep := {| Package_ID := "a/b"; Package_Name := "b"; Package_ParseMode := ParseFull;
                Package_CompiledGoFiles := [World.bFile]; Package_Types := 2;
                Package_Scope := {["new"]};
                Package_Implicits := {[10%nat := World.pkgname "old"]};
                Package_Scopes := {[2%nat := {["old"; "new1"]}]} |} in
  let qo := {| qualifiedObject_obj := World.pkgname "old"; qualifiedObject_pkg := dep;
               qualifiedObject_sourcePkg := None; qualifiedObject_node := None |} in
  let range l c l' c' :=
    {| Range_Start := {| Position_Line := l; Position_Character := c |};
       Range_End := {| Position_Line := l'; Position_Character := c' |} |} in
  "new" ∈ ({["old"; "new1"]} : gset string) ∪ Package_Scope dep
  /\ freshLocalName {["old"; "new1"]} (Package_Scope dep) "new" = "new2"
  /\ exists k,
       (0 < k)%nat
       /\ freshLocalName {["old"; "new1"]} (Package_Scope dep) "new" = "new" +:+ pretty k
       /\ (("new" +:+ pretty k) ∉ ({["old"; "new1"]} : gset string) ∪ Package_Scope dep)
       /\ (forall j, (0 < j < k)%nat ->
             ("new" +:+ pretty j) ∈ ({["old"; "new1"]} : gset string) ∪ Package_Scope dep)
       /\ renameImport s (World.metaOld "old") "a/new" "new" dep World.bFile ∅ World.imp
          = (changes ← renameObj s ("new" +:+ pretty k) [qo] false;
             Ok (appendAll
                   (appendAt ∅ World.bURI
                      [newTextEdit (range 2 7 2 14) (strconv_Quote "a/new")]) changes)).
Proof.
  intros s dep qo range.
  assert ("new" ∈ ({["old"; "new1"]} : gset string) ∪ Package_Scope dep) as Hbound
    by (vm_compute; reflexivity).
  split; [exact Hbound|]. split; [vm_compute; reflexivity|].
  exact (renameImport_probes_for_a_free_name s (World.metaOld "old") "a/new" "new" dep
           World.bFile ∅ World.imp (range 2 7 2 14) (World.pkgname "old") "old"
           {["old"; "new1"]} eq_refl eq_refl ltac:(discriminate) eq_refl eq_refl eq_refl
           eq_refl Hbound).
Defined.

(** ** The implementations of an interface method *)

Section Implementations.
Context `{Library} (s : Snapshot) (newName : string).

Lemma annotateAll_lookup (id : string) (acc sub : gmap string (list TextEdit)) uri es e :
  annotateAll id acc sub !! uri = Some es -> e ∈ es ->
  (exists old, acc !! uri = Some old /\ e ∈ old) \/ TextEdit_AnnotationID e = id.
Proof.
  unfold annotateAll. rewrite lookup_merge.
  destruct (acc !! uri) as [old|], (sub !! uri) as [[|te res]|]; simpl;
    intros Hes Hin; simplify_eq; eauto.
  - apply elem_of_app in Hin as [Hin|Hin]; [eauto|]. right.
    apply elem_of_cons in Hin as [->|Hin]; [done|].
    by apply list_elem_of_fmap in Hin as (te' & -> & _).
  - right. apply elem_of_cons in Hin as [->|Hin]; [done|].
    by apply list_elem_of_fmap in Hin as (te' & -> & _).
Qed.

Lemma renameImplementations_annotated (impls : list qualifiedObject) :
  forall n acc opt,
    renameImplementations s newName n impls acc = Ok opt ->
    annotated n acc -> annotated (n + length impls) opt.
Proof.
  induction impls as [|impl impls IH]; intros n acc opt.
  { intros [= <-]. by rewrite Nat.add_0_r. }
  cbn [renameImplementations].
  destruct (renameObj s newName [impl] true) as [subResult|]; [|done]. simpl.
  destruct (implementationName (qualifiedObject_obj impl)) as [name|]; [|done]. simpl.
  intros Hrest (Hedits & Hanns & Hall).
  replace (n + S (length impls))%nat with (S n + length impls)%nat by lia.
  apply (IH _ _ _ Hrest). split_and!; simpl.
  - intros uri es e Hes Hin.
    destruct (annotateAll_lookup _ _ _ _ _ _ Hes Hin) as [(old & Hold & Hin')| ->].
    + destruct (Hedits uri old e Hold Hin') as (i & Hi & ->). exists i. split; [lia|done].
    + exists n. split; [lia|done].
  - intros key ann. destruct (decide (key = pretty n)) as [->|Hkey].
    + rewrite lookup_insert_eq. intros [= <-]. simpl. split; [done|].
      exists n. split_and!; [lia|done|done].
    + rewrite lookup_insert_ne by done. intros Hann.
      destruct (Hanns key ann Hann) as (Hconfirm & i & Hi & -> & Hlabel).
      split; [done|]. exists i. split_and!; [lia|done|done].
  - intros i Hi. rewrite lookup_insert_is_Some.
    destruct (decide (pretty n = pretty i)) as [|Hne]; [by left|]. right. split; [done|].
    apply Hall. assert (i <> n) by (by intros ->). lia.
Qed.

Lemma renameImplementations_fails (impls : list qualifiedObject) (impl : qualifiedObject) e :
  impl ∈ impls ->
  renameObj s newName [impl] true = Err e ->
  forall n acc, exists e', renameImplementations s newName n impls acc = Err e'.
Proof.
  intros Hin Hfail. induction impls as [|impl' impls IH]; intros n acc.
  { by apply elem_of_nil in Hin. }
  cbn [renameImplementations]. apply elem_of_cons in Hin as [<-|Hin].
  { rewrite Hfail. simpl. eauto. }
  destruct (renameObj s newName [impl'] true) as [subResult|]; [|simpl; eauto]. simpl.
  destruct (implementationName (qualifiedObject_obj impl')) as [name|]; [|simpl; eauto].
  simpl. by apply IH.
Qed.

End Implementations.

(** X17.  The optional edits that [Rename] returns for an interface method
    are all annotated: there is one annotation per implementation, under
    the number of the implementation from 0, labelled with that number
    plus one and to be confirmed, and every optional edit carries the
    number of an implementation and so has its annotation. *)
Theorem Rename_optional_edits_need_confirmation `{Library} (s : Snapshot) (f : FileHandle)
    (pp : Position) (newName : string) (opt : OptionalEdits) :
  RenameResult_optional (Rename s f pp newName) = Some opt ->
  exists impls,
    implementations s f pp = Ok impls
    /\ (forall i, (i < length impls)%nat ->
          is_Some (OptionalEdits_Annotations opt !! pretty i))
    /\ (forall key ann,
          OptionalEdits_Annotations opt !! key = Some ann ->
          ChangeAnnotation_NeedsConfirmation ann = true
          /\ exists i, (i < length impls)%nat /\ key = pretty i
                       /\ ChangeAnnotation_Label ann
                          = "Rename implementation #" +:+ pretty (S i))
    /\ (forall uri es e,
          OptionalEdits_Edits opt !! uri = Some es -> e ∈ es ->
          exists ann,
            OptionalEdits_Annotations opt !! TextEdit_AnnotationID e = Some ann
            /\ ChangeAnnotation_NeedsConfirmation ann = true).
Proof.
  unfold Rename, renameFails.
  destruct (ParseGo s f) as [pgf|]; [|done].
  destruct (isInPackageName s f pgf pp) as [[]|]; [|  |done].
  { repeat case_match; done. }
  destruct (qualifiedObjsAtProtocolPos s _ pp) as [qos|]; [|done].
  destruct (renameObj s newName qos false) as [res|]; [|done].
  destruct (isInterfaceSignature <$> _) as [[[]|]|]; try done.
  destruct (implementations s f pp) as [impls|]; [|done].
  destruct (renameImplementations s newName 0 impls _) as [optional|] eqn:Hrun; [|done].
  simpl. intros [= ->]. exists impls. split; [done|].
  apply renameImplementations_annotated in Hrun as (Hedits & Hanns & Hall).
  2: { split_and!; simpl.
       - intros uri es e Hes. by rewrite lookup_empty in Hes.
       - intros key ann Hann. by rewrite lookup_empty in Hann.
       - intros i Hi. lia. }
  simpl in *. split_and!; [done|done|].
  intros uri es e Hes Hin. destruct (Hedits uri es e Hes Hin) as (i & Hi & ->).
  destruct (Hall i Hi) as [ann Hann]. exists ann. split; [done|].
  by destruct (Hanns _ _ Hann).
Qed.

Lemma Rename_optional_edits_need_confirmation_witness :
  let method id recv pos isInterface :=
    objectOfB id "M" (FuncObj (Some {| Receiver_IsInterface := isInterface;
                                       Receiver_TypeString := recv |})) pos in
  let s := snapshotWith (World.snapshot "old" true)
             (Ok [qualifiedOfB (method 7%nat "b.I" 135 true) 1]) referencesOfB
             (Ok [qualifiedOfB (method 8%nat "b.T" 137 false) 1;
                  qualifiedOfB (method 9%nat "*b.U" 139 false) 1]) in
  let edit c c' id :=
    {| TextEdit_Range := {| Range_Start := {| Position_Line := 4; Position_Character := c |};
                            Range_End := {| Position_Line := 4; Position_Character := c' |} |};
       TextEdit_NewText := "N"; TextEdit_AnnotationID := id |} in
  let annotation label description :=
    {| ChangeAnnotation_Label := label; ChangeAnnotation_NeedsConfirmation := true;
       ChangeAnnotation_Description := description |} in
  let opt :=
    {| OptionalEdits_Edits := <[World.bURI := [edit 10 11 "0"; edit 12 13 "1"]]> ∅;
       OptionalEdits_Annotations :=
         <["1" := annotation "Rename implementation #2" "*b.U.M"]>
           (<["0" := annotation "Rename implementation #1" "b.T.M"]> ∅) |} in
  RenameResult_optional (Rename s fhB atUse "N") = Some opt
  /\ forall uri es e,
       OptionalEdits_Edits opt !! uri = Some es -> e ∈ es ->
       exists ann,
         OptionalEdits_Annotations opt !! TextEdit_AnnotationID e = Some ann
         /\ ChangeAnnotation_NeedsConfirmation ann = true.
Proof.
  intros method s edit annotation opt.
  assert (RenameResult_optional (Rename s fhB atUse "N") = Some opt) as Hrun
    by (vm_compute; reflexivity).
  split; [exact Hrun|].
  destruct (Rename_optional_edits_need_confirmation s fhB atUse "N" opt Hrun)
    as (impls & _ & _ & _ & Hedits).
  exact Hedits.
Defined.

(** X18.  The rename of an interface method is all or nothing: when the
    rename of one of its implementations fails, [Rename] returns an error
    and no edits, not even those of the interface method itself. *)
Theorem Rename_fails_when_an_implementation_fails `{Library} (s : Snapshot) (f : FileHandle)
    (pp : Position) (newName : string) (pgf : ParsedGoFile) (qo : qualifiedObject)
    (qos impls : list qualifiedObject) (impl : qualifiedObject) (e : error) :
  ParseGo s f = Ok pgf ->
  isInPackageName s f pgf pp = Ok false ->
  qualifiedObjsAtProtocolPos s (FileHandle_URI f) pp = Ok (qo :: qos) ->
  isInterfaceSignature (qualifiedObject_obj qo) = Ok true ->
  implementations s f pp = Ok impls ->
  impl ∈ impls ->
  renameObj s newName [impl] true = Err e ->
  exists e', Rename s f pp newName = renameFails false e'.
Proof.
  intros Hparse Hin Hqos Hiface Himpls Himpl Hfail. unfold Rename.
  rewrite Hparse, Hin, Hqos.
  destruct (renameObj s newName (qo :: qos) false) as [res|]; [|eauto].
  simpl. rewrite Hiface, Himpls.
  destruct (renameImplementations_fails s newName impls impl e Himpl Hfail 0%nat
              {| OptionalEdits_Edits := ∅; OptionalEdits_Annotations := ∅ |}) as [e' ->].
  eauto.
Qed.

Lemma Rename_fails_when_an_implementation_fails_witness :
  let method id name pos isInterface :=
    objectOfB id name (FuncObj (Some {| Receiver_IsInterface := isInterface;
                                        Receiver_TypeString := "b.T" |})) pos in
  let qo := qualifiedOfB (method 7%nat "M" 135 true) 1 in
  let impl := qualifiedOfB (method 8%nat "_" 137 false) 1 in
  let s := snapshotWith (World.snapshot "old" true) (Ok [qo]) referencesOfB (Ok [impl]) in
  renameObj s "N" [qo] false
  = Ok (<[World.bURI := [newTextEdit
                           {| Range_Start := {| Position_Line := 4; Position_Character := 8 |};
                              Range_End := {| Position_Line := 4; Position_Character := 9 |} |}
                           "N"]]> ∅)
  /\ renameObj s "N" [impl] true = Err ErrBlank
  /\ exists e', Rename s fhB atUse "N" = renameFails false e'.
Proof.
  intros method qo impl s. split; [reflexivity|]. split; [reflexivity|].
  exact (Rename_fails_when_an_implementation_fails s fhB atUse "N" World.bFile qo [] [impl]
           impl ErrBlank eq_refl eq_refl eq_refl eq_refl eq_refl
           ltac:(apply list_elem_of_here) eq_refl).
Defined.

(** X19.  [Rename] never succeeds on a function that is not a method: once
    the edits are computed, [isInterfaceSignature] asks the receiver of
    the function for its type, and there is none. *)
Theorem Rename_of_plain_function_never_succeeds `{Library} (s : Snapshot) (f : FileHandle)
    (pp : Position) (newName : string) (pgf : ParsedGoFile) (qo : qualifiedObject)
    (qos : list qualifiedObject) :
  ParseGo s f = Ok pgf ->
  isInPackageName s f pgf pp = Ok false ->
  qualifiedObjsAtProtocolPos s (FileHandle_URI f) pp = Ok (qo :: qos) ->
  Object_Kind (qualifiedObject_obj qo) = FuncObj None ->
  (exists e, Rename s f pp newName = renameFails false e)
  /\ (forall res,
        renameObj s newName (qo :: qos) false = Ok res ->
        Rename s f pp newName = renameFails false (ErrPanic "nil pointer dereference")).
Proof.
  intros Hparse Hin Hqos Hkind. unfold Rename. rewrite Hparse, Hin, Hqos.
  unfold isInterfaceSignature. simpl. rewrite Hkind.
  destruct (renameObj s newName (qo :: qos) false) as [res|e]; split; eauto; by intros.
Qed.

Lemma Rename_of_plain_function_never_succeeds_witness :
  let qo := qualifiedOfB (objectOfB 7 "F" (FuncObj None) 135) 1 in
  let s := snapshotWith (World.snapshot "old" true) (Ok [qo]) referencesOfB (Ok []) in
  let res : gmap string (list TextEdit) :=
    <[World.bURI := [newTextEdit
                       {| Range_Start := {| Position_Line := 4; Position_Character := 8 |};
                          Range_End := {| Position_Line := 4; Position_Character := 9 |} |}
                       "G"]]> ∅ in
  renameObj s "G" [qo] false = Ok res
  /\ is_Some (PrepareResult_item (PrepareRename s fhB atUse))
  /\ Rename s fhB atUse "G" = renameFails false (ErrPanic "nil pointer dereference").
Proof.
  intros qo s res.
  assert (renameObj s "G" [qo] false = Ok res) as Hrun by reflexivity.
  split; [exact Hrun|]. split; [by eexists|].
  exact (proj2 (Rename_of_plain_function_never_succeeds s fhB atUse "G" World.bFile qo []
                  eq_refl eq_refl eq_refl eq_refl) res Hrun).
Defined.

(** X20.  When [Rename] at a package clause succeeds, the new name is an
    identifier that does not end in [_test], the file has metadata, the
    first of which has module information with a module path other than
    the package path, and the edits are those of [renamePackage] for that
    package over all valid metadata of the snapshot. *)
Theorem Rename_package_success `{Library} (s : Snapshot) (f : FileHandle) (pp : Position)
    (newName : string) :
  RenameResult_isPackageRename (Rename s f pp newName) = true ->
  RenameResult_err (Rename s f pp newName) = None ->
  isValidIdentifier newName = true
  /\ strings_HasSuffix newName "_test" = false
  /\ exists meta rest mi metadata edits,
       MetadataForFile s (FileHandle_URI f) = Ok (meta :: rest)
       /\ Metadata_ModuleInfo meta = Some mi
       /\ ModuleInfo_Path mi <> Metadata_PackagePath meta
       /\ AllValidMetadata s = Ok metadata
       /\ renamePackage s (ModuleInfo_Path mi) (Metadata_PackagePath meta) newName metadata
          = Ok edits
       /\ RenameResult_edits (Rename s f pp newName) = Some edits.
Proof.
  unfold Rename, renameFails.
  destruct (ParseGo s f) as [pgf|]; [|done].
  destruct (isInPackageName s f pgf pp) as [[]|]; [| |done].
  2: { repeat case_match; done. }
  destruct (isValidIdentifier newName); [|done]. simpl.
  destruct (MetadataForFile s (FileHandle_URI f)) as [[|meta rest]|]; [done| |done].
  destruct (Metadata_ModuleInfo meta) as [mi|] eqn:Hmod; [|done].
  destruct (strings_HasSuffix newName "_test"); [done|].
  destruct (AllValidMetadata s) as [metadata|]; [|done].
  destruct (renamePackage s _ _ newName metadata) as [edits|] eqn:Hrename; [|done].
  simpl. intros _ _. split_and!; [done|done|].
  exists meta, rest, mi, metadata, edits. split_and!; try done.
  intros Heq. unfold renamePackage in Hrename. by rewrite decide_True in Hrename.
Qed.

Lemma Rename_package_success_witness :
  let s := World.snapshot "old" true in
  isValidIdentifier "new" = true
  /\ strings_HasSuffix "new" "_test" = false
  /\ exists meta rest mi metadata edits,
       MetadataForFile s World.oldURI = Ok (meta :: rest)
       /\ Metadata_ModuleInfo meta = Some mi
       /\ ModuleInfo_Path mi <> Metadata_PackagePath meta
       /\ AllValidMetadata s = Ok metadata
       /\ renamePackage s (ModuleInfo_Path mi) (Metadata_PackagePath meta) "new" metadata
          = Ok edits
       /\ RenameResult_edits (Rename s (fhOld "old") atPackageName "new") = Some edits.
Proof.
  intros s.
  exact (Rename_package_success s (fhOld "old") atPackageName "new" eq_refl eq_refl).
Defined.
